(** * The MAD-X lattice loader of xtrack ([xtrack/mad_loader.py])

    A shallow embedding of the element adapter ([MadElem]), the deferred
    builders, the alignment and aperture transform builders and the
    orchestration loop ([iter_elements], [make_line]) of the loader,
    followed by the properties established about them.

    Conventions of the embedding.
    - A Python [float] is a binary64 number: Rocq's primitive [float], with
      IEEE comparison ([PrimFloat.eqb]) for [==].  The integer literal [0]
      used as a default ([get("tilt", 0)], [self.dx = 0]) is the float zero.
    - A parameter value is a literal, a list, a string, or a symbolic
      expression node (an object with [_get_value], built by the evaluator
      [madeval]); see [pyval].  As the note at the head of the loader says,
      comparing a node ([l != 0]) builds a node, and a node counts as true:
      [truthy], [py_eq] and [py_ne] follow this.
    - A Python exception is a value of [exn]; a function that can raise
      returns a [result].  A function that may print returns what it
      prints with its result ([printing]).
    - Attributes assigned on a [MadElem] after construction ([l], [knl],
      [madeval], ...) live in its instance dictionary and shadow the
      dynamic lookup of [__getattr__], as in Python.
    - A generator is the list of the objects it yields, with the exception
      raised after them, if any.
    - The conversion rules embedded are those for drifts, markers,
      drift-like elements, solenoids and the aperture shapes; looking up
      any other rule of the loader gives [NotEmbedded], which [make_line]
      reports as [OutsideModel].  The rules for translations and for
      rotations about the axis are embedded as functions of their own
      ([convert_translation], [convert_srotation]), outside this lookup.
    - The constructor of the loader, the remaining generic functions and
      the notions of the further statements follow the notions of the
      first statements; their properties are at the end. *)

From Stdlib Require Import ZArith List String Ascii Bool Lia.
From Stdlib Require Import Floats Reals.
From stdpp Require Import gmap strings list pretty.

Set Warnings "-inexact-float,-register-all".

(** ** Exceptions and fallible computations *)

Inductive exn :=
| AttributeError (attr : string)
| IndexError
| TypeError
| ValueError (msg : string)
| NotImplementedError (msg : string)
| OutsideModel (method : string).

Inductive result (A : Type) :=
| Ok (a : A)
| Raise (e : exn).

Arguments Ok {A} a.
Arguments Raise {A} e.

Definition rbind {A B : Type} (m : result A) (k : A -> result B) : result B :=
  match m with
  | Ok a => k a
  | Raise e => Raise e
  end.

Notation "'let!' x ':=' m 'in' k" := (rbind m (fun x => k))
  (at level 10, x pattern, m at level 100, k at level 200).

(** ** Parameter values *)

(** Symbolic expression nodes, as the expression layer builds them when an
    operator is applied to a node. *)
Inductive expr :=
| EVar (name : string)
| ELit (x : float)
| EAdd (a b : expr)
| EMul (a b : expr)
| EDiv (a b : expr)
| ENeg (a : expr).

Inductive pyval :=
| Num (x : float)
| Expr (e : expr)
| Str (s : string)
| PList (l : list pyval).

(** [np.pi]. *)
Definition np_pi : float := 0x1.921fb54442d18p+1%float.

(** [x._get_value()] and [x._value]: the current value of a node under the
    variable table. *)
Fixpoint expr_value (vars : string -> float) (e : expr) : float :=
  match e with
  | EVar n => vars n
  | ELit x => x
  | EAdd a b => (expr_value vars a + expr_value vars b)%float
  | EMul a b => (expr_value vars a * expr_value vars b)%float
  | EDiv a b => (expr_value vars a / expr_value vars b)%float
  | ENeg a => (- expr_value vars a)%float
  end.

Definition is_expr (x : pyval) : bool :=
  match x with
  | Expr _ => true
  | _ => false
  end.

(** Python truth value: a number is true when it is not [== 0], a string
    or list when it is not empty, an expression node always (it is an
    object without a truth method). *)
Definition truthy (x : pyval) : bool :=
  match x with
  | Num v => negb (v =? 0)%float
  | Expr _ => true
  | Str s => negb (String.eqb s "")
  | PList l => match l with [] => false | _ => true end
  end.

(** Truth value of [a == b].  A comparison with an expression node builds a
    new node, which is true; lists compare elementwise. *)
Fixpoint py_eq (a b : pyval) {struct a} : bool :=
  match a, b with
  | Expr _, _ => true
  | _, Expr _ => true
  | Num x, Num y => (x =? y)%float
  | Str s, Str t => String.eqb s t
  | PList l, PList m =>
      (fix list_eq (l m : list pyval) {struct l} : bool :=
         match l, m with
         | [], [] => true
         | x :: l', y :: m' => py_eq x y && list_eq l' m'
         | _, _ => false
         end) l m
  | _, _ => false
  end.

(** Truth value of [a != b]. *)
Definition py_ne (a b : pyval) : bool :=
  match a, b with
  | Expr _, _ => true
  | _, Expr _ => true
  | _, _ => negb (py_eq a b)
  end.

Definition to_expr (x : pyval) : option expr :=
  match x with
  | Num v => Some (ELit v)
  | Expr e => Some e
  | _ => None
  end.

(** [a + b], also the in-place [a += b]: numbers add, lists and strings
    concatenate, an expression operand gives an expression node. *)
Definition py_add (a b : pyval) : result pyval :=
  match a, b with
  | Num x, Num y => Ok (Num (x + y)%float)
  | PList l, PList m => Ok (PList (l ++ m))
  | Str s, Str t => Ok (Str (s +:+ t))
  | _, _ =>
      match to_expr a, to_expr b with
      | Some ea, Some eb => Ok (Expr (EAdd ea eb))
      | _, _ => Raise TypeError
      end
  end.

Definition py_mul (a b : pyval) : result pyval :=
  match a, b with
  | Num x, Num y => Ok (Num (x * y)%float)
  | _, _ =>
      match to_expr a, to_expr b with
      | Some ea, Some eb => Ok (Expr (EMul ea eb))
      | _, _ => Raise TypeError
      end
  end.

(** [a / b] where the divisor is a NumPy scalar or a nonzero constant: IEEE
    division. *)
Definition py_div (a b : pyval) : result pyval :=
  match a, b with
  | Num x, Num y => Ok (Num (x / y)%float)
  | _, _ =>
      match to_expr a, to_expr b with
      | Some ea, Some eb => Ok (Expr (EDiv ea eb))
      | _, _ => Raise TypeError
      end
  end.

Definition py_neg (a : pyval) : result pyval :=
  match a with
  | Num x => Ok (Num (- x)%float)
  | Expr e => Ok (Expr (ENeg e))
  | _ => Raise TypeError
  end.

(** [a[i]]. *)
Definition py_index (a : pyval) (i : nat) : result pyval :=
  match a with
  | PList l => match nth_error l i with Some v => Ok v | None => Raise IndexError end
  | Str s => match String.get i s with
             | Some c => Ok (Str (String c EmptyString))
             | None => Raise IndexError
             end
  | _ => Raise TypeError
  end.

(** [len(a)]. *)
Definition py_len (a : pyval) : result nat :=
  match a with
  | PList l => Ok (length l)
  | Str s => Ok (String.length s)
  | _ => Raise TypeError
  end.

(** ** Dictionaries with insertion order (keyword arguments, [cmdpar],
    instance dictionaries) *)

Fixpoint assoc {A : Type} (k : string) (d : list (string * A)) : option A :=
  match d with
  | [] => None
  | (k', v) :: d' => if String.eqb k k' then Some v else assoc k d'
  end.

(** [d[k] = v]: an existing key keeps its position. *)
Fixpoint assoc_set {A : Type} (k : string) (v : A) (d : list (string * A))
  : list (string * A) :=
  match d with
  | [] => [(k, v)]
  | (k', v') :: d' =>
      if String.eqb k k' then (k, v) :: d' else (k', v') :: assoc_set k v d'
  end.

(** ** Source records: the elements of the expanded sequence *)

(** A command parameter: its value and, when it was given by a formula, the
    formula ([par.expr]); for a list, one optional formula per entry. *)
Inductive cmd_parameter :=
| ParNum (value : float) (expr : option expr)
| ParList (value : list float) (expr : list (option expr))
| ParStr (value : string).

Definition par_value (p : cmd_parameter) : pyval :=
  match p with
  | ParNum v _ => Num v
  | ParList v _ => PList (map Num v)
  | ParStr s => Str s
  end.

(** The alignment-error record of an element (a named tuple). *)
Record AlignError := {
  ae_dx : float; ae_dy : float; ae_ds : float;
  ae_dphi : float; ae_dtheta : float; ae_dpsi : float;
  ae_mrex : float; ae_mrey : float; ae_mredx : float; ae_mredy : float;
  ae_arex : float; ae_arey : float; ae_mscalx : float; ae_mscaly : float
}.

Definition AlignError_fields (a : AlignError) : list float :=
  [ae_dx a; ae_dy a; ae_ds a; ae_dphi a; ae_dtheta a; ae_dpsi a;
   ae_mrex a; ae_mrey a; ae_mredx a; ae_mredy a;
   ae_arex a; ae_arey a; ae_mscalx a; ae_mscaly a].

(** [FieldErrors]: the arrays [dkn] and [dks]. *)
Record FieldErrors := {
  dkn : list float;
  dks : list float
}.

Record cpymad_element := {
  el_name : string;
  (** names along [parent], nearest first; the root is its own parent *)
  el_parents : list string;
  (** [base_type.name] *)
  el_base_type : string;
  el_cmdpar : list (string * cmd_parameter);
  el_field_errors : option FieldErrors;
  el_align_errors : option AlignError
}.

(** [el.k] on the raw record. *)
Definition raw_attr (el : cpymad_element) (k : string) : result pyval :=
  match assoc k (el_cmdpar el) with
  | Some p => Ok (par_value p)
  | None => Raise (AttributeError k)
  end.

(** Truth value of [el.k1 or el.k2 or ...]. *)
Fixpoint raw_any (el : cpymad_element) (ks : list string) : result bool :=
  match ks with
  | [] => Ok false
  | k :: ks' =>
      let! v := raw_attr el k in
      if truthy v then Ok true else raw_any el ks'
  end.

(** ** Generic functions *)

Section Values.

Variable vars : string -> float.

(** [get_value] on the parameter values.  These hold no tuple, array or
    dictionary; the function with the branches for them is
    [get_value_full], further down, which agrees with this one on the
    parameter values. *)
Fixpoint get_value (x : pyval) : pyval :=
  match x with
  | Expr e => Num (expr_value vars e)
  | PList l => PList (map get_value l)
  | _ => x
  end.

Definition value_if_expr (x : pyval) : pyval :=
  match x with
  | Expr e => Num (expr_value vars e)
  | _ => x
  end.

End Values.

Definition rad2deg (rad : pyval) : result pyval :=
  let! r := py_mul rad (Num 180) in
  py_div r (Num np_pi).

Fixpoint add_lists_from (a b : list pyval) (length ii : nat) : result (list pyval) :=
  match length with
  | O => Ok []
  | S length' =>
      let! c :=
        match nth_error a ii, nth_error b ii with
        | Some x, Some y => py_add x y
        | Some x, None => Ok x
        | None, Some y => Ok y
        | None, None => Ok (Num 0)
        end in
      let! out := add_lists_from a b length' (S ii) in
      Ok (c :: out)
  end.

Definition add_lists (a b : list pyval) (length : nat) : result (list pyval) :=
  add_lists_from a b length 0.

Definition nonzero_or_expr (x : pyval) : bool :=
  if is_expr x then true else py_ne x (Num 0).

Fixpoint eval_list_zip (value : list float) (expr : list (option expr))
  : list pyval :=
  match value, expr with
  | v :: vs, e :: es =>
      match e with Some e' => Expr e' | None => Num v end :: eval_list_zip vs es
  | _, _ => []
  end.

(** [eval_list(par, madeval)]; [madeval] tells whether an evaluator is
    supplied. *)
Definition eval_list (value : list float) (expr : list (option expr))
    (madeval : bool) : pyval :=
  if madeval then PList (eval_list_zip value expr) else PList (map Num value).

(** ** [MadElem]: the view of one source record *)

Record MadElem := {
  me_name : string;
  me_elem : cpymad_element;
  (** whether an evaluator is attached ([madeval is not None]) *)
  me_madeval : bool;
  me_field_errors : option FieldErrors;
  (** attributes assigned on the instance after construction *)
  me_dict : list (string * pyval)
}.

Definition MadElem_init (name : string) (elem : cpymad_element)
    (madeval : bool) (name_prefix : option string) : result MadElem :=
  let name' :=
    match name_prefix with
    | None => name
    | Some p => p +:+ name
    end in
  let! misaligned :=
    if negb (String.eqb (el_base_type elem) "translation")
    then raw_any elem ["dphi"; "dtheta"; "dpsi"; "dx"; "dy"; "ds"]
    else Ok false in
  if misaligned then Raise (NotImplementedError "")
  else Ok {| me_name := name';
             me_elem := elem;
             me_madeval := madeval;
             me_field_errors := el_field_errors elem;
             me_dict := [] |}.

(** [get_type_hierarchy]: the element's name followed by its ancestors', up
    to the first type that is its own parent. *)
Fixpoint type_hierarchy (name : string) (parents : list string) : list string :=
  match parents with
  | [] => [name]
  | p :: ps => if String.eqb name p then [name] else name :: type_hierarchy p ps
  end.

Definition get_type_hierarchy (m : MadElem) : list string :=
  type_hierarchy (el_name (me_elem m)) (el_parents (me_elem m)).

Definition align_errors (m : MadElem) : option AlignError :=
  el_align_errors (me_elem m).

(** The property [type]. *)
Definition me_type (m : MadElem) : string := el_base_type (me_elem m).

(** [__getattr__(k)]: the dynamic lookup in the record's parameters. *)
Definition MadElem_getattr (m : MadElem) (k : string) : result pyval :=
  match assoc k (el_cmdpar (me_elem m)) with
  | None => Raise (AttributeError k)
  | Some (ParList value expr) => Ok (eval_list value expr (me_madeval m))
  | Some (ParStr value) => Ok (Str value)
  | Some (ParNum value expr) =>
      match me_madeval m, expr with
      | true, Some e => Ok (Expr e)
      | _, _ => Ok (Num value)
      end
  end.

(** [m.k] for a parameter name [k]: the instance dictionary first, then
    [__getattr__]. *)
Definition attr (m : MadElem) (k : string) : result pyval :=
  match assoc k (me_dict m) with
  | Some v => Ok v
  | None => MadElem_getattr m k
  end.

(** [m.k = v]. *)
Definition setattr (m : MadElem) (k : string) (v : pyval) : MadElem :=
  {| me_name := me_name m;
     me_elem := me_elem m;
     me_madeval := me_madeval m;
     me_field_errors := me_field_errors m;
     me_dict := assoc_set k v (me_dict m) |}.

Definition set_madeval (m : MadElem) (madeval : bool) : MadElem :=
  {| me_name := me_name m;
     me_elem := me_elem m;
     me_madeval := madeval;
     me_field_errors := me_field_errors m;
     me_dict := me_dict m |}.

(** [m.get(key, default)]: [hasattr] turns only [AttributeError] into the
    default. *)
Definition get (m : MadElem) (key : string) (default : pyval) : result pyval :=
  match attr m key with
  | Raise (AttributeError _) => Ok default
  | r => r
  end.

Definition has_aperture (m : MadElem) : result bool :=
  let el := me_elem m in
  let! has_aper :=
    match assoc "aperture" (el_cmdpar el) with
    | None => Ok false
    | Some p =>
        let! a0 := py_index (par_value p) 0 in
        if py_ne a0 (Num 0) then Ok true
        else let! n := py_len (par_value p) in Ok (Nat.ltb 1 n)
    end in
  if has_aper then Ok true
  else
    match assoc "aper_vx" (el_cmdpar el) with
    | None => Ok false
    | Some p => let! n := py_len (par_value p) in Ok (Nat.ltb 2 n)
    end.

Definition is_empty_marker (m : MadElem) : result bool :=
  if String.eqb (me_type m) "marker"
  then let! a := has_aperture m in Ok (negb a)
  else Ok false.

(** [a and b] on truth values that may raise: [b] is not evaluated when [a]
    is false. *)
Definition and_then (a b : result bool) : result bool :=
  let! x := a in if x then b else Ok false.

(** Truth value of [self.k == other.k]. *)
Definition attr_eq (self other : MadElem) (k : string) : result bool :=
  let! a := attr self k in
  let! b := attr other k in
  Ok (py_eq a b).

Definition same_aperture (self other : MadElem) : result bool :=
  and_then (attr_eq self other "aperture")
  (and_then (attr_eq self other "aper_offset")
  (and_then (attr_eq self other "aper_tilt")
  (and_then (attr_eq self other "aper_vx")
  (and_then (attr_eq self other "aper_vy")
            (attr_eq self other "apertype"))))).

Fixpoint floats_eq (l m : list float) : bool :=
  match l, m with
  | [], [] => true
  | x :: l', y :: m' => (x =? y)%float && floats_eq l' m'
  | _, _ => false
  end.

(** [==] on the optional alignment-error records. *)
Definition align_errors_eq (a b : option AlignError) : bool :=
  match a, b with
  | None, None => true
  | Some x, Some y => floats_eq (AlignError_fields x) (AlignError_fields y)
  | _, _ => false
  end.

(** The loop of [merge_multipole] over the field-error arrays, from index
    [ii], for [n] more rounds. *)
Fixpoint add_field_errors (n ii : nat) (sdkn sdks odkn odks : list float)
  : result (list float * list float) :=
  match n with
  | O => Ok (sdkn, sdks)
  | S n' =>
      match nth_error sdkn ii, nth_error odkn ii with
      | Some x, Some y =>
          match nth_error sdks ii, nth_error odks ii with
          | Some x', Some y' =>
              add_field_errors n' (S ii)
                (<[ii := (x + y)%float]> sdkn) (<[ii := (x' + y')%float]> sdks)
                odkn odks
          | _, _ => Raise IndexError
          end
      | _, _ => Raise IndexError
      end
  end.

(** [self.merge_multipole(other)]: the returned flag and [self] afterwards. *)
Definition merge_multipole (self other : MadElem) : result (bool * MadElem) :=
  let! compatible :=
    and_then (same_aperture self other)
    (and_then (Ok (align_errors_eq (align_errors self) (align_errors other)))
    (and_then (attr_eq self other "tilt")
              (attr_eq self other "angle"))) in
  if compatible then
    let! sknl := attr self "knl" in
    let! oknl := attr other "knl" in
    let! knl := py_add sknl oknl in
    let self1 := setattr self "knl" knl in
    let! sksl := attr self1 "ksl" in
    let! oksl := attr other "ksl" in
    let! ksl := py_add sksl oksl in
    let self2 := setattr self1 "ksl" ksl in
    let! fe :=
      match me_field_errors self2, me_field_errors other with
      | Some s, Some o =>
          let! r := add_field_errors (length (dkn s)) 0
                      (dkn s) (dks s) (dkn o) (dks o) in
          Ok (Some {| dkn := fst r; dks := snd r |})
      | s, _ => Ok s
      end in
    Ok (true,
        {| me_name := me_name self2 +:+ "_" +:+ me_name other;
           me_elem := me_elem self2;
           me_madeval := me_madeval self2;
           me_field_errors := fe;
           me_dict := me_dict self2 |})
  else Ok (false, self).

(** ** Deferred builders and the target collection *)

(** The target element classes the embedded conversion rules name. *)
Inductive xt_class :=
| Drift | Marker | SRotation | XYShift | Solenoid
| LimitPolygon | LimitRect | LimitRacetrack | LimitEllipse | LimitRectEllipse.

Definition xt_class_eqb (a b : xt_class) : bool :=
  match a, b with
  | Drift, Drift | Marker, Marker | SRotation, SRotation | XYShift, XYShift
  | Solenoid, Solenoid | LimitPolygon, LimitPolygon | LimitRect, LimitRect
  | LimitRacetrack, LimitRacetrack | LimitEllipse, LimitEllipse
  | LimitRectEllipse, LimitRectEllipse => true
  | _, _ => false
  end.

(** [ElementBuilder] and, when [eb_with_expr] is set, its subclass
    [ElementBuilderWithExpr]. *)
Record ElementBuilder := {
  eb_name : string;
  eb_type : xt_class;
  eb_attrs : list (string * pyval);
  eb_with_expr : bool
}.

Record CompoundElementBuilder := {
  ceb_name : string;
  ceb_core : list ElementBuilder;
  ceb_entry_transform : list ElementBuilder;
  ceb_exit_transform : list ElementBuilder;
  ceb_aperture : list ElementBuilder
}.

Inductive builder :=
| EB (b : ElementBuilder)
| CEB (c : CompoundElementBuilder).

(** Modelled from the spec: a target element, as its class with the
    attribute values it was allocated with and the parameters re-attached
    to it afterwards; the element classes themselves are outside the
    loader. *)
Record xt_element := {
  xt_type : xt_class;
  xt_attrs : list (string * pyval);
  xt_exprs : list (string * pyval)
}.

Record Compound := {
  core : list string;
  aperture : list string;
  entry_transform : list string;
  exit_transform : list string;
  entry : string;
  exit_ : string
}.

(** Modelled from the spec: the target collection, an ordered list of names
    with the dictionary of the elements and the compound registry. *)
Record Line := {
  element_names : list string;
  element_dict : gmap string xt_element;
  compound_container : gmap string Compound
}.

Definition Line_new : Line :=
  {| element_names := []; element_dict := ∅; compound_container := ∅ |}.

(** Modelled from the spec: [line.append_element(element, name)] stores the
    element under the name and appends the name. *)
Definition append_element (line : Line) (element : xt_element) (name : string)
  : Line :=
  {| element_names := element_names line ++ [name];
     element_dict := <[name := element]> (element_dict line);
     compound_container := compound_container line |}.

(** Modelled from the spec: [define_compound(name, compound)] records the
    compound under its name. *)
Definition define_compound (line : Line) (name : string) (c : Compound) : Line :=
  {| element_names := element_names line;
     element_dict := element_dict line;
     compound_container := <[name := c]> (compound_container line) |}.

(** The formatted name [f"{name}:{ii}"]. *)
Definition suffixed (name : string) (ii : nat) : string :=
  name +:+ ":" +:+ pretty ii.

(** The [while] loop of [generate_repeated_name], started at [ii].  It
    leaves at the first index whose name is not in the dictionary; [fuel]
    bounds the number of rounds, and the number of entries of the
    dictionary is enough ([first_unused_spec]). *)
Fixpoint first_unused (d : gmap string xt_element) (name : string)
    (fuel ii : nat) : string :=
  match fuel with
  | O => suffixed name ii
  | S fuel' =>
      match d !! suffixed name ii with
      | Some _ => first_unused d name fuel' (S ii)
      | None => suffixed name ii
      end
  end.

Definition generate_repeated_name (line : Line) (name : string) : string :=
  match element_dict line !! name with
  | Some _ => first_unused (element_dict line) name (size (element_dict line)) 0
  | None => name
  end.

Section Materialization.

Variable vars : string -> float.

(** The element a builder allocates: [self.type] called with the
    attributes, and for [ElementBuilderWithExpr] the allocation from the
    current values followed by the re-attachment of the parameters
    ([set_expr]). *)
Definition allocate (b : ElementBuilder) : xt_element :=
  if eb_with_expr b
  then {| xt_type := eb_type b;
          xt_attrs := map (fun kv => (fst kv, get_value vars (snd kv))) (eb_attrs b);
          xt_exprs := eb_attrs b |}
  else {| xt_type := eb_type b; xt_attrs := eb_attrs b; xt_exprs := [] |}.

(** [add_to_line] of [ElementBuilder] and of [ElementBuilderWithExpr]. *)
Definition add_to_line (b : ElementBuilder) (line : Line) : Line :=
  let xtel := allocate b in
  let name := generate_repeated_name line (eb_name b) in
  append_element line xtel name.

Definition add_all (bs : list ElementBuilder) (line : Line) : Line :=
  fold_left (fun ln b => add_to_line b ln) bs line.

(** [add_to_line] of [CompoundElementBuilder]. *)
Definition add_compound_to_line (c : CompoundElementBuilder) (line : Line) : Line :=
  let start_marker :=
    {| eb_name := ceb_name c +:+ "_entry"; eb_type := Marker;
       eb_attrs := []; eb_with_expr := false |} in
  let end_marker :=
    {| eb_name := ceb_name c +:+ "_exit"; eb_type := Marker;
       eb_attrs := []; eb_with_expr := false |} in
  let component_elements :=
    [start_marker] ++ ceb_aperture c ++
    ceb_entry_transform c ++ ceb_core c ++ ceb_exit_transform c ++
    [end_marker] in
  let line' := add_all component_elements line in
  let compound :=
    {| core := map eb_name (ceb_core c);
       aperture := map eb_name (ceb_aperture c);
       entry_transform := map eb_name (ceb_entry_transform c);
       exit_transform := map eb_name (ceb_exit_transform c);
       entry := eb_name start_marker;
       exit_ := eb_name end_marker |} in
  define_compound line' (ceb_name c) compound.

Definition builder_add_to_line (b : builder) (line : Line) : Line :=
  match b with
  | EB e => add_to_line e line
  | CEB c => add_compound_to_line c line
  end.

(** [MadLoader.add_elements]. *)
Definition add_elements (elements : list builder) (line : Line) : Line :=
  fold_left (fun ln b => builder_add_to_line b ln) elements line.

End Materialization.

(** ** Alignment and aperture transform builders *)

(** [self.Builder(name, type, **attrs)]. *)
Definition Builder_call (with_expr : bool) (name : string) (type : xt_class)
    (attrs : list (string * pyval)) : ElementBuilder :=
  {| eb_name := name; eb_type := type; eb_attrs := attrs;
     eb_with_expr := with_expr |}.

Record Alignment := {
  al_name : string;
  al_tilt : pyval;
  al_dx : pyval;
  al_dy : pyval;
  al_Builder : bool
}.

Definition Alignment_init (mad_el : MadElem) (enable_errors : bool)
    (Builder : bool) (custom_tilt : option pyval) : result Alignment :=
  let! tilt0 := get mad_el "tilt" (Num 0) in
  let! tilt1 := if truthy tilt0 then rad2deg tilt0 else Ok tilt0 in
  let! tilt2 :=
    match custom_tilt with
    | None => Ok tilt1
    | Some c => let! d := rad2deg c in py_add tilt1 d
    end in
  match (if enable_errors then align_errors mad_el else None) with
  | Some ae =>
      let! d := rad2deg (Num (ae_dpsi ae)) in
      let! tilt3 := py_add tilt2 d in
      Ok {| al_name := me_name mad_el; al_tilt := tilt3;
            al_dx := Num (ae_dx ae); al_dy := Num (ae_dy ae);
            al_Builder := Builder |}
  | None =>
      Ok {| al_name := me_name mad_el; al_tilt := tilt2;
            al_dx := Num 0; al_dy := Num 0; al_Builder := Builder |}
  end.

Definition Alignment_entry (a : Alignment) : list ElementBuilder :=
  let out := [] in
  let out :=
    if truthy (al_tilt a)
    then out ++ [Builder_call (al_Builder a) (al_name a +:+ "_tilt_entry")
                   SRotation [("angle", al_tilt a)]]
    else out in
  let out :=
    if truthy (al_dx a) || truthy (al_dy a)
    then out ++ [Builder_call (al_Builder a) (al_name a +:+ "_offset_entry")
                   XYShift [("dx", al_dx a); ("dy", al_dy a)]]
    else out in
  out.

Definition Alignment_exit (a : Alignment) : result (list ElementBuilder) :=
  let out := [] in
  let! out :=
    if truthy (al_dx a) || truthy (al_dy a) then
      let! ndx := py_neg (al_dx a) in
      let! ndy := py_neg (al_dy a) in
      Ok (out ++ [Builder_call (al_Builder a) (al_name a +:+ "_offset_exit")
                    XYShift [("dx", ndx); ("dy", ndy)]])
    else Ok out in
  let! out :=
    if truthy (al_tilt a) then
      let! ntilt := py_neg (al_tilt a) in
      Ok (out ++ [Builder_call (al_Builder a) (al_name a +:+ "_tilt_exit")
                    SRotation [("angle", ntilt)]])
    else Ok out in
  Ok out.

Record Aperture := {
  ap_mad_el : MadElem;
  ap_aper_tilt : pyval;
  ap_name : string;
  ap_dx : pyval;
  ap_dy : pyval;
  ap_apertype : pyval;
  ap_Builder : bool
}.

Definition Aperture_init (mad_el : MadElem) (enable_errors : bool)
    (Builder : bool) : result Aperture :=
  let! t := attr mad_el "aper_tilt" in
  let! aper_tilt := rad2deg t in
  let! aper_offset := attr mad_el "aper_offset" in
  let! dx := py_index aper_offset 0 in
  let! n := py_len aper_offset in
  let! dy := if Nat.ltb 1 n then py_index aper_offset 1 else Ok (Num 0) in
  let! dxy :=
    match (if enable_errors then align_errors mad_el else None) with
    | Some ae =>
        let! dx' := py_add dx (Num (ae_arex ae)) in
        let! dy' := py_add dy (Num (ae_arey ae)) in
        Ok (dx', dy')
    | None => Ok (dx, dy)
    end in
  let! apertype := attr mad_el "apertype" in
  Ok {| ap_mad_el := mad_el; ap_aper_tilt := aper_tilt;
        ap_name := me_name mad_el; ap_dx := fst dxy; ap_dy := snd dxy;
        ap_apertype := apertype; ap_Builder := Builder |}.

Definition Aperture_entry (a : Aperture) : list ElementBuilder :=
  let out := [] in
  let out :=
    if truthy (ap_aper_tilt a)
    then out ++ [Builder_call (ap_Builder a) (ap_name a +:+ "_aper_tilt_entry")
                   SRotation [("angle", ap_aper_tilt a)]]
    else out in
  let out :=
    if truthy (ap_dx a) || truthy (ap_dy a)
    then out ++ [Builder_call (ap_Builder a) (ap_name a +:+ "_aper_offset_entry")
                   XYShift [("dx", ap_dx a); ("dy", ap_dy a)]]
    else out in
  out.

Definition Aperture_exit (a : Aperture) : result (list ElementBuilder) :=
  let out := [] in
  let! out :=
    if truthy (ap_dx a) || truthy (ap_dy a) then
      let! ndx := py_neg (ap_dx a) in
      let! ndy := py_neg (ap_dy a) in
      Ok (out ++ [Builder_call (ap_Builder a) (ap_name a +:+ "_aper_offset_exit")
                    XYShift [("dx", ndx); ("dy", ndy)]])
    else Ok out in
  let! out :=
    if truthy (ap_aper_tilt a) then
      let! ntilt := py_neg (ap_aper_tilt a) in
      Ok (out ++ [Builder_call (ap_Builder a) (ap_name a +:+ "_aper_tilt_exit")
                    SRotation [("angle", ntilt)]])
    else Ok out in
  Ok out.

(** ** The loader *)

(** The options of [MadLoader] after [__init__], the expanded sequence it
    walks, and the builder class currently in use ([self.Builder]). *)
Record MadLoader := {
  sequence_name : string;
  expanded_elements : list cpymad_element;
  enable_expressions : bool;
  enable_field_errors : bool;
  enable_align_errors : bool;
  enable_apertures : bool;
  skip_markers : bool;
  merge_drifts : bool;
  merge_multipoles : bool;
  ignore_madtypes : list string;
  expressions_for_element_types : option (list string);
  allow_thick : bool;
  use_compound_elements : bool;
  name_prefix : option string;
  (** [self.Builder is ElementBuilderWithExpr] *)
  Builder : bool
}.

Definition set_Builder (self : MadLoader) (b : bool) : MadLoader :=
  {| sequence_name := sequence_name self;
     expanded_elements := expanded_elements self;
     enable_expressions := enable_expressions self;
     enable_field_errors := enable_field_errors self;
     enable_align_errors := enable_align_errors self;
     enable_apertures := enable_apertures self;
     skip_markers := skip_markers self;
     merge_drifts := merge_drifts self;
     merge_multipoles := merge_multipoles self;
     ignore_madtypes := ignore_madtypes self;
     expressions_for_element_types := expressions_for_element_types self;
     allow_thick := allow_thick self;
     use_compound_elements := use_compound_elements self;
     name_prefix := name_prefix self;
     Builder := b |}.

(** The outcome of looking a method up by its computed name: a rule
    embedded below, no such method, or a method of the loader that this
    development does not embed. *)
Inductive method (A : Type) :=
| Method (f : A)
| NoMethod
| NotEmbedded.

Arguments Method {A} f.
Arguments NoMethod {A}.
Arguments NotEmbedded {A}.

(** What the loader prints: a notice of a conversion rule, the progress
    display of [make_line] after the element of index [ii] out of [nelem]
    records, and the empty line that ends the display. *)
Inductive output :=
| Notice (text : string)
| Progress (ii nelem : nat)
| EndOfProgress.

(** A computation that may print before it returns or raises. *)
Definition printing (A : Type) : Type := (list output * result A)%type.

Definition quiet {A : Type} (r : result A) : printing A := ([], r).

(** [v[:n]]. *)
Definition py_take (v : pyval) (n : nat) : result (list pyval) :=
  match v with
  | PList l => Ok (firstn n l)
  | Str s => Ok (map (fun c => Str (String c EmptyString))
                   (firstn n (list_ascii_of_string s)))
  | _ => Raise TypeError
  end.

(** [v[start::2]]. *)
Fixpoint every_other {A : Type} (l : list A) : list A :=
  match l with
  | [] => []
  | x :: l' => x :: match l' with [] => [] | _ :: l'' => every_other l'' end
  end.

Definition py_stride2 (v : pyval) (start : nat) : result pyval :=
  match v with
  | PList l => Ok (PList (every_other (skipn start l)))
  | Str s => Ok (Str (string_of_list_ascii
                        (every_other (skipn start (list_ascii_of_string s)))))
  | _ => Raise TypeError
  end.

(** The line feed and the double quote of the message of [make_line]. *)
Definition newline : string := String (ascii_of_nat 10) EmptyString.
Definition dquote : string := String (ascii_of_nat 34) EmptyString.

(** The message of [make_line] for a type without conversion rule. *)
Definition not_supported (type : string) : string :=
  "Element " +:+ type +:+ " not supported," +:+ newline +:+
  "implement " +:+ dquote +:+ "add_" +:+ type +:+ dquote +:+
  " or convert_" +:+ type +:+ " in function in MadLoader".

(** The notice of [convert_solenoid]. *)
Definition thin_solenoid_warning (name : string) : string :=
  "Warning: Thin solenoids are not yet implemented, reverting to importing `"
  +:+ name +:+ "` as a drift.".

Section Loader.

Variable vars : string -> float.

(** [np.tan] on binary64 numbers. *)
Variable np_tan : float -> float.

Definition py_tan (x : pyval) : result pyval :=
  match x with
  | Num v => Ok (Num (np_tan v))
  | _ => Raise TypeError
  end.

Definition convert_rectangle (self : MadLoader) (mad_el : MadElem)
  : result (list ElementBuilder) :=
  let! a := attr mad_el "aperture" in
  let! hv := py_take a 2 in
  match hv with
  | [h; v] =>
      let! nh := py_neg h in
      let! nv := py_neg v in
      Ok [Builder_call (Builder self) (me_name mad_el +:+ "_aper") LimitRect
            [("min_x", nh); ("max_x", h); ("min_y", nv); ("max_y", v)]]
  | _ => Raise (ValueError "not enough values to unpack")
  end.

Definition convert_racetrack (self : MadLoader) (mad_el : MadElem)
  : result (list ElementBuilder) :=
  let! ap := attr mad_el "aperture" in
  let! hvab := py_take ap 4 in
  match hvab with
  | [h; v; a; b] =>
      let! nh := py_neg h in
      let! nv := py_neg v in
      Ok [Builder_call (Builder self) (me_name mad_el +:+ "_aper") LimitRacetrack
            [("min_x", nh); ("max_x", h); ("min_y", nv); ("max_y", v);
             ("a", a); ("b", b)]]
  | _ => Raise (ValueError "not enough values to unpack")
  end.

Definition convert_ellipse (self : MadLoader) (mad_el : MadElem)
  : result (list ElementBuilder) :=
  let! ap := attr mad_el "aperture" in
  let! ab := py_take ap 2 in
  match ab with
  | [a; b] =>
      Ok [Builder_call (Builder self) (me_name mad_el +:+ "_aper") LimitEllipse
            [("a", a); ("b", b)]]
  | _ => Raise (ValueError "not enough values to unpack")
  end.

Definition convert_circle (self : MadLoader) (mad_el : MadElem)
  : result (list ElementBuilder) :=
  let! ap := attr mad_el "aperture" in
  let! a := py_index ap 0 in
  Ok [Builder_call (Builder self) (me_name mad_el +:+ "_aper") LimitEllipse
        [("a", a); ("b", a)]].

Definition convert_rectellipse (self : MadLoader) (mad_el : MadElem)
  : result (list ElementBuilder) :=
  let! ap := attr mad_el "aperture" in
  let! hvab := py_take ap 4 in
  match hvab with
  | [h; v; a; b] =>
      Ok [Builder_call (Builder self) (me_name mad_el +:+ "_aper") LimitRectEllipse
            [("max_x", h); ("max_y", v); ("a", a); ("b", b)]]
  | _ => Raise (ValueError "not enough values to unpack")
  end.

Definition convert_octagon (self : MadLoader) (ee : MadElem)
  : result (list ElementBuilder) :=
  let! ap0 := attr ee "aperture" in
  let! a0 := py_index ap0 0 in
  let! ap1 := attr ee "aperture" in
  let! a1 := py_index ap1 1 in
  let! ap2 := attr ee "aperture" in
  let! a2 := py_index ap2 2 in
  let! ap3 := attr ee "aperture" in
  let! a3 := py_index ap3 3 in
  let! t2 := py_tan a2 in
  let! V1y := py_mul a0 t2 in
  let V1 := (a0, V1y) in
  let! t3 := py_tan a3 in
  let! V2x := py_div a1 t3 in
  let V2 := (V2x, a1) in
  let! nV2x := py_neg (fst V2) in
  let! nV1x := py_neg (fst V1) in
  let! nV1y := py_neg (snd V1) in
  let! nV2y := py_neg (snd V2) in
  Ok [Builder_call (Builder self) (me_name ee +:+ "_aper") LimitPolygon
        [("x_vertices",
          PList [fst V1; fst V2; nV2x; nV1x; nV1x; nV2x; fst V2; fst V1]);
         ("y_vertices",
          PList [snd V1; snd V2; snd V2; snd V1; nV1y; nV2y; nV2y; nV1y])]].

Definition convert_polygon (self : MadLoader) (ee : MadElem)
  : result (list ElementBuilder) :=
  let! vx := attr ee "aper_vx" in
  let! x_vertices := py_stride2 vx 0 in
  let! vy := attr ee "aper_vy" in
  let! y_vertices := py_stride2 vy 1 in
  Ok [Builder_call (Builder self) (me_name ee +:+ "_aper") LimitPolygon
        [("x_vertices", x_vertices); ("y_vertices", y_vertices)]].

Definition convert_drift (self : MadLoader) (mad_elem : MadElem)
  : result (list ElementBuilder) :=
  let! l := attr mad_elem "l" in
  Ok [Builder_call (Builder self) (me_name mad_elem) Drift [("length", l)]].

(** The [convert_<type>] methods of the loader that assemble a compound:
    embedded below, but left out of the aperture lookup, which they call
    back into. *)
Definition compound_converters : list string :=
  ["marker"; "drift_like"; "monitor"; "hmonitor"; "vmonitor"; "collimator";
   "rcollimator"; "elseparator"; "instrument"; "solenoid"].

(** The [convert_<type>] methods of the loader that this development does
    not embed. *)
Definition unembedded_converters : list string :=
  ["quadrupole"; "rbend"; "sbend"; "sextupole"; "octupole"; "multipole";
   "kicker"; "tkicker"; "hkicker"; "vkicker"; "dipedge"; "rfcavity";
   "rfmultipole"; "wire"; "crabcavity"; "beambeam"; "placeholder"; "matrix";
   "srotation"; "xrotation"; "yrotation"; "translation"; "nllens"].

Definition in_list (s : string) (l : list string) : bool :=
  existsb (String.eqb s) l.

(** [getattr(self.loader, "convert_" + apertype, None)], for the aperture
    of an element. *)
Definition aperture_converter (apertype : string)
  : method (MadLoader -> MadElem -> result (list ElementBuilder)) :=
  if String.eqb apertype "rectangle" then Method convert_rectangle
  else if String.eqb apertype "racetrack" then Method convert_racetrack
  else if String.eqb apertype "ellipse" then Method convert_ellipse
  else if String.eqb apertype "circle" then Method convert_circle
  else if String.eqb apertype "rectellipse" then Method convert_rectellipse
  else if String.eqb apertype "octagon" then Method convert_octagon
  else if String.eqb apertype "polygon" then Method convert_polygon
  else if String.eqb apertype "drift" then Method convert_drift
  else if in_list apertype (compound_converters ++ unembedded_converters)
  then NotEmbedded
  else NoMethod.

Definition Aperture_aperture (self : MadLoader) (a : Aperture)
  : result (list ElementBuilder) :=
  let! vx := attr (ap_mad_el a) "aper_vx" in
  let! n := py_len vx in
  if Nat.ltb 2 n then
    let! x_vertices := attr (ap_mad_el a) "aper_vx" in
    let! y_vertices := attr (ap_mad_el a) "aper_vy" in
    Ok [Builder_call (ap_Builder a) (ap_name a +:+ "_aper") LimitPolygon
          [("x_vertices", x_vertices); ("y_vertices", y_vertices)]]
  else
    match ap_apertype a with
    | Str apertype =>
        match aperture_converter apertype with
        | Method conveter => conveter self (ap_mad_el a)
        | NoMethod =>
            Raise (ValueError ("Aperture type `" +:+ apertype +:+ "` not supported"))
        | NotEmbedded => Raise (OutsideModel ("convert_" +:+ apertype))
        end
    | _ => Raise TypeError
    end.

Definition _assert_element_is_thin (self : MadLoader) (mad_el : MadElem)
  : result unit :=
  let! l := attr mad_el "l" in
  if py_ne (value_if_expr vars l) (Num 0) then
    if allow_thick self then
      Raise (NotImplementedError
               ("Cannot load element " +:+ me_name mad_el +:+
                ", as thick elements of type " +:+
                String.concat "/" (get_type_hierarchy mad_el) +:+
                " are not yet supported."))
    else
      Raise (ValueError
               ("Element " +:+ me_name mad_el +:+
                " is thick, but importing thick elements is disabled. " +:+
                "Did you forget to set `allow_thick=True`?"))
  else Ok tt.

Definition make_compound_elem (self : MadLoader) (xtrack_el : list ElementBuilder)
    (mad_el : MadElem) (custom_tilt : option pyval) : result (list builder) :=
  let! align :=
    Alignment_init mad_el (enable_align_errors self) (Builder self) custom_tilt in
  let! with_aperture :=
    if enable_apertures self then has_aperture mad_el else Ok false in
  let! aperture_seq :=
    if with_aperture then
      let! aper := Aperture_init mad_el (enable_align_errors self) (Builder self) in
      let! a := Aperture_aperture self aper in
      let! x := Aperture_exit aper in
      Ok (Aperture_entry aper ++ a ++ x)
    else Ok [] in
  let align_entry := Alignment_entry align in
  let! align_exit := Alignment_exit align in
  let elem_list := aperture_seq ++ align_entry ++ xtrack_el ++ align_exit in
  if negb (use_compound_elements self) then Ok (map EB elem_list)
  else
    let compound :=
      [CEB {| ceb_name := me_name mad_el;
              ceb_core := xtrack_el;
              ceb_entry_transform := align_entry;
              ceb_exit_transform := align_exit;
              ceb_aperture := aperture_seq |}] in
    match elem_list with
    | [e] =>
        let is_drift := xt_class_eqb (eb_type e) Drift in
        if is_drift && String.prefix "drift_" (me_name mad_el)
        then Ok (map EB elem_list)
        else
          let is_marker := xt_class_eqb (eb_type e) Marker in
          if is_marker then Ok (map EB elem_list) else Ok compound
    | _ => Ok compound
    end.

Definition convert_marker (self : MadLoader) (mad_elem : MadElem)
  : printing (list builder) :=
  let el := Builder_call (Builder self) (me_name mad_elem) Marker [] in
  quiet (make_compound_elem self [el] mad_elem None).

Definition convert_drift_like (self : MadLoader) (mad_elem : MadElem)
  : printing (list builder) :=
  quiet (let! l := attr mad_elem "l" in
         let el := Builder_call (Builder self) (me_name mad_elem) Drift
                     [("length", l)] in
         make_compound_elem self [el] mad_elem None).

Definition convert_solenoid (self : MadLoader) (mad_elem : MadElem)
  : printing (list builder) :=
  match attr mad_elem "l" with
  | Raise e => quiet (Raise e)
  | Ok l =>
      if py_eq (get_value vars l) (Num 0) then
        let (printed, r) := convert_drift_like self mad_elem in
        (Notice (thin_solenoid_warning (me_name mad_elem)) :: printed, r)
      else
        quiet (let! l := attr mad_elem "l" in
               let! ks := attr mad_elem "ks" in
               let! ksi := attr mad_elem "ksi" in
               let el := Builder_call (Builder self) (me_name mad_elem) Solenoid
                           [("length", l); ("ks", ks); ("ksi", ksi)] in
               make_compound_elem self [el] mad_elem None)
  end.

(** [getattr(self, "convert_" + type, None)]. *)
Definition converter (type : string)
  : method (MadLoader -> MadElem -> printing (list builder)) :=
  let plain f :=
    Method (fun self el => quiet (let! bs := f self el in Ok (map EB bs))) in
  if String.eqb type "drift" then plain convert_drift
  else if String.eqb type "marker" then Method convert_marker
  else if in_list type ["drift_like"; "monitor"; "hmonitor"; "vmonitor";
                        "collimator"; "rcollimator"; "elseparator"; "instrument"]
  then Method convert_drift_like
  else if String.eqb type "solenoid" then Method convert_solenoid
  else if String.eqb type "rectangle" then plain convert_rectangle
  else if String.eqb type "racetrack" then plain convert_racetrack
  else if String.eqb type "ellipse" then plain convert_ellipse
  else if String.eqb type "circle" then plain convert_circle
  else if String.eqb type "rectellipse" then plain convert_rectellipse
  else if String.eqb type "octagon" then plain convert_octagon
  else if String.eqb type "polygon" then plain convert_polygon
  else if in_list type unembedded_converters then NotEmbedded
  else NoMethod.

(** [getattr(self, "add_" + type, None)]: the loader has the one method
    [add_elements]. *)
Definition adder (type : string)
  : method (MadLoader -> MadElem -> Line -> printing Line) :=
  if String.eqb type "elements" then NotEmbedded else NoMethod.

(** The pending slot and the objects [iter_elements] yields: a view, or the
    sentinel class [Dummy] ([None] here), whose [type] is ["None"]. *)
Definition slot_type (s : option MadElem) : string :=
  match s with
  | Some m => me_type m
  | None => "None"
  end.

(** One round of the loop of [iter_elements]: the views it yields and the
    pending slot afterwards. *)
Definition iter_step (self : MadLoader) (madeval : bool)
    (last_element : option MadElem) (el : cpymad_element)
  : result (list (option MadElem) * option MadElem) :=
  let! madelem := MadElem_init (el_name el) el madeval (name_prefix self) in
  let! skipped :=
    if skip_markers self then is_empty_marker madelem else Ok false in
  if skipped then Ok ([], last_element)
  else if merge_drifts self
          && String.eqb (slot_type last_element) "drift"
          && String.eqb (me_type madelem) "drift"
  then
    match last_element with
    | Some last =>
        let! l := attr last "l" in
        let! dl := raw_attr el "l" in
        let! l' := py_add l dl in
        Ok ([], Some (setattr last "l" l'))
    | None => Raise (AttributeError "l")
    end
  else if merge_multipoles self
          && String.eqb (slot_type last_element) "multipole"
          && String.eqb (me_type madelem) "multipole"
  then
    match last_element with
    | Some last =>
        let! r := merge_multipole last madelem in
        if fst r then Ok ([], Some (snd r))
        else Ok ([Some (snd r)], Some madelem)
    | None => Raise (AttributeError "merge_multipole")
    end
  else if in_list (me_type madelem) (ignore_madtypes self)
  then Ok ([], last_element)
  else
    Ok (match last_element with Some _ => [last_element] | None => [] end,
        Some madelem).

(** The loop and the final [yield last_element].  The result is the
    sequence of yielded objects and the exception, if any, raised after
    them. *)
Fixpoint iter_loop (self : MadLoader) (madeval : bool)
    (last_element : option MadElem) (els : list cpymad_element)
  : list (option MadElem) * option exn :=
  match els with
  | [] => ([last_element], None)
  | el :: rest =>
      match iter_step self madeval last_element el with
      | Raise e => ([], Some e)
      | Ok (ys, last_element') =>
          let (out, err) := iter_loop self madeval last_element' rest in
          (ys ++ out, err)
      end
  end.

Definition iter_elements (self : MadLoader) (madeval : bool)
  : list (option MadElem) * option exn :=
  match expanded_elements self with
  | [] =>
      ([], Some (ValueError (sequence_name self +:+
                             " has no elements, please do " +:+
                             sequence_name self +:+ ".use()")))
  | els => iter_loop self madeval None els
  end.

(** The body of the loop of [make_line] for one yielded object, up to the
    progress display. *)
Definition convert_element (self : MadLoader) (madeval : bool) (line : Line)
    (el : option MadElem) : printing (MadLoader * Line) :=
  let type := slot_type el in
  let converter := converter type in
  let adder := adder type in
  let '(self, el) :=
    match expressions_for_element_types self with
    | Some types =>
        if in_list type types
        then (set_Builder self true,
              option_map (fun m => set_madeval m madeval) el)
        else (set_Builder self false,
              option_map (fun m => set_madeval m false) el)
    | None => (self, el)
    end in
  match adder with
  | Method add =>
      match el with
      | Some m => let (printed, r) := add self m line in
                  (printed, let! line' := r in Ok (self, line'))
      | None => quiet (Raise (AttributeError "name"))
      end
  | NotEmbedded => quiet (Raise (OutsideModel ("add_" +:+ type)))
  | NoMethod =>
      match converter with
      | Method convert =>
          match el with
          | Some m =>
              let (printed, r) := convert self m in
              (printed,
               let! converted_el := r in
               Ok (self, add_elements vars converted_el line))
          | None => quiet (Raise (AttributeError "name"))
          end
      | NotEmbedded => quiet (Raise (OutsideModel ("convert_" +:+ type)))
      | NoMethod =>
          quiet (Raise (ValueError (not_supported type)))
      end
  end.

(** The loop of [make_line] over the yielded objects, from index [ii]: the
    progress is displayed after every hundredth element. *)
Fixpoint convert_elements (self : MadLoader) (madeval : bool) (nelem : nat)
    (line : Line) (ii : nat) (els : list (option MadElem))
  : printing (MadLoader * Line) :=
  match els with
  | [] => quiet (Ok (self, line))
  | el :: rest =>
      match convert_element self madeval line el with
      | (printed, Raise e) => (printed, Raise e)
      | (printed, Ok (self', line')) =>
          let progress :=
            if Nat.eqb (ii mod 100) 0 then [Progress ii nelem] else [] in
          let (printed', r) :=
            convert_elements self' madeval nelem line' (S ii) rest in
          (printed ++ progress ++ printed', r)
      end
  end.

(** [make_line]: what is printed, and the line returned or the exception
    raised. *)
Definition make_line (self : MadLoader) : printing Line :=
  let madeval := enable_expressions self in
  let self := set_Builder self madeval in
  let nelem := length (expanded_elements self) in
  let (els, err) := iter_elements self madeval in
  match convert_elements self madeval nelem Line_new 0 els with
  | (printed, Raise e) => (printed, Raise e)
  | (printed, Ok (_, line)) =>
      match err with
      | Some e => (printed, Raise e)
      | None => (printed ++ [EndOfProgress], Ok line)
      end
  end.

End Loader.

(** * Notions used in the statements *)

(** ** Well-formed lines *)

(** The names of a line are pairwise distinct and are exactly the keys of
    its dictionary. *)
Definition line_wf (line : Line) : Prop :=
  NoDup (element_names line) /\
  forall n : string, n ∈ element_names line <-> is_Some (element_dict line !! n).

(** What an insertion may do to a line: keep it well formed, add names at
    the end, keep every entry. *)
Definition grows (line line' : Line) : Prop :=
  (line_wf line -> line_wf line') /\
  element_names line `prefix_of` element_names line' /\
  element_dict line ⊆ element_dict line'.

(** ** Policies of the iteration *)

(** A record that the loop drops while the pending slot holds the
    sentinel: an empty marker when those are skipped, or a record whose
    type is in the ignore list. *)
Definition discarded (self : MadLoader) (madeval : bool) (el : cpymad_element)
  : bool :=
  match MadElem_init (el_name el) el madeval (name_prefix self) with
  | Ok m =>
      match (if skip_markers self then is_empty_marker m else Ok false) with
      | Ok true => true
      | Ok false => in_list (me_type m) (ignore_madtypes self)
      | Raise _ => false
      end
  | Raise _ => false
  end.

(** What flushing the pending slot yields in the loop: nothing for the
    sentinel. *)
Definition flush (last_element : option MadElem) : list (option MadElem) :=
  match last_element with
  | Some _ => [last_element]
  | None => []
  end.



(** The records of type [drift] and their lengths, in order. *)
Definition is_drift (el : cpymad_element) : bool :=
  String.eqb (el_base_type el) "drift".


(** The name a view gets under the prefix option. *)
Definition prefixed (name_prefix : option string) (name : string) : string :=
  match name_prefix with
  | None => name
  | Some p => p +:+ name
  end.

(** The view [MadElem] builds for a record that it accepts. *)
Definition view_of (self : MadLoader) (madeval : bool) (el : cpymad_element)
  : MadElem :=
  {| me_name := prefixed (name_prefix self) (el_name el);
     me_elem := el;
     me_madeval := madeval;
     me_field_errors := el_field_errors el;
     me_dict := [] |}.



(** ** Aperture parameters of a record *)

(** The array parameter [k] of a record: [Some None] when the record has
    no parameter [k], [Some (Some value)] when it has the array [value],
    and [None] when its parameter [k] is not an array. *)
Definition array_parameter (el : cpymad_element) (k : string)
  : option (option (list float)) :=
  match assoc k (el_cmdpar el) with
  | None => Some None
  | Some (ParList value _) => Some (Some value)
  | Some _ => None
  end.

(** A non-trivial aperture shape array: the first entry is not zero, or
    the array has more than one entry. *)
Definition nontrivial_shape (aperture : option (list float)) : bool :=
  match aperture with
  | Some (a0 :: rest) => negb (a0 =? 0)%float || Nat.ltb 1 (length (a0 :: rest))
  | _ => false
  end.

(** More than two polygon vertices. *)
Definition polygon_given (aper_vx : option (list float)) : bool :=
  match aper_vx with
  | Some vx => Nat.ltb 2 (length vx)
  | None => false
  end.

(** ** Compounds *)





(** ** Notices *)


(** ** Geometric transforms *)

(** The transform a builder of class [SRotation] or [XYShift] stands for:
    its parameters, the name left out. *)
Inductive transform :=
| Rotation (angle : pyval)
| Shift (dx dy : pyval).

Definition transform_of (b : ElementBuilder) : option transform :=
  match eb_type b, eb_attrs b with
  | SRotation, [(k, angle)] =>
      if String.eqb k "angle" then Some (Rotation angle) else None
  | XYShift, [(k1, dx); (k2, dy)] =>
      if String.eqb k1 "dx" && String.eqb k2 "dy" then Some (Shift dx dy) else None
  | _, _ => None
  end.

(** The transform with every parameter negated. *)
Definition inverse (t : transform) : result transform :=
  match t with
  | Rotation angle => let! a := py_neg angle in Ok (Rotation a)
  | Shift dx dy =>
      let! x := py_neg dx in
      let! y := py_neg dy in
      Ok (Shift x y)
  end.

Definition inverse_of (b : ElementBuilder) : option transform :=
  match transform_of b with
  | Some t => match inverse t with Ok t' => Some t' | Raise _ => None end
  | None => None
  end.

(** The maps of the element classes [SRotation] and [XYShift] are not part
    of the loader: they are parameters here, acting on some space of
    points. *)
Section Geometry.

Variable point : Type.
Variable rotate : pyval -> point -> point.
Variable shift : pyval -> pyval -> point -> point.

Definition track_one (p : point) (b : ElementBuilder) : point :=
  match transform_of b with
  | Some (Rotation angle) => rotate angle p
  | Some (Shift dx dy) => shift dx dy p
  | None => p
  end.

(** The elements of a list of builders, applied in order. *)
Definition track (bs : list ElementBuilder) (p : point) : point :=
  fold_left track_one bs p.

End Geometry.

(** ** Polygons *)

(** The vertices of a polygon builder. *)
Definition polygon_vertices (b : ElementBuilder) : list (pyval * pyval) :=
  match assoc "x_vertices" (eb_attrs b), assoc "y_vertices" (eb_attrs b) with
  | Some (PList xs), Some (PList ys) => combine xs ys
  | _, _ => []
  end.

(** * Sample records

    Concrete source records and loaders, used to run the definitions. *)

(** The variable table before any variable is set: the default factory
    gives [0.] for every name. *)
Definition no_vars : string -> float := fun _ => 0%float.

(** A truncated series standing in for [np.tan] where a closed term is
    needed. *)
Definition tan_series (x : float) : float :=
  (x + x * x * x / 3 + 2 * x * x * x * x * x / 15)%float.

(** The permanent-misalignment parameters every record carries, all zero. *)
Definition no_misalignment : list (string * cmd_parameter) :=
  [("dphi", ParNum 0 None); ("dtheta", ParNum 0 None); ("dpsi", ParNum 0 None);
   ("dx", ParNum 0 None); ("dy", ParNum 0 None); ("ds", ParNum 0 None)].

Definition sample_record (name type : string)
    (pars : list (string * cmd_parameter)) : cpymad_element :=
  {| el_name := name; el_parents := [type]; el_base_type := type;
     el_cmdpar := pars ++ no_misalignment;
     el_field_errors := None; el_align_errors := None |}.

Definition sample_view (name type : string)
    (pars : list (string * cmd_parameter)) : MadElem :=
  {| me_name := name; me_elem := sample_record name type pars;
     me_madeval := false; me_field_errors := None; me_dict := [] |}.

(** The aperture parameters of a record without aperture. *)
Definition no_aperture : list (string * cmd_parameter) :=
  [("aperture", ParList [0%float] [None]);
   ("aper_offset", ParList [0%float] [None]);
   ("aper_tilt", ParNum 0 None);
   ("aper_vx", ParList [(-1)%float] [None]);
   ("aper_vy", ParList [(-1)%float] [None]);
   ("apertype", ParStr "circle")].

(** A loader with the default options. *)
Definition default_loader (els : list cpymad_element) : MadLoader :=
  {| sequence_name := "seq"; expanded_elements := els;
     enable_expressions := false; enable_field_errors := false;
     enable_align_errors := false; enable_apertures := false;
     skip_markers := false; merge_drifts := false; merge_multipoles := false;
     ignore_madtypes := []; expressions_for_element_types := None;
     allow_thick := false; use_compound_elements := true;
     name_prefix := None; Builder := false |}.

Definition set_merge_drifts (self : MadLoader) (ignore : list string) : MadLoader :=
  {| sequence_name := sequence_name self;
     expanded_elements := expanded_elements self;
     enable_expressions := enable_expressions self;
     enable_field_errors := enable_field_errors self;
     enable_align_errors := enable_align_errors self;
     enable_apertures := enable_apertures self;
     skip_markers := skip_markers self;
     merge_drifts := true;
     merge_multipoles := merge_multipoles self;
     ignore_madtypes := ignore;
     expressions_for_element_types := expressions_for_element_types self;
     allow_thick := allow_thick self;
     use_compound_elements := use_compound_elements self;
     name_prefix := name_prefix self;
     Builder := Builder self |}.

(** Two thin multipoles with the same aperture, tilt and angle. *)
Definition sample_multipole (name : string) (knl ksl : list float) : MadElem :=
  sample_view name "multipole"
    ([("knl", ParList knl (map (fun _ => None) knl));
      ("ksl", ParList ksl (map (fun _ => None) ksl));
      ("tilt", ParNum 0 None); ("angle", ParNum 0 None);
      ("l", ParNum 0 None); ("lrad", ParNum 0 None)] ++ no_aperture).

(** A drift builder, for running insertions. *)
Definition sample_drift (name : string) (l : float) : builder :=
  EB (Builder_call false name Drift [("length", Num l)]).

(** A loader that skips empty markers. *)
Definition skipping_loader (els : list cpymad_element) : MadLoader :=
  {| sequence_name := "seq"; expanded_elements := els;
     enable_expressions := false; enable_field_errors := false;
     enable_align_errors := false; enable_apertures := false;
     skip_markers := true; merge_drifts := false; merge_multipoles := false;
     ignore_madtypes := ["monitor"]; expressions_for_element_types := None;
     allow_thick := false; use_compound_elements := true;
     name_prefix := None; Builder := false |}.

Definition sample_drift_record (name : string) (l : float) : cpymad_element :=
  sample_record name "drift" [("l", ParNum l None)].

(** A variable table in which [ld] is 1.0. *)
Definition sample_vars : string -> float :=
  fun name => if String.eqb name "ld" then 1%float else 0%float.

(** A loader with expressions enabled, drifts merged and empty markers
    skipped. *)
Definition merging_loader (els : list cpymad_element) : MadLoader :=
  {| sequence_name := "seq"; expanded_elements := els;
     enable_expressions := true; enable_field_errors := false;
     enable_align_errors := false; enable_apertures := false;
     skip_markers := true; merge_drifts := true; merge_multipoles := false;
     ignore_madtypes := []; expressions_for_element_types := None;
     allow_thick := false; use_compound_elements := true;
     name_prefix := None; Builder := false |}.



(** Three consecutive drifts of lengths 1.0, 2.0 and 0.5. *)
Definition three_drifts : list cpymad_element :=
  [sample_drift_record "d1" 1; sample_drift_record "d2" 2;
   sample_drift_record "d3" 0.5].




(** A record with the octagon aperture of half-widths 0.05 and 0.04 and
    angles 0.3 and 0.4. *)
Definition sample_octagon : MadElem :=
  sample_view "mb" "sbend"
    [("aperture", ParList [0.05; 0.04; 0.3; 0.4]%float [None; None; None; None]);
     ("apertype", ParStr "octagon")].

(** A model of the two maps on the transverse plane: the rotation by an
    angle given in degrees and the translation, with a binary64 number
    read as the real number it denotes. *)
Definition SF2R (s : spec_float) : R :=
  match s with
  | S754_finite sign m e =>
      ((if sign then -1 else 1) * IZR (Z.pos m) * powerRZ 2 e)%R
  | _ => 0%R
  end.

Definition float_to_R (x : float) : R := SF2R (Prim2SF x).

Definition real_of (v : pyval) : R :=
  match v with
  | Num x => float_to_R x
  | _ => 0%R
  end.

Definition plane_rotate (angle : pyval) (p : R * R) : R * R :=
  let t := (real_of angle * PI / 180)%R in
  ((fst p * cos t + snd p * sin t)%R, (- fst p * sin t + snd p * cos t)%R).

Definition plane_shift (dx dy : pyval) (p : R * R) : R * R :=
  ((fst p - real_of dx)%R, (snd p - real_of dy)%R).

(** * Further functions of the loader *)

(** ** Generic functions *)

(** The loop of [non_zero_len] over the reversed list, at index [ii]. *)
Fixpoint non_zero_len_from (len : nat) (reversed : list pyval) (ii : nat) : nat :=
  match reversed with
  | [] => 0
  | x :: rest => if truthy x then len - ii else non_zero_len_from len rest (S ii)
  end.

Definition non_zero_len (lst : list pyval) : nat :=
  non_zero_len_from (length lst) (rev lst) 0.

(** The loop of [trim_trailing_zeros], which runs down from the last index
    to index 1: [ii] is the index looked at. *)
Fixpoint trim_from (lst : list pyval) (ii : nat) : result (list pyval) :=
  match ii with
  | O => Ok []
  | S ii' =>
      let! x := py_index (PList lst) ii in
      if py_ne x (Num 0) then Ok (firstn (ii + 1) lst) else trim_from lst ii'
  end.

Definition trim_trailing_zeros (lst : list pyval) : result (list pyval) :=
  trim_from lst (length lst - 1).

(** [get_value] on every object it is written for.  Beside the parameter
    values, the attribute of a builder can be [None], a tuple, an array
    ([np.ndarray]: the rule for matrix elements builds arrays of numbers
    and nodes; an array is given here by the list of its entries in index
    order) or a dictionary (the list of its items). *)
Inductive cell :=
| CNum (x : float)
| CNode (e : expr).

Inductive pyobj :=
| ONone
| ONum (x : float)
| ONode (e : expr)
| OStr (s : string)
| OList (l : list pyobj)
| OTuple (l : list pyobj)
| OArray (entries : list cell)
| ODict (items : list (string * pyobj)).

(** A tuple comes back as a list.  The branch for arrays fills a new array
    with the values of the entries and has no [return]: its result is
    [None]. *)
Fixpoint get_value_full (vars : string -> float) (x : pyobj) : pyobj :=
  match x with
  | ONode e => ONum (expr_value vars e)
  | OList l | OTuple l => OList (map (get_value_full vars) l)
  | OArray _ => ONone
  | ODict items =>
      ODict (map (fun kv => (fst kv, get_value_full vars (snd kv))) items)
  | _ => x
  end.

(** A parameter value as an object. *)
Fixpoint pyobj_of (x : pyval) : pyobj :=
  match x with
  | Num x => ONum x
  | Expr e => ONode e
  | Str s => OStr s
  | PList l => OList (map pyobj_of l)
  end.

(** An object that holds no node, no tuple and no array. *)
Fixpoint settled (x : pyobj) : bool :=
  match x with
  | ONode _ | OTuple _ | OArray _ => false
  | OList l => forallb settled l
  | ODict items => forallb (fun kv => settled (snd kv)) items
  | _ => true
  end.

(** ** Notions used in the further statements *)

(** A value without expression node. *)
Fixpoint expr_free (x : pyval) : bool :=
  match x with
  | Expr _ => false
  | PList l => forallb expr_free l
  | _ => true
  end.

(** A value that is a number or an expression node. *)
Definition scalar (x : pyval) : Prop := is_Some (to_expr x).

(** A parameter whose formulas, where it has any, evaluate to the values
    stored with them. *)
Definition par_consistent (vars : string -> float) (p : cmd_parameter) : Prop :=
  match p with
  | ParNum v e => forall e', e = Some e' -> expr_value vars e' = v
  | ParList v e =>
      Forall2 (fun x ex => forall e', ex = Some e' -> expr_value vars e' = x) v e
  | ParStr _ => True
  end.

(** The six permanent-misalignment parameters [MadElem] looks at. *)
Definition misalignments : list string :=
  ["dphi"; "dtheta"; "dpsi"; "dx"; "dy"; "ds"].

(** ** Further sample records *)

(** A quadrupole record whose length is given by the formula [ld] and
    whose strengths are a list with one formula. *)
Definition sample_formulas : MadElem :=
  sample_view "mq" "quadrupole"
    [("l", ParNum 1 (Some (EVar "ld")));
     ("knl", ParList [0; 1]%float [None; Some (EVar "ld")])].

(** A multipole with field errors. *)
Definition sample_multipole_errors (name : string) (d s : list float) : MadElem :=
  {| me_name := name;
     me_elem := me_elem (sample_multipole name [0; 1]%float [0; 0]%float);
     me_madeval := false;
     me_field_errors := Some {| dkn := d; dks := s |};
     me_dict := [] |}.

(** A record with a polygon aperture given by three numbers per array. *)
Definition sample_polygon : MadElem :=
  sample_view "tcp" "collimator"
    [("aper_vx", ParList [1; 10; 2]%float [None; None; None]);
     ("aper_vy", ParList [20; 3; 30]%float [None; None; None]);
     ("apertype", ParStr "polygon")].

(** The element builders a builder stands for, in the order of the line:
    for a compound, its aperture, entry transforms, core and exit
    transforms (the two markers it adds around them left out). *)
Definition components (b : builder) : list ElementBuilder :=
  match b with
  | EB e => [e]
  | CEB c =>
      ceb_aperture c ++ ceb_entry_transform c ++ ceb_core c ++ ceb_exit_transform c
  end.

(** The number of elements a builder adds to a line. *)
Definition n_elements (b : builder) : nat :=
  match b with
  | EB _ => 1
  | CEB c => 2 + length (components b)
  end.

(** ** The objects of the iteration *)

(** What a generator over views yields at least: the sentinel when there
    is no view. *)
Definition yield_all (views : list MadElem) : list (option MadElem) :=
  match views with
  | [] => [None]
  | _ => map Some views
  end.

(** The pending slot as a list of views. *)
Definition pending (last_element : option MadElem) : list MadElem :=
  match last_element with
  | Some m => [m]
  | None => []
  end.

(** A record whose type is not in the ignore list. *)
Definition kept (self : MadLoader) (el : cpymad_element) : bool :=
  negb (in_list (el_base_type el) (ignore_madtypes self)).

(** A record that [MadElem] accepts: a translation, or a record without
    permanent misalignment. *)
Definition aligned (el : cpymad_element) : Prop :=
  el_base_type el = "translation" \/ raw_any el misalignments = Ok false.

(** A yielded object that the policies of a loader allow: the sentinel, or
    the view of a record of the sequence whose type is not ignored and
    which, when empty markers are skipped, is not an empty marker. *)
Definition allowed (self : MadLoader) (y : option MadElem) : Prop :=
  match y with
  | None => True
  | Some m =>
      In (me_elem m) (expanded_elements self) /\
      in_list (me_type m) (ignore_madtypes self) = false /\
      (skip_markers self = true -> is_empty_marker m = Ok false)
  end.

(** A progress report that is in range: after an element whose index is a
    multiple of one hundred and less than the number of records. *)
Definition in_range (nelem : nat) (o : output) : Prop :=
  match o with
  | Progress ii n => n = nelem /\ ii < nelem /\ ii mod 100 = 0
  | _ => True
  end.

Definition is_notice (o : output) : Prop :=
  match o with
  | Notice _ => True
  | _ => False
  end.

(** ** Construction of the loader *)

(** The arguments of [MadLoader.__init__]; an argument left at [None] is
    [None] here. *)
Record MadLoader_args := {
  arg_sequence_name : string;
  arg_expanded_elements : list cpymad_element;
  arg_enable_expressions : bool;
  arg_enable_errors : option bool;
  arg_enable_field_errors : option bool;
  arg_enable_align_errors : option bool;
  arg_enable_apertures : bool;
  arg_skip_markers : bool;
  arg_merge_drifts : bool;
  arg_merge_multipoles : bool;
  arg_ignore_madtypes : list string;
  arg_expressions_for_element_types : option (list string);
  arg_allow_thick : bool;
  arg_use_compound_elements : bool;
  arg_name_prefix : option string
}.

(** What the constructor does: it returns a loader, raises, or fails its
    assertion. *)
Inductive construction :=
| Constructed (self : MadLoader)
| Refused (e : exn)
| AssertionFailed (msg : string).

(** [MadLoader.__init__].  The attribute [Builder] is not set by the
    constructor; [make_line] sets it before it reads it, and it stands at
    the plain builder class here. *)
Definition MadLoader_init (args : MadLoader_args) : construction :=
  let enable_field_errors := arg_enable_field_errors args in
  let enable_align_errors := arg_enable_align_errors args in
  let '(enable_field_errors, enable_align_errors) :=
    match arg_enable_errors args with
    | Some enable_errors =>
        (match enable_field_errors with
         | None => Some enable_errors
         | Some _ => enable_field_errors
         end,
         match enable_align_errors with
         | None => Some enable_errors
         | Some _ => enable_align_errors
         end)
    | None => (enable_field_errors, enable_align_errors)
    end in
  let enable_field_errors :=
    match enable_field_errors with None => false | Some b => b end in
  let enable_align_errors :=
    match enable_align_errors with None => false | Some b => b end in
  if arg_allow_thick args && enable_field_errors then
    Refused (NotImplementedError
               "Field errors are not yet supported for thick elements")
  else if match arg_expressions_for_element_types args with
          | Some _ => negb (arg_enable_expressions args)
          | None => false
          end
  then AssertionFailed
         "Expressions must be enabled if `expressions_for_element_types` is not None"
  else
    Constructed
      {| sequence_name := arg_sequence_name args;
         expanded_elements := arg_expanded_elements args;
         enable_expressions := arg_enable_expressions args;
         enable_field_errors := enable_field_errors;
         enable_align_errors := enable_align_errors;
         enable_apertures := arg_enable_apertures args;
         skip_markers := arg_skip_markers args;
         merge_drifts := arg_merge_drifts args;
         merge_multipoles := arg_merge_multipoles args;
         ignore_madtypes := arg_ignore_madtypes args;
         expressions_for_element_types := arg_expressions_for_element_types args;
         allow_thick := arg_allow_thick args;
         use_compound_elements := arg_use_compound_elements args;
         name_prefix := arg_name_prefix args;
         Builder := false |}.

(** ** The rule for translations *)

(** [convert_translation]: the transverse shift is built from the
    displacements of the record, which are then set to zero on the view. *)
Definition convert_translation (np_tan : float -> float) (self : MadLoader)
    (ee : MadElem) : result (list builder) :=
  let! dx := attr ee "dx" in
  let! dy := attr ee "dy" in
  let el_transverse :=
    Builder_call (Builder self) (me_name ee) XYShift [("dx", dx); ("dy", dy)] in
  let! ds := attr ee "ds" in
  if truthy ds then Raise (NotImplementedError "")
  else
    let ee := setattr ee "dx" (Num 0) in
    let ee := setattr ee "dy" (Num 0) in
    let ee := setattr ee "ds" (Num 0) in
    make_compound_elem np_tan self [el_transverse] ee None.

(** A translation record displaced by [dx] and, along the line, by [ds]. *)
Definition sample_translation (dx ds : float) : cpymad_element :=
  sample_record "tr" "translation"
    [("dx", ParNum dx None); ("dy", ParNum 0 None); ("ds", ParNum ds None)].

(** ** Runs of multipoles *)

(** The pending multipole after each view of a run has been merged into
    it, when every merge is accepted. *)
Fixpoint merged (p : MadElem) (others : list MadElem) : option MadElem :=
  match others with
  | [] => Some p
  | m :: rest =>
      match merge_multipole p m with
      | Ok (true, p') => merged p' rest
      | _ => None
      end
  end.

(** A multipole record that [MadElem] accepts. *)
Definition multipole_record (el : cpymad_element) : Prop :=
  el_base_type el = "multipole" /\ aligned el.

(** A loader that merges multipoles. *)
Definition set_merge_multipoles (self : MadLoader) : MadLoader :=
  {| sequence_name := sequence_name self;
     expanded_elements := expanded_elements self;
     enable_expressions := enable_expressions self;
     enable_field_errors := enable_field_errors self;
     enable_align_errors := enable_align_errors self;
     enable_apertures := enable_apertures self;
     skip_markers := skip_markers self;
     merge_drifts := merge_drifts self;
     merge_multipoles := true;
     ignore_madtypes := ignore_madtypes self;
     expressions_for_element_types := expressions_for_element_types self;
     allow_thick := allow_thick self;
     use_compound_elements := use_compound_elements self;
     name_prefix := name_prefix self;
     Builder := Builder self |}.

(** Three thin multipoles with the same aperture, tilt and angle. *)
Definition three_multipoles : list cpymad_element :=
  [me_elem (sample_multipole "mp1" [1; 2]%float [0; 0]%float);
   me_elem (sample_multipole "mp2" [3; 4]%float [5]%float);
   me_elem (sample_multipole "mp3" [6]%float [7]%float)].

(** ** Conversion of the yielded objects *)

(** A yielded object for which the loader has a conversion rule. *)
Definition convertible (vars : string -> float) (np_tan : float -> float)
    (y : option MadElem) : Prop :=
  exists m f, y = Some m /\ converter vars np_tan (me_type m) = Method f.

(** A view that converts to one element of its own: a drift with a length,
    or a marker whose tilt, if it has one, is zero. *)
Definition plain_view (m : MadElem) : Prop :=
  (me_type m = "drift" /\ exists lv, attr m "l" = Ok lv) \/
  (me_type m = "marker" /\
   exists t, get m "tilt" (Num 0) = Ok t /\ truthy t = false).

(** The builder of such a view. *)
Definition direct_builder (B : bool) (m : MadElem) : ElementBuilder :=
  if String.eqb (me_type m) "drift"
  then Builder_call B (me_name m) Drift
         [("length", match attr m "l" with Ok v => v | Raise _ => Num 0 end)]
  else Builder_call B (me_name m) Marker [].

(** A drift, a marker and a second drift with the name of the first. *)
Definition drifts_and_marker : list cpymad_element :=
  [sample_drift_record "d" 1;
   sample_record "ip" "marker" [("tilt", ParNum 0 None)];
   sample_drift_record "d" 2].

(** ** The rule for rotations about the axis of the line *)

Definition convert_srotation (np_tan : float -> float) (self : MadLoader)
    (ee : MadElem) : result (list builder) :=
  let! a := attr ee "angle" in
  let! a180 := py_mul a (Num 180) in
  let! angle := py_div a180 (Num np_pi) in
  let el := Builder_call (Builder self) (me_name ee) SRotation [("angle", angle)] in
  make_compound_elem np_tan self [el] ee None.

(** A solenoid record of length 0.5. *)
Definition thick_solenoid : MadElem :=
  sample_view "sol" "solenoid"
    ([("l", ParNum 0.5 None); ("ks", ParNum 0.2 None); ("ksi", ParNum 0 None)]
     ++ no_aperture).

(** A rotation record of angle 0.1. *)
Definition sample_srotation : MadElem :=
  sample_view "rot" "srotation" [("angle", ParNum 0.1 None)].

(** The element classes for apertures. *)
Definition is_limit (c : xt_class) : bool :=
  match c with
  | LimitPolygon | LimitRect | LimitRacetrack | LimitEllipse | LimitRectEllipse =>
      true
  | _ => false
  end.

(** A bend with the octagon aperture of [sample_octagon], no offset and no
    tilt of the aperture. *)
Definition sample_aperture_view : MadElem :=
  sample_view "mb" "sbend"
    [("aperture", ParList [0.05; 0.04; 0.3; 0.4]%float [None; None; None; None]);
     ("aper_offset", ParList [0]%float [None]);
     ("aper_tilt", ParNum 0 None);
     ("aper_vx", ParList [(-1)]%float [None]);
     ("aper_vy", ParList [(-1)]%float [None]);
     ("apertype", ParStr "octagon")].

(** The names that a view answers by itself, before [__getattr__] is
    asked: the attributes set by the constructor, the methods and the
    properties of [MadElem]. *)
Definition MadElem_attributes : list string :=
  ["name"; "elem"; "sequence"; "madeval"; "field_errors";
   "get_type_hierarchy"; "phase_errors"; "align_errors"; "type"; "slot_id";
   "get"; "has_aperture"; "is_empty_marker"; "same_aperture"; "merge_multipole"].

(** A key that can only name a parameter: none of the above, and not one
    of the names with two leading underscores that every object has. *)
Definition parameter_name (k : string) : Prop :=
  in_list k MadElem_attributes = false /\ String.prefix "__" k = false.

(** A loader with expressions enabled for the element types [types]
    only. *)
Definition selecting_loader (types : list string) (els : list cpymad_element)
  : MadLoader :=
  {| sequence_name := "seq"; expanded_elements := els;
     enable_expressions := true; enable_field_errors := false;
     enable_align_errors := false; enable_apertures := false;
     skip_markers := false; merge_drifts := false; merge_multipoles := false;
     ignore_madtypes := []; expressions_for_element_types := Some types;
     allow_thick := false; use_compound_elements := true;
     name_prefix := None; Builder := true |}.

(** A drift whose length is given by the formula [ld]. *)
Definition formula_drift : MadElem :=
  {| me_name := "d1";
     me_elem := sample_record "d1" "drift" [("l", ParNum 1 (Some (EVar "ld")))];
     me_madeval := true; me_field_errors := None; me_dict := [] |}.

(** ** Alignment in numbers *)

(** An angle in radians, in degrees. *)
Definition degrees (x : float) : float := (x * 180 / np_pi)%float.

(** A quadrupole record tilted by 0.01 radian, with an alignment error of
    one millimetre and a roll error of 0.002 radian. *)
Definition misaligned_view : MadElem :=
  {| me_name := "mq";
     me_elem :=
       {| el_name := "mq"; el_parents := ["quadrupole"];
          el_base_type := "quadrupole";
          el_cmdpar := ("tilt", ParNum 0.01 None) :: no_misalignment;
          el_field_errors := None;
          el_align_errors :=
            Some {| ae_dx := 0.001; ae_dy := 0; ae_ds := 0;
                    ae_dphi := 0; ae_dtheta := 0; ae_dpsi := 0.002;
                    ae_mrex := 0; ae_mrey := 0; ae_mredx := 0; ae_mredy := 0;
                    ae_arex := 0; ae_arey := 0; ae_mscalx := 0; ae_mscaly := 0 |} |};
     me_madeval := false; me_field_errors := None; me_dict := [] |}.

(** * Properties *)

(** Case analysis on the fallible computations bound in the goal. *)
Ltac case_rbind :=
  repeat match goal with
         | |- context [rbind ?x _] => destruct x; cbn [rbind]
         end.

(** ** The nonzero test *)

(** C2: [nonzero_or_expr] has two paths.  On an expression node it answers
    true whatever the node evaluates to, also when that is zero; on a
    number it answers true exactly when the number is not [== 0]; and on
    every value that is not a node it is the comparison [x != 0]. *)
Theorem nonzero_or_expr_two_path :
  (forall e : expr, nonzero_or_expr (Expr e) = true) /\
  (forall (vars : string -> float) (e : expr),
      (expr_value vars e =? 0)%float = true ->
      nonzero_or_expr (Expr e) = true) /\
  (forall x : float, nonzero_or_expr (Num x) = negb (x =? 0)%float) /\
  (forall x : pyval, is_expr x = false -> nonzero_or_expr x = py_ne x (Num 0)).
Proof.
  split; [| split; [| split]].
  - intros e. reflexivity.
  - intros vars e _. reflexivity.
  - intros x. reflexivity.
  - intros x Hx. unfold nonzero_or_expr. rewrite Hx. reflexivity.
Qed.

(** An expression node whose value is zero is still reported nonzero, while
    the number zero is not. *)
Example nonzero_or_expr_zero_node :
  (expr_value no_vars (EVar "on_x1") =? 0)%float = true /\
  nonzero_or_expr (Expr (EVar "on_x1")) = true /\
  nonzero_or_expr (Num 0) = false /\
  nonzero_or_expr (Num (-0)%float) = false /\
  nonzero_or_expr (Num 1.5) = true.
Proof. repeat split; reflexivity. Qed.

(** ** The thin-element check *)

(** C6: for a record whose length [l] is a number or an expression node
    with current value [x], [_assert_element_is_thin] returns without
    raising when [x == 0]; otherwise it raises: with thick elements allowed,
    the error that thick elements of this type hierarchy are not yet
    supported; with thick elements disabled, the error whose message asks
    whether the caller forgot to set [allow_thick=True]. *)
Theorem assert_element_is_thin_spec
    (vars : string -> float) (self : MadLoader) (mad_el : MadElem)
    (l : pyval) (x : float) :
  attr mad_el "l" = Ok l ->
  get_value vars l = Num x ->
  _assert_element_is_thin vars self mad_el =
    if (x =? 0)%float then Ok tt
    else if allow_thick self then
      Raise (NotImplementedError
               ("Cannot load element " +:+ me_name mad_el +:+
                ", as thick elements of type " +:+
                String.concat "/" (get_type_hierarchy mad_el) +:+
                " are not yet supported."))
    else
      Raise (ValueError
               ("Element " +:+ me_name mad_el +:+
                " is thick, but importing thick elements is disabled. " +:+
                "Did you forget to set `allow_thick=True`?")).
Proof.
  intros Hl Hx. unfold _assert_element_is_thin. rewrite Hl. simpl.
  assert (Hne : py_ne (value_if_expr vars l) (Num 0) = negb (x =? 0)%float).
  { destruct l as [y | e | s | ys]; simpl in Hx; try discriminate;
      injection Hx as <-; reflexivity. }
  rewrite Hne. destruct (x =? 0)%float; reflexivity.
Qed.

(** A thick record under the default options: the message names the option
    to set. *)
Lemma assert_element_is_thin_witness :
  _assert_element_is_thin no_vars (default_loader [])
    (sample_view "q1" "multipole" [("l", ParNum 0.5 None)])
  = Raise (ValueError
      "Element q1 is thick, but importing thick elements is disabled. Did you forget to set `allow_thick=True`?").
Proof.
  exact (assert_element_is_thin_spec no_vars (default_loader [])
           (sample_view "q1" "multipole" [("l", ParNum 0.5 None)])
           (Num 0.5) 0.5 eq_refl eq_refl).
Defined.

(** A record whose length is an expression node evaluating to zero passes
    the check, with thick elements allowed or not. *)
Example assert_element_is_thin_zero_node :
  let m := {| me_name := "k1"; me_elem := sample_record "k1" "kicker"
                [("l", ParNum 0 (Some (EVar "lk")))];
              me_madeval := true; me_field_errors := None; me_dict := [] |} in
  attr m "l" = Ok (Expr (EVar "lk")) /\
  _assert_element_is_thin no_vars (default_loader []) m = Ok tt.
Proof. split; reflexivity. Qed.

(** ** Apertures and empty markers *)

(** C7, as the code has it.  Take any view, of a record whose aperture
    shape [aperture] and polygon abscissae [aper_vx] are arrays where the
    record has them.  When the shape array is empty, [has_aperture] raises
    [IndexError].  Otherwise it returns true exactly when the record
    carries a non-trivial shape array (first entry not zero, or more than
    one entry) or more than two polygon vertices, and false when it
    carries neither.  [is_empty_marker] returns true if and only if the
    type is [marker] and [has_aperture] returns false; for any other type
    it returns false. *)
Theorem has_aperture_spec (m : MadElem) (aperture aper_vx : option (list float)) :
  array_parameter (me_elem m) "aperture" = Some aperture ->
  array_parameter (me_elem m) "aper_vx" = Some aper_vx ->
  has_aperture m =
    match aperture with
    | Some [] => Raise IndexError
    | _ => Ok (nontrivial_shape aperture || polygon_given aper_vx)
    end /\
  (is_empty_marker m = Ok true <->
   me_type m = "marker" /\ has_aperture m = Ok false) /\
  (me_type m <> "marker" -> is_empty_marker m = Ok false).
Proof.
  intros Ha Hv. split; [| split].
  - unfold has_aperture. unfold array_parameter in Ha, Hv.
    assert (Hvx : match assoc "aper_vx" (el_cmdpar (me_elem m)) with
                  | None => Ok false
                  | Some p => let! n := py_len (par_value p) in Ok (Nat.ltb 2 n)
                  end = Ok (polygon_given aper_vx)).
    { destruct (assoc "aper_vx" (el_cmdpar (me_elem m))) as [[| vx ev |] |];
        try discriminate Hv; injection Hv as <-; simpl; [| reflexivity].
      now rewrite length_map. }
    destruct (assoc "aperture" (el_cmdpar (me_elem m))) as [[| value ea |] |];
      try discriminate Ha; injection Ha as <-; [| exact Hvx].
    destruct value as [| a0 rest]; [reflexivity |].
    cbn [par_value map py_index nth_error rbind py_len length nontrivial_shape].
    change (py_ne (Num a0) (Num 0)) with (negb (a0 =? 0)%float).
    destruct (a0 =? 0)%float; cbn [negb orb]; [| reflexivity].
    rewrite length_map. destruct rest; [exact Hvx | reflexivity].
  - unfold is_empty_marker.
    destruct (String.eqb_spec (me_type m) "marker") as [Hty | Hty].
    + destruct (has_aperture m) as [[|] | e]; simpl; split;
        try discriminate; try (intros [_ H]; discriminate); auto.
    + split; [discriminate | intros [H _]; contradiction].
  - intros Hty. unfold is_empty_marker.
    now destruct (String.eqb_spec (me_type m) "marker").
Qed.

(** A marker with a round aperture: it has an aperture and is not empty.
    A marker whose record has neither parameter is empty. *)
Lemma has_aperture_witness :
  has_aperture (sample_view "ip1" "marker"
                  [("aperture", ParList [0.02%float] [None]);
                   ("aper_vx", ParList [(-1)%float] [None])]) = Ok true /\
  has_aperture (sample_view "ip2" "marker" []) = Ok false.
Proof.
  split.
  - exact (proj1 (has_aperture_spec
                    (sample_view "ip1" "marker"
                       [("aperture", ParList [0.02%float] [None]);
                        ("aper_vx", ParList [(-1)%float] [None])])
                    (Some [0.02%float]) (Some [(-1)%float]) eq_refl eq_refl)).
  - exact (proj1 (has_aperture_spec (sample_view "ip2" "marker" [])
                    None None eq_refl eq_refl)).
Defined.

(** C7, as stated, fails on two polygon vertices: a marker with the trivial
    aperture array and two vertices has no aperture and is an empty
    marker; a third vertex makes the aperture.  It fails on an empty shape
    array as well: with three vertices beside it, [has_aperture] raises
    [IndexError] where C7 has it return true. *)
Lemma has_aperture_two_vertices :
  has_aperture (sample_view "m1" "marker"
                  [("aperture", ParList [0%float] [None]);
                   ("aper_vx", ParList [0.01; 0.02]%float [None; None]);
                   ("aper_vy", ParList [0.01; 0.03]%float [None; None])]) = Ok false /\
  is_empty_marker (sample_view "m1" "marker"
                  [("aperture", ParList [0%float] [None]);
                   ("aper_vx", ParList [0.01; 0.02]%float [None; None]);
                   ("aper_vy", ParList [0.01; 0.03]%float [None; None])]) = Ok true /\
  has_aperture (sample_view "m1" "marker"
                  [("aperture", ParList [0%float] [None]);
                   ("aper_vx", ParList [0.01; 0.02; 0.03]%float [None; None; None]);
                   ("aper_vy", ParList [0.01; 0.03; 0.01]%float [None; None; None])])
  = Ok true /\
  has_aperture (sample_view "m1" "marker"
                  [("aperture", ParList [] []);
                   ("aper_vx", ParList [0.01; 0.02; 0.03]%float [None; None; None]);
                   ("aper_vy", ParList [0.01; 0.03; 0.01]%float [None; None; None])])
  = Raise IndexError.
Proof. repeat split; reflexivity. Qed.

(** ** Merging multipoles *)

Lemma assoc_set_same {A : Type} (k : string) (v : A) (d : list (string * A)) :
  assoc k (assoc_set k v d) = Some v.
Proof.
  induction d as [| [k' v'] d IH]; simpl.
  - now rewrite String.eqb_refl.
  - destruct (String.eqb k k') eqn:E; simpl; rewrite ?E, ?String.eqb_refl; auto.
Qed.

(** When [merge_multipole] refuses, [self] is returned as it was. *)
Lemma merge_multipole_refused (self other m : MadElem) :
  merge_multipole self other = Ok (false, m) -> m = self.
Proof.
  unfold merge_multipole.
  destruct (and_then _ _) as [[|] | e]; cbn [rbind];
    [| congruence | discriminate].
  case_rbind; discriminate.
Qed.

(** When it accepts and the kick strengths are lists, [self.knl] becomes
    the list of [self] followed by the list of [other]. *)
Lemma merge_multipole_knl (self other m : MadElem) (a b : list pyval) :
  merge_multipole self other = Ok (true, m) ->
  attr self "knl" = Ok (PList a) ->
  attr other "knl" = Ok (PList b) ->
  attr m "knl" = Ok (PList (a ++ b)).
Proof.
  unfold merge_multipole. intros H Ha Hb.
  destruct (and_then _ _) as [[|] | e]; cbn [rbind] in H;
    [| discriminate | discriminate].
  rewrite Ha, Hb in H. cbn [rbind py_add] in H.
  repeat match type of H with
         | context [rbind ?x _] => destruct x; cbn [rbind] in H
         end; try discriminate H.
  injection H as <-. unfold attr, setattr. cbn [me_dict].
  destruct (String.eqb_spec "knl" "ksl") as [E | _]; [discriminate E |].
  assert (Hk : forall (d : list (string * pyval)) v w,
             assoc "knl" (assoc_set "ksl" w (assoc_set "knl" v d)) = Some v).
  { intros d v w. induction d as [| [k' v'] d IH]; [reflexivity |].
    cbn [assoc_set].
    destruct (String.eqb_spec "knl" k') as [<- | Hne]; [reflexivity |].
    cbn [assoc_set].
    destruct (String.eqb_spec "ksl" k') as [<- | Hne']; cbn [assoc].
    - replace (String.eqb "knl" "ksl") with false by reflexivity.
      apply assoc_set_same.
    - apply String.eqb_neq in Hne. rewrite Hne. exact IH. }
  now rewrite Hk.
Qed.

(** C1 on two compatible multipoles with [knl = [1, 2]], [ksl = [0, 0]]
    and [knl = [3, 4]], [ksl = [5]]: the merge succeeds and joins the
    names, but [self.knl += other.knl] extends the list, giving
    [[1, 2, 3, 4]] where the elementwise sum ([add_lists]) is [[4, 6]],
    and [[0, 0, 5]] for [ksl] where the zero-padded sum is [[5, 0]]. *)
Theorem merge_multipole_concatenates :
  exists merged : MadElem,
    merge_multipole (sample_multipole "mp1" [1; 2]%float [0; 0]%float)
                    (sample_multipole "mp2" [3; 4]%float [5]%float)
    = Ok (true, merged) /\
    me_name merged = "mp1_mp2" /\
    attr merged "knl" = Ok (PList [Num 1; Num 2; Num 3; Num 4]) /\
    attr merged "ksl" = Ok (PList [Num 0; Num 0; Num 5]) /\
    add_lists [Num 1; Num 2] [Num 3; Num 4] 2 = Ok [Num 4; Num 6] /\
    add_lists [Num 0; Num 0] [Num 5] 2 = Ok [Num 5; Num 0].
Proof.
  eexists. split; [vm_compute; reflexivity |].
  repeat split; reflexivity.
Qed.

(** ** Name uniqueness *)

Lemma string_length_app (s t : string) :
  String.length (s +:+ t) = String.length s + String.length t.
Proof. induction s as [| c s IH]; simpl; [reflexivity | now rewrite IH]. Qed.

Lemma suffixed_inj (name : string) : Inj (=) (=) (suffixed name).
Proof.
  intros i j H. unfold suffixed in H.
  apply (inj (String.app name)) in H.
  apply (inj (String.app ":")) in H.
  now apply (inj pretty) in H.
Qed.

Lemma suffixed_neq (name : string) (i : nat) : suffixed name i <> name.
Proof.
  intros H. apply (f_equal String.length) in H.
  unfold suffixed in H. rewrite !string_length_app in H. simpl in H. lia.
Qed.

(** The name and its first [ii] suffixed forms are [S ii] distinct keys. *)
Lemma suffixes_bound (d : gmap string xt_element) (name : string) (ii : nat) :
  is_Some (d !! name) ->
  (forall j, j < ii -> is_Some (d !! suffixed name j)) ->
  ii < size d.
Proof.
  intros Hname Hsuf.
  set (l := name :: (suffixed name <$> seq 0 ii)).
  assert (Hnd : NoDup l).
  { apply NoDup_cons. split.
    - intros Hin. apply list_elem_of_fmap in Hin as (j & Hj & _).
      symmetry in Hj. now apply suffixed_neq in Hj.
    - apply NoDup_fmap_2; [apply suffixed_inj | apply NoDup_seq]. }
  assert (Hsub : (list_to_set l : gset string) ⊆ dom d).
  { intros k Hk. apply elem_of_list_to_set in Hk. apply elem_of_dom.
    unfold l in Hk. apply elem_of_cons in Hk as [-> | Hk]; [exact Hname |].
    apply list_elem_of_fmap in Hk as (j & -> & Hj).
    apply elem_of_seq in Hj. apply Hsuf. lia. }
  apply subseteq_size in Hsub.
  rewrite size_list_to_set in Hsub by exact Hnd.
  rewrite size_dom in Hsub. unfold l in Hsub. simpl in Hsub.
  rewrite length_fmap, length_seq in Hsub. lia.
Qed.

(** The loop leaves at the least unused index, within its fuel. *)
Lemma first_unused_spec (d : gmap string xt_element) (name : string) :
  is_Some (d !! name) ->
  forall fuel ii,
    size d <= fuel + ii ->
    (forall j, j < ii -> is_Some (d !! suffixed name j)) ->
    exists i,
      first_unused d name fuel ii = suffixed name i /\
      d !! suffixed name i = None /\
      forall j, j < i -> is_Some (d !! suffixed name j).
Proof.
  intros Hname fuel. induction fuel as [| fuel IH]; intros ii Hfuel Hbelow.
  - pose proof (suffixes_bound d name ii Hname Hbelow). lia.
  - simpl. destruct (d !! suffixed name ii) as [e |] eqn:Hii.
    + apply IH; [lia |]. intros j Hj.
      destruct (decide (j = ii)) as [-> | Hne]; [rewrite Hii; eauto |].
      apply Hbelow. lia.
    + exists ii. auto.
Qed.

(** More fuel than the number of entries changes nothing: the bound on the
    rounds is never met. *)
Lemma first_unused_enough (d : gmap string xt_element) (name : string) (fuel : nat) :
  is_Some (d !! name) ->
  size d <= fuel ->
  first_unused d name fuel 0 = first_unused d name (size d) 0.
Proof.
  intros Hname Hfuel.
  destruct (first_unused_spec d name Hname fuel 0) as (i & -> & Hi & Hlt);
    [lia | intros j Hj; lia |].
  destruct (first_unused_spec d name Hname (size d) 0) as (i' & -> & Hi' & Hlt');
    [lia | intros j Hj; lia |].
  destruct (Nat.lt_trichotomy i i') as [H | [-> | H]]; [| reflexivity |].
  - apply Hlt' in H. rewrite Hi in H. now destruct H.
  - apply Hlt in H. rewrite Hi' in H. now destruct H.
Qed.

Lemma generate_repeated_name_absent (line : Line) (name : string) :
  element_dict line !! name = None ->
  generate_repeated_name line name = name.
Proof. intros H. unfold generate_repeated_name. now rewrite H. Qed.

Lemma generate_repeated_name_present (line : Line) (name : string) :
  is_Some (element_dict line !! name) ->
  exists i,
    generate_repeated_name line name = suffixed name i /\
    element_dict line !! suffixed name i = None /\
    forall j, j < i -> is_Some (element_dict line !! suffixed name j).
Proof.
  intros H. unfold generate_repeated_name.
  destruct H as [e He]. rewrite He.
  apply first_unused_spec; [rewrite He; eauto | lia | intros j Hj; lia].
Qed.

Lemma generate_repeated_name_fresh (line : Line) (name : string) :
  element_dict line !! generate_repeated_name line name = None.
Proof.
  destruct (element_dict line !! name) as [e |] eqn:He.
  - destruct (generate_repeated_name_present line name) as (i & -> & Hi & _);
      [rewrite He; eauto | exact Hi].
  - now rewrite generate_repeated_name_absent.
Qed.

Lemma grows_refl (line : Line) : grows line line.
Proof. split; [auto | split; reflexivity]. Qed.

Lemma grows_trans (l1 l2 l3 : Line) : grows l1 l2 -> grows l2 l3 -> grows l1 l3.
Proof.
  intros (W1 & P1 & S1) (W2 & P2 & S2). split; [auto | split].
  - now transitivity (element_names l2).
  - now transitivity (element_dict l2).
Qed.

Lemma append_element_grows (line : Line) (e : xt_element) (name : string) :
  element_dict line !! name = None ->
  grows line (append_element line e name).
Proof.
  intros Hfresh. unfold grows, append_element, line_wf. simpl.
  split; [| split].
  - intros [Hnd Hkeys]. split.
    + apply NoDup_app. repeat split.
      * exact Hnd.
      * intros x Hx Hx'. apply list_elem_of_singleton in Hx'. subst x.
        apply Hkeys in Hx. rewrite Hfresh in Hx. now destruct Hx.
      * apply NoDup_singleton.
    + intros n. rewrite lookup_insert_is_Some, elem_of_app,
        list_elem_of_singleton, Hkeys.
      split.
      * intros [Hn | ->]; [| now left].
        destruct (decide (name = n)); [now left | now right].
      * intros [-> | [_ Hn]]; [now right | now left].
  - now apply prefix_app_r.
  - now apply insert_subseteq.
Qed.

Lemma add_to_line_grows (vars : string -> float) (b : ElementBuilder) (line : Line) :
  grows line (add_to_line vars b line).
Proof.
  unfold add_to_line. apply append_element_grows.
  apply generate_repeated_name_fresh.
Qed.

Lemma add_all_grows (vars : string -> float) (bs : list ElementBuilder) (line : Line) :
  grows line (add_all vars bs line).
Proof.
  unfold add_all. revert line.
  induction bs as [| b bs IH]; intros line; simpl; [apply grows_refl |].
  eapply grows_trans; [apply add_to_line_grows | apply IH].
Qed.

Lemma builder_add_to_line_grows (vars : string -> float) (b : builder) (line : Line) :
  grows line (builder_add_to_line vars b line).
Proof.
  destruct b as [e | c]; simpl; [apply add_to_line_grows |].
  unfold add_compound_to_line, define_compound.
  pose proof (add_all_grows vars
    ([{| eb_name := ceb_name c +:+ "_entry"; eb_type := Marker;
         eb_attrs := []; eb_with_expr := false |}] ++
     ceb_aperture c ++ ceb_entry_transform c ++ ceb_core c ++
     ceb_exit_transform c ++
     [{| eb_name := ceb_name c +:+ "_exit"; eb_type := Marker;
         eb_attrs := []; eb_with_expr := false |}]) line) as (W & P & S).
  repeat split; simpl; try apply W; auto.
Qed.

Lemma add_elements_grows (vars : string -> float) (bs : list builder) (line : Line) :
  grows line (add_elements vars bs line).
Proof.
  unfold add_elements. revert line.
  induction bs as [| b bs IH]; intros line; simpl; [apply grows_refl |].
  eapply grows_trans; [apply builder_add_to_line_grows | apply IH].
Qed.

Lemma line_wf_new : line_wf Line_new.
Proof.
  split; simpl; [apply NoDup_nil_2 |].
  intros n. split.
  - intros H. now apply elem_of_nil in H.
  - rewrite lookup_empty. intros [x Hx]. discriminate.
Qed.



(** The names given to them, in order. *)
Example repeated_names_in_order :
  element_names
    (add_elements no_vars
       [sample_drift "d" 1; sample_drift "d" 2;
        sample_drift "d" 3; sample_drift "d" 4] Line_new)
  = ["d"; "d:0"; "d:1"; "d:2"].
Proof. vm_compute. reflexivity. Qed.

(** ** The iteration over the source sequence *)

Lemma iter_step_set_Builder (self : MadLoader) (b madeval : bool)
    (last : option MadElem) (el : cpymad_element) :
  iter_step (set_Builder self b) madeval last el = iter_step self madeval last el.
Proof. reflexivity. Qed.

Lemma iter_loop_set_Builder (self : MadLoader) (b madeval : bool)
    (els : list cpymad_element) (last : option MadElem) :
  iter_loop (set_Builder self b) madeval last els = iter_loop self madeval last els.
Proof.
  revert last. induction els as [| el els IH]; intros last; simpl; [reflexivity |].
  rewrite iter_step_set_Builder.
  destruct (iter_step self madeval last el) as [[ys last'] | e]; [| reflexivity].
  now rewrite IH.
Qed.

Lemma iter_elements_set_Builder (self : MadLoader) (b madeval : bool) :
  iter_elements (set_Builder self b) madeval = iter_elements self madeval.
Proof.
  unfold iter_elements.
  change (expanded_elements (set_Builder self b)) with (expanded_elements self).
  destruct (expanded_elements self); [reflexivity |].
  apply iter_loop_set_Builder.
Qed.

(** A discarded record leaves the sentinel in the pending slot and yields
    nothing. *)
Lemma iter_step_discarded (self : MadLoader) (madeval : bool) (el : cpymad_element) :
  discarded self madeval el = true ->
  iter_step self madeval None el = Ok ([], None).
Proof.
  unfold discarded, iter_step.
  destruct (MadElem_init _ _ _ _) as [m | e]; [| discriminate]. cbn [rbind].
  destruct (if skip_markers self then is_empty_marker m else Ok false)
    as [[|] | e]; [reflexivity | | discriminate].
  cbn [rbind slot_type]. intros Hign.
  replace (String.eqb "None" "drift") with false by reflexivity.
  replace (String.eqb "None" "multipole") with false by reflexivity.
  rewrite !andb_false_r. cbn [andb]. now rewrite Hign.
Qed.

Lemma iter_loop_discarded (self : MadLoader) (madeval : bool)
    (els : list cpymad_element) :
  forallb (discarded self madeval) els = true ->
  iter_loop self madeval None els = ([None], None).
Proof.
  induction els as [| el els IH]; simpl; [reflexivity |].
  intros H. apply andb_prop in H as [Hel Hels].
  rewrite (iter_step_discarded _ _ _ Hel). now rewrite (IH Hels).
Qed.

(** The sentinel has no conversion rule. *)
Lemma convert_element_sentinel (vars : string -> float) (np_tan : float -> float)
    (self : MadLoader) (madeval : bool) (line : Line) :
  convert_element vars np_tan self madeval line None
  = ([], Raise (ValueError (not_supported "None"))).
Proof.
  unfold convert_element. cbn [slot_type].
  destruct (expressions_for_element_types self) as [types |];
    [destruct (in_list "None" types) |]; reflexivity.
Qed.

(** While the sentinel is pending, these are the only records after which
    it is still pending: neither merge can take place, since the type of
    the sentinel is ["None"], and any other record is taken into the
    slot. *)
Lemma iter_step_keeps_sentinel (self : MadLoader) (madeval : bool)
    (el : cpymad_element) (ys : list (option MadElem)) :
  iter_step self madeval None el = Ok (ys, None) ->
  discarded self madeval el = true /\ ys = [].
Proof.
  unfold discarded, iter_step.
  destruct (MadElem_init _ _ _ _) as [m | e]; [| discriminate]. cbn [rbind].
  destruct (if skip_markers self then is_empty_marker m else Ok false)
    as [[|] | e]; cbn [rbind slot_type]; [| | discriminate].
  - intros H. injection H as <-. auto.
  - replace (String.eqb "None" "drift") with false by reflexivity.
    replace (String.eqb "None" "multipole") with false by reflexivity.
    rewrite !andb_false_r. cbn [andb].
    destruct (in_list (me_type m) (ignore_madtypes self)); [| discriminate].
    intros H. injection H as <-. auto.
Qed.

(** C10: when the sequence is not empty and every record is dropped, by
    empty-marker skipping or by the ignore list (no record can be dropped
    by a merge while the sentinel is pending), [iter_elements] yields
    exactly the sentinel, whose type is ["None"], and [make_line] raises
    the error that the element type [None] is not supported. *)
Theorem all_discarded_yields_sentinel
    (vars : string -> float) (np_tan : float -> float) (self : MadLoader) :
  expanded_elements self <> [] ->
  forallb (discarded self (enable_expressions self)) (expanded_elements self)
  = true ->
  iter_elements self (enable_expressions self) = ([None], None) /\
  slot_type None = "None" /\
  make_line vars np_tan self
  = ([], Raise (ValueError
       ("Element None not supported," +:+ newline +:+
        "implement " +:+ dquote +:+ "add_None" +:+ dquote +:+
        " or convert_None in function in MadLoader"))) /\
  (forall el ys,
      iter_step self (enable_expressions self) None el = Ok (ys, None) ->
      discarded self (enable_expressions self) el = true).
Proof.
  intros Hne Hall.
  assert (Hiter : iter_elements self (enable_expressions self) = ([None], None)).
  { unfold iter_elements.
    destruct (expanded_elements self) as [| el els] eqn:Hels; [contradiction |].
    now apply iter_loop_discarded. }
  split; [exact Hiter |]. split; [reflexivity |]. split.
  - unfold make_line. rewrite iter_elements_set_Builder, Hiter.
    cbn [convert_elements]. now rewrite convert_element_sentinel.
  - intros el ys H. now apply iter_step_keeps_sentinel in H.
Qed.

(** A sequence of two empty markers and an ignored monitor, with empty
    markers skipped. *)
Lemma all_discarded_witness :
  make_line no_vars tan_series
    (skipping_loader
       [sample_record "start" "marker" no_aperture;
        sample_record "bpm" "monitor" [("l", ParNum 0 None)];
        sample_record "end" "marker" no_aperture])
  = ([], Raise (ValueError (not_supported "None"))).
Proof.
  refine (proj1 (proj2 (proj2 (all_discarded_yields_sentinel no_vars tan_series
    (skipping_loader
       [sample_record "start" "marker" no_aperture;
        sample_record "bpm" "monitor" [("l", ParNum 0 None)];
        sample_record "end" "marker" no_aperture]) _ _)))).
  - discriminate.
  - reflexivity.
Defined.

(** ** Merging drifts *)


Lemma MadElem_init_elem (name : string) (el : cpymad_element) (madeval : bool)
    (name_prefix : option string) (m : MadElem) :
  MadElem_init name el madeval name_prefix = Ok m -> me_elem m = el.
Proof.
  unfold MadElem_init.
  destruct (if negb _ then _ else _) as [[|] | e]; cbn [rbind];
    try discriminate. intros H. now injection H as <-.
Qed.

(** A builder whose name is free goes into the line under its name. *)
Lemma add_to_line_fresh (vars : string -> float) (b : ElementBuilder) (line : Line) :
  element_dict line !! eb_name b = None ->
  add_to_line vars b line = append_element line (allocate vars b) (eb_name b).
Proof.
  intros H. unfold add_to_line. now rewrite generate_repeated_name_absent.
Qed.

Section MergingDrifts.

Variable vars : string -> float.
Variable np_tan : float -> float.
Variable self : MadLoader.
Variable madeval : bool.

Hypothesis merging : merge_drifts self = true.
Hypothesis drifts_kept : in_list "drift" (ignore_madtypes self) = false.












End MergingDrifts.



(** The same three drifts, run. *)
Example three_drifts_line :
  exists line,
    make_line no_vars tan_series
      (set_merge_drifts (default_loader three_drifts) [])
    = ([Progress 0 3; EndOfProgress], Ok line) /\
    element_names line = ["d1"] /\
    element_dict line !! "d1"
    = Some {| xt_type := Drift; xt_attrs := [("length", Num 3.5)];
              xt_exprs := [] |}.
Proof. eexists. split; [vm_compute; reflexivity |]. split; reflexivity. Qed.

(** With expressions enabled: a drift whose length is the variable [ld],
    an empty marker that is skipped, and two more drifts give one drift of
    length 3.5, bound to the formula of the first. *)
Example merged_drifts_with_expression :
  exists line,
    make_line sample_vars tan_series
      (merging_loader
         [sample_record "d1" "drift" [("l", ParNum 1 (Some (EVar "ld")))];
          sample_record "m" "marker" no_aperture;
          sample_drift_record "d2" 2; sample_drift_record "d3" 0.5])
    = ([Progress 0 4; EndOfProgress], Ok line) /\
    element_names line = ["d1"] /\
    element_dict line !! "d1"
    = Some {| xt_type := Drift;
              xt_attrs := [("length", Num 3.5)];
              xt_exprs :=
                [("length",
                  Expr (EAdd (EAdd (EVar "ld") (ELit 2)) (ELit 0.5)))] |}.
Proof. eexists. split; [vm_compute; reflexivity |]. split; reflexivity. Qed.


(** ** The thin solenoid *)

















(** ** Alignment *)

Lemma float_opp_involutive (x : float) : (- - x)%float = x.
Proof.
  apply Prim2SF_inj. rewrite !opp_spec.
  destruct (Prim2SF x); simpl; rewrite ?negb_involutive; reflexivity.
Qed.



Lemma SF2R_opp (s : spec_float) : SF2R (SFopp s) = (- SF2R s)%R.
Proof.
  destruct s as [sg | sg | | sg m e]; simpl; try ring.
  destruct sg; simpl; ring.
Qed.

Lemma real_of_opp (x : float) : real_of (Num (- x)) = (- real_of (Num x))%R.
Proof. unfold real_of, float_to_R. rewrite opp_spec. apply SF2R_opp. Qed.

Lemma plane_rotate_inverse (a : float) (p : R * R) :
  plane_rotate (Num (- a)) (plane_rotate (Num a) p) = p.
Proof.
  destruct p as [x y]. unfold plane_rotate. rewrite real_of_opp.
  cbn [fst snd].
  replace (- real_of (Num a) * PI / 180)%R
    with (- (real_of (Num a) * PI / 180))%R by (unfold Rdiv; ring).
  set (t := (real_of (Num a) * PI / 180)%R).
  rewrite cos_neg, sin_neg.
  pose proof (sin2_cos2 t) as H. unfold Rsqr in H.
  f_equal.
  - replace ((x * cos t + y * sin t) * cos t
             + (- x * sin t + y * cos t) * - sin t)%R
      with (x * (sin t * sin t + cos t * cos t))%R by ring.
    rewrite H. ring.
  - replace (- (x * cos t + y * sin t) * - sin t
             + (- x * sin t + y * cos t) * cos t)%R
      with (y * (sin t * sin t + cos t * cos t))%R by ring.
    rewrite H. ring.
Qed.



(** ** The octagon aperture *)

(** C8: for an aperture array that starts with the numbers [a0], [a1],
    [a2], [a3], [convert_octagon] computes [V1 = (a0, a0 * tan a2)] and
    [V2 = (a1 / tan a3, a1)] and returns one polygon builder, named
    [<name>_aper], with the eight vertices [V1], [V2] and their mirror
    images, [V1] first; the set of vertices is symmetric under the
    reflection across either axis. *)
Theorem convert_octagon_vertices
    (np_tan : float -> float) (self : MadLoader) (ee : MadElem)
    (a0 a1 a2 a3 : float) (rest : list pyval) :
  attr ee "aperture" = Ok (PList (Num a0 :: Num a1 :: Num a2 :: Num a3 :: rest)) ->
  let V1x := a0 in
  let V1y := (a0 * np_tan a2)%float in
  let V2x := (a1 / np_tan a3)%float in
  let V2y := a1 in
  exists b : ElementBuilder,
    convert_octagon np_tan self ee = Ok [b] /\
    eb_name b = me_name ee +:+ "_aper" /\
    eb_type b = LimitPolygon /\
    polygon_vertices b
    = [(Num V1x, Num V1y); (Num V2x, Num V2y);
       (Num (- V2x), Num V2y); (Num (- V1x), Num V1y);
       (Num (- V1x), Num (- V1y)); (Num (- V2x), Num (- V2y));
       (Num V2x, Num (- V2y)); (Num V1x, Num (- V1y))]%float /\
    length (polygon_vertices b) = 8 /\
    nth_error (polygon_vertices b) 0 = Some (Num a0, Num (a0 * np_tan a2)%float) /\
    forall x y : float,
      In (Num x, Num y) (polygon_vertices b) ->
      In (Num (- x)%float, Num y) (polygon_vertices b) /\
      In (Num x, Num (- y)%float) (polygon_vertices b).
Proof.
  intros Hap V1x V1y V2x V2y.
  eexists. split.
  { unfold convert_octagon. rewrite Hap. cbn. reflexivity. }
  split; [reflexivity |]. split; [reflexivity |].
  split; [reflexivity |]. split; [reflexivity |]. split; [reflexivity |].
  intros x y Hin. cbn in Hin.
  repeat match type of Hin with
         | _ \/ _ => destruct Hin as [Hin | Hin]
         end;
    try contradiction;
    injection Hin as <- <-; rewrite ?float_opp_involutive; cbn; tauto.
Qed.

(** The octagon with half-widths 0.05 and 0.04 and angles 0.3 and 0.4: a
    polygon of eight vertices whose first vertex is
    [(0.05, 0.05 * tan 0.3)]. *)
Lemma convert_octagon_witness :
  exists b : ElementBuilder,
    convert_octagon tan_series (default_loader []) sample_octagon = Ok [b] /\
    length (polygon_vertices b) = 8 /\
    nth_error (polygon_vertices b) 0
    = Some (Num 0.05, Num (0.05 * tan_series 0.3)%float).
Proof.
  destruct (convert_octagon_vertices tan_series (default_loader []) sample_octagon
              0.05 0.04 0.3 0.4 [] eq_refl)
    as (b & Hb & _ & _ & _ & Hlen & Hfirst & _).
  exists b. split; [exact Hb |]. split; [exact Hlen | exact Hfirst].
Defined.

(** * Further properties *)

(** ** Generic functions *)

Lemma pyval_nested_ind (P : pyval -> Prop) :
  (forall x, P (Num x)) ->
  (forall e, P (Expr e)) ->
  (forall s, P (Str s)) ->
  (forall l, Forall P l -> P (PList l)) ->
  forall v, P v.
Proof.
  intros HN HE HS HL. fix IH 1.
  intros [x | e | s | l]; [apply HN | apply HE | apply HS |].
  apply HL. induction l as [| v l IHl]; constructor; [apply IH | exact IHl].
Qed.

Lemma pyobj_nested_ind (P : pyobj -> Prop) :
  P ONone ->
  (forall x, P (ONum x)) ->
  (forall e, P (ONode e)) ->
  (forall s, P (OStr s)) ->
  (forall l, Forall P l -> P (OList l)) ->
  (forall l, Forall P l -> P (OTuple l)) ->
  (forall entries, P (OArray entries)) ->
  (forall items, Forall (fun kv => P (snd kv)) items -> P (ODict items)) ->
  forall x, P x.
Proof.
  intros H0 HN HE HS HL HT HA HD. fix IH 1.
  intros [| x | e | s | l | l | entries | items];
    [exact H0 | apply HN | apply HE | apply HS | apply HL | apply HT
    | apply HA | apply HD].
  - induction l as [| v l IHl]; constructor; [apply IH | exact IHl].
  - induction l as [| v l IHl]; constructor; [apply IH | exact IHl].
  - induction items as [| [k v] items IHl]; constructor; [apply IH | exact IHl].
Qed.

Lemma get_value_full_list (vars : string -> float) (l : list pyobj) :
  Forall (fun x =>
            settled (get_value_full vars x) = true /\
            get_value_full vars (get_value_full vars x) = get_value_full vars x /\
            (get_value_full vars x = x <-> settled x = true)) l ->
  forallb settled (map (get_value_full vars) l) = true /\
  map (get_value_full vars) (map (get_value_full vars) l)
  = map (get_value_full vars) l /\
  (map (get_value_full vars) l = l <-> forallb settled l = true).
Proof.
  induction 1 as [| v l (Hs & Hi & Hu) _ (IHs & IHi & IHu)]; simpl.
  - repeat split; auto.
  - rewrite Hs, IHs, Hi, IHi. repeat split; auto.
    + intros H. injection H as Hv Hl.
      apply andb_true_iff. split; [now apply Hu | now apply IHu].
    + intros H. apply andb_true_iff in H as [Hv Hl].
      f_equal; [now apply Hu | now apply IHu].
Qed.

Lemma get_value_full_items (vars : string -> float) (items : list (string * pyobj)) :
  Forall (fun kv =>
            settled (get_value_full vars (snd kv)) = true /\
            get_value_full vars (get_value_full vars (snd kv))
            = get_value_full vars (snd kv) /\
            (get_value_full vars (snd kv) = snd kv <-> settled (snd kv) = true))
    items ->
  forallb (fun kv => settled (snd kv))
    (map (fun kv => (fst kv, get_value_full vars (snd kv))) items) = true /\
  map (fun kv => (fst kv, get_value_full vars (snd kv)))
    (map (fun kv => (fst kv, get_value_full vars (snd kv))) items)
  = map (fun kv => (fst kv, get_value_full vars (snd kv))) items /\
  (map (fun kv => (fst kv, get_value_full vars (snd kv))) items = items
   <-> forallb (fun kv => settled (snd kv)) items = true).
Proof.
  induction 1 as [| [k v] l (Hs & Hi & Hu) _ (IHs & IHi & IHu)];
    cbn [map forallb fst snd] in *.
  - repeat split; auto.
  - rewrite Hs, IHs, Hi, IHi. repeat split; auto.
    + intros H. injection H as Hv Hl.
      apply andb_true_iff. split; [now apply Hu | now apply IHu].
    + intros H. apply andb_true_iff in H as [Hv Hl].
      f_equal; [f_equal; now apply Hu | now apply IHu].
Qed.

Lemma get_value_full_settled (vars : string -> float) (x : pyobj) :
  settled (get_value_full vars x) = true /\
  get_value_full vars (get_value_full vars x) = get_value_full vars x /\
  (get_value_full vars x = x <-> settled x = true).
Proof.
  induction x as [| v | e | s | l IH | l IH | entries | items IH]
    using pyobj_nested_ind;
    try (simpl; repeat split; auto; discriminate).
  - destruct (get_value_full_list vars l IH) as (Hs & Hi & Hu). simpl.
    rewrite Hs, Hi. repeat split; auto.
    + intros H. injection H as H. now apply Hu.
    + intros H. f_equal. now apply Hu.
  - destruct (get_value_full_list vars l IH) as (Hs & Hi & Hu). simpl.
    rewrite Hs, Hi. repeat split; auto; discriminate.
  - destruct (get_value_full_items vars items IH) as (Hs & Hi & Hu). simpl.
    rewrite Hs, Hi. repeat split; auto.
    + intros H. injection H as H. now apply Hu.
    + intros H. f_equal. now apply Hu.
Qed.

Lemma get_value_full_pyobj_of (vars : string -> float) (v : pyval) :
  get_value_full vars (pyobj_of v) = pyobj_of (get_value vars v).
Proof.
  induction v as [x | e | s | l IH] using pyval_nested_ind; try reflexivity.
  simpl. f_equal. rewrite !map_map.
  induction IH as [| v l H _ IHl]; simpl; [reflexivity |]. now rewrite H, IHl.
Qed.

Lemma settled_pyobj_of (v : pyval) : settled (pyobj_of v) = expr_free v.
Proof.
  induction v as [x | e | s | l IH] using pyval_nested_ind; try reflexivity.
  simpl. induction IH as [| v l H _ IHl]; simpl; [reflexivity |].
  now rewrite H, IHl.
Qed.

Lemma pyobj_of_inj (v w : pyval) : pyobj_of v = pyobj_of w -> v = w.
Proof.
  revert w.
  induction v as [x | e | s | l IH] using pyval_nested_ind;
    intros [y | e' | s' | l']; simpl; intros H; try discriminate H;
    try (injection H as ->; reflexivity).
  injection H as H. f_equal. revert l' H.
  induction IH as [| v l Hv _ IHl]; intros [| w l']; simpl; intros H;
    try discriminate H; [reflexivity |].
  injection H as H1 H2. f_equal; [now apply Hv | now apply IHl].
Qed.

(** X1: [get_value] replaces every expression node by its current value,
    inside lists, tuples and dictionaries too, turns every tuple into a
    list, and gives [None] for an array.  So its result holds no node, no
    tuple and no array, evaluating the result again changes nothing, and
    an object comes back equal to itself exactly when it holds no node, no
    tuple and no array.  On the parameter values, which hold no tuple,
    array or dictionary, it is [get_value]: that one gives a value without
    node, fixed by a second evaluation, and returns a value as it is
    exactly when the value holds no node. *)
Theorem get_value_expr_free (vars : string -> float) :
  (forall x : pyobj,
      settled (get_value_full vars x) = true /\
      get_value_full vars (get_value_full vars x) = get_value_full vars x /\
      (get_value_full vars x = x <-> settled x = true)) /\
  (forall entries, get_value_full vars (OArray entries) = ONone) /\
  (forall l,
      get_value_full vars (OTuple l) = OList (map (get_value_full vars) l)) /\
  (forall v : pyval,
      get_value_full vars (pyobj_of v) = pyobj_of (get_value vars v) /\
      expr_free (get_value vars v) = true /\
      get_value vars (get_value vars v) = get_value vars v /\
      (get_value vars v = v <-> expr_free v = true)).
Proof.
  split; [apply get_value_full_settled |].
  split; [reflexivity |]. split; [reflexivity |].
  intros v. split; [apply get_value_full_pyobj_of |].
  destruct (get_value_full_settled vars (pyobj_of v)) as (Hs & Hi & Hu).
  rewrite !get_value_full_pyobj_of in *. rewrite settled_pyobj_of in *.
  split; [exact Hs |]. split; [now apply pyobj_of_inj |].
  rewrite <- Hu. split; [now intros -> | apply pyobj_of_inj].
Qed.

(** The matrix of a matrix element, an array that holds a node: the value
    the builder passes on is [None]. *)
Example get_value_of_array :
  get_value_full no_vars (OArray [CNum 1; CNode (EVar "k")]) = ONone /\
  get_value_full no_vars
    (ODict [("a", OTuple [ONum 1; ONode (ELit 2)])])
  = ODict [("a", OList [ONum 1; ONum 2])].
Proof. split; reflexivity. Qed.

Lemma py_add_scalar (x y : pyval) :
  scalar x -> scalar y -> exists c, py_add x y = Ok c /\ scalar c.
Proof.
  intros [ex Hx] [ey Hy].
  destruct x, y; simpl in *; try discriminate; eexists; split;
    try reflexivity; unfold scalar; simpl; eauto.
Qed.

Lemma add_lists_from_pointwise (a b : list pyval) :
  Forall scalar a -> Forall scalar b ->
  forall n ii,
    exists out,
      add_lists_from a b n ii = Ok out /\
      length out = n /\
      forall k, k < n ->
        exists c, nth_error out k = Some c /\
          match nth_error a (ii + k), nth_error b (ii + k) with
          | Some x, Some y => py_add x y = Ok c
          | Some x, None => c = x
          | None, Some y => c = y
          | None, None => c = Num 0
          end.
Proof.
  intros Ha Hb. induction n as [| n IH]; intros ii.
  - exists []. repeat split; auto. intros k Hk. lia.
  - destruct (IH (S ii)) as (out & Hout & Hlen & Hnth).
    assert (Hc : exists c,
               match nth_error a ii, nth_error b ii with
               | Some x, Some y => py_add x y
               | Some x, None => Ok x
               | None, Some y => Ok y
               | None, None => Ok (Num 0)
               end = Ok c /\
               match nth_error a ii, nth_error b ii with
               | Some x, Some y => py_add x y = Ok c
               | Some x, None => c = x
               | None, Some y => c = y
               | None, None => c = Num 0
               end).
    { destruct (nth_error a ii) as [x |] eqn:Ex, (nth_error b ii) as [y |] eqn:Ey;
        try (eexists; split; reflexivity).
      apply nth_error_In in Ex, Ey.
      rewrite List.Forall_forall in Ha, Hb.
      destruct (py_add_scalar x y (Ha x Ex) (Hb y Ey)) as (c & Hc & _).
      exists c. auto. }
    destruct Hc as (c & Hc & Hspec).
    exists (c :: out). split; [| split].
    + cbn [add_lists_from]. rewrite Hc. cbn [rbind]. rewrite Hout. reflexivity.
    + simpl. now rewrite Hlen.
    + intros [| k] Hk.
      * exists c. rewrite Nat.add_0_r. auto.
      * destruct (Hnth k) as (c' & Hc' & Hspec'); [lia |].
        exists c'. replace (ii + S k) with (S ii + k) by lia. auto.
Qed.

(** X2: on lists of numbers and expression nodes [add_lists(a, b, length)]
    returns a list of exactly [length] entries; entry [ii] is the sum
    [a[ii] + b[ii]] where both lists reach, the entry of the one list that
    reaches where only one does, and [0] beyond both. *)
Theorem add_lists_pointwise (a b : list pyval) (n : nat) :
  Forall scalar a ->
  Forall scalar b ->
  exists out,
    add_lists a b n = Ok out /\
    length out = n /\
    forall ii, ii < n ->
      exists c, nth_error out ii = Some c /\
        match nth_error a ii, nth_error b ii with
        | Some x, Some y => py_add x y = Ok c
        | Some x, None => c = x
        | None, Some y => c = y
        | None, None => c = Num 0
        end.
Proof.
  intros Ha Hb.
  destruct (add_lists_from_pointwise a b Ha Hb n 0) as (out & H1 & H2 & H3).
  exists out. split; [exact H1 | split; [exact H2 |]].
  intros ii Hii. exact (H3 ii Hii).
Qed.

(** Two gradients and one: the shorter list is padded. *)
Lemma add_lists_witness :
  exists out,
    add_lists [Num 1; Num 2] [Num 3] 3 = Ok out /\ length out = 3.
Proof.
  destruct (add_lists_pointwise [Num 1; Num 2] [Num 3] 3) as (out & H1 & H2 & _).
  - repeat constructor; unfold scalar; simpl; eauto.
  - repeat constructor; unfold scalar; simpl; eauto.
  - exists out. split; [exact H1 | exact H2].
Defined.

Lemma Forall_of_nth_error {A : Type} (P : A -> Prop) (l : list A) :
  (forall i x, nth_error l i = Some x -> P x) -> Forall P l.
Proof.
  induction l as [| a l IH]; intros H; constructor.
  - exact (H 0 a eq_refl).
  - apply IH. intros i x Hi. exact (H (S i) x Hi).
Qed.

Lemma non_zero_len_from_spec (reversed : list pyval) :
  forall ii len,
    len = ii + length reversed ->
    let r := non_zero_len_from len reversed ii in
    r <= length reversed /\
    Forall (fun x => truthy x = false) (firstn (length reversed - r) reversed) /\
    forall k, r = S k ->
      exists x, nth_error reversed (length reversed - S k) = Some x /\
                truthy x = true.
Proof.
  induction reversed as [| x rest IH]; intros ii len Hlen; cbn zeta.
  - simpl. repeat split; auto. intros k Hk. discriminate.
  - cbn [non_zero_len_from]. destruct (truthy x) eqn:Hx.
    + cbn [length] in *. replace (len - ii) with (S (length rest)) by lia.
      rewrite Nat.sub_diag. repeat split; [lia | constructor |].
      intros k Hk. injection Hk as <-. rewrite Nat.sub_diag. exists x. auto.
    + cbn [length] in *.
      destruct (IH (S ii) len) as (Hle & Hall & Hnth); [lia |].
      split; [lia | split].
      * replace (S (length rest) - non_zero_len_from len rest (S ii))
          with (S (length rest - non_zero_len_from len rest (S ii))) by lia.
        simpl. constructor; assumption.
      * intros k Hk. destruct (Hnth k Hk) as (y & Hy & Hty).
        exists y. split; [| exact Hty].
        replace (S (length rest) - S k) with (S (length rest - S k)) by lia.
        exact Hy.
Qed.

(** X3: [non_zero_len] gives the length of the list without its trailing
    entries that count as false: it is at most the length, every entry from
    that index on is false (a zero, an empty list or string), and the entry
    just before it, if there is one, is true (a nonzero number or an
    expression node). *)
Theorem non_zero_len_spec (lst : list pyval) :
  non_zero_len lst <= length lst /\
  Forall (fun x => truthy x = false) (skipn (non_zero_len lst) lst) /\
  (forall k, non_zero_len lst = S k ->
     exists x, nth_error lst k = Some x /\ truthy x = true).
Proof.
  unfold non_zero_len.
  destruct (non_zero_len_from_spec (rev lst) 0 (length lst)) as (Hle & Hall & Hnth).
  { now rewrite length_rev. }
  rewrite length_rev in *.
  set (r := non_zero_len_from (length lst) (rev lst) 0) in *.
  split; [exact Hle | split].
  - rewrite firstn_rev in Hall.
    replace (length lst - (length lst - r)) with r in Hall by lia.
    apply Forall_rev in Hall. now rewrite rev_involutive in Hall.
  - intros k Hk. destruct (Hnth k Hk) as (x & Hx & Htx).
    exists x. split; [| exact Htx].
    rewrite nth_error_rev in Hx.
    destruct (Nat.ltb_spec (length lst - S k) (length lst)) as [_ | Hge];
      [| discriminate].
    replace (length lst - S (length lst - S k)) with k in Hx by lia.
    exact Hx.
Qed.

Lemma trim_from_spec (lst : list pyval) :
  forall ii,
    ii < length lst \/ ii = 0 ->
    exists out,
      trim_from lst ii = Ok out /\
      ((out = [] /\
        forall i x, 1 <= i <= ii -> nth_error lst i = Some x ->
                    py_ne x (Num 0) = false) \/
       (exists j x,
          1 <= j <= ii /\ out = firstn (S j) lst /\
          nth_error lst j = Some x /\ py_ne x (Num 0) = true /\
          forall i y, j < i <= ii -> nth_error lst i = Some y ->
                      py_ne y (Num 0) = false)).
Proof.
  induction ii as [| ii IH]; intros Hii.
  - exists []. split; [reflexivity |]. left. split; [reflexivity |].
    intros i x Hi. lia.
  - destruct Hii as [Hii | Hii]; [| discriminate].
    cbn [trim_from py_index].
    destruct (nth_error lst (S ii)) as [x |] eqn:Hx;
      [| apply nth_error_None in Hx; lia].
    cbn [rbind]. destruct (py_ne x (Num 0)) eqn:Hne.
    + exists (firstn (S ii + 1) lst). split; [reflexivity |]. right.
      exists (S ii), x. replace (S ii + 1) with (S (S ii)) by lia.
      repeat split; auto; try lia.
    + destruct IH as (out & Hout & Hcases); [lia |].
      exists out. split; [exact Hout |].
      destruct Hcases as [(-> & Hzero) | (j & y & Hj & -> & Hy & Hney & Hzero)].
      * left. split; [reflexivity |]. intros i z Hi Hz.
        destruct (Nat.eq_dec i (S ii)) as [-> | Hneq].
        -- congruence.
        -- apply (Hzero i z); [lia | exact Hz].
      * right. exists j, y. repeat split; auto; try lia.
        intros i z Hi Hz.
        destruct (Nat.eq_dec i (S ii)) as [-> | Hneq].
        -- congruence.
        -- apply (Hzero i z); [lia | exact Hz].
Qed.

(** X4: [trim_trailing_zeros] never raises and returns a prefix of the
    list that ends in an entry [!= 0], all entries after it being zero; but
    its loop stops before index 0, so the result never has exactly one
    entry: a list whose only nonzero entry is the first one is trimmed to
    the empty list. *)
Theorem trim_trailing_zeros_spec (lst : list pyval) :
  exists out,
    trim_trailing_zeros lst = Ok out /\
    out `prefix_of` lst /\
    length out <> 1 /\
    (forall x, last out = Some x -> py_ne x (Num 0) = true) /\
    Forall (fun x => py_ne x (Num 0) = false) (skipn (Nat.max 1 (length out)) lst).
Proof.
  unfold trim_trailing_zeros.
  destruct (trim_from_spec lst (length lst - 1)) as (out & Hout & Hcases).
  { destruct lst; simpl; [right; reflexivity | left; lia]. }
  exists out. split; [exact Hout |].
  destruct Hcases as [(-> & Hzero) | (j & x & Hj & -> & Hx & Hne & Hzero)].
  - split; [apply prefix_nil | split; [discriminate | split; [discriminate |]]].
    apply Forall_of_nth_error. intros i x Hi.
    cbn [length Nat.max] in Hi.
    rewrite nth_error_skipn in Hi. change (1 + i) with (S i) in Hi.
    assert (S i < length lst) by (apply nth_error_Some; congruence).
    apply (Hzero (S i) x); [lia | exact Hi].
  - assert (Hlen : length (firstn (S j) lst) = S j)
      by (rewrite length_firstn; lia).
    split; [apply prefix_take | split; [lia | split]].
    + intros y Hy.
      rewrite <- (firstn_skipn j (firstn (S j) lst)) in Hy.
      rewrite firstn_firstn in Hy. replace (Nat.min j (S j)) with j in Hy by lia.
      assert (Hd : skipn j (firstn (S j) lst) = [x]).
      { clear - Hx. revert lst Hx.
        induction j as [| j IHj]; intros [| a l] Hx; try discriminate.
        - simpl in Hx. injection Hx as ->. now destruct l.
        - simpl in Hx. exact (IHj l Hx). }
      rewrite Hd, last_snoc in Hy. now injection Hy as <-.
    + rewrite Hlen. replace (Nat.max 1 (S j)) with (S j) by lia.
      apply Forall_of_nth_error. intros i y Hi.
      rewrite nth_error_skipn in Hi.
      assert (S j + i < length lst) by (apply nth_error_Some; congruence).
      apply (Hzero (S j + i) y); [lia | exact Hi].
Qed.

(** ** Reading parameters *)

Lemma eval_list_value (vars : string -> float) (v : list float)
    (e : list (option expr)) :
  Forall2 (fun x ex => forall e', ex = Some e' -> expr_value vars e' = x) v e ->
  get_value vars (eval_list v e true) = PList (map Num v).
Proof.
  intros Hp. unfold eval_list. simpl. f_equal.
  induction Hp as [| x ex v e Hx _ IH]; [reflexivity |].
  simpl. rewrite IH. destruct ex as [e' |]; simpl; [| reflexivity].
  now rewrite (Hx e' eq_refl).
Qed.

(** X5: for a parameter whose formulas evaluate to the values stored with
    them, reading it through a view with the evaluator and taking the
    current value gives what the view without evaluator reads: the stored
    value.  This holds for numbers, lists (entry by entry) and strings. *)
Theorem getattr_value_agrees (vars : string -> float) (m : MadElem) (k : string)
    (p : cmd_parameter) :
  assoc k (el_cmdpar (me_elem m)) = Some p ->
  par_consistent vars p ->
  exists v,
    MadElem_getattr (set_madeval m true) k = Ok v /\
    MadElem_getattr (set_madeval m false) k = Ok (par_value p) /\
    get_value vars v = par_value p.
Proof.
  intros Hk Hp. unfold MadElem_getattr. cbn [set_madeval me_elem me_madeval].
  rewrite Hk. destruct p as [v e | v e | s]; cbn [par_value par_consistent] in *.
  - destruct e as [e' |].
    + eexists. repeat split. simpl. now rewrite (Hp e' eq_refl).
    + eexists. repeat split.
  - eexists. split; [reflexivity | split; [reflexivity |]].
    now apply eval_list_value.
  - eexists. repeat split.
Qed.

(** A length given by the formula [ld], with [ld] set to 1. *)
Lemma getattr_value_agrees_witness :
  exists v,
    MadElem_getattr (set_madeval sample_formulas true) "knl" = Ok v /\
    MadElem_getattr (set_madeval sample_formulas false) "knl"
    = Ok (PList [Num 0; Num 1]) /\
    get_value sample_vars v = PList [Num 0; Num 1].
Proof.
  apply (getattr_value_agrees sample_vars sample_formulas "knl"
           (ParList [0; 1]%float [None; Some (EVar "ld")])).
  - reflexivity.
  - simpl. repeat constructor; intros e' H; [discriminate |].
    injection H as <-. reflexivity.
Defined.

(** X6: for a key that names a parameter, [get(key, default)] never
    raises.  It gives the default exactly when the key is neither assigned
    on the view nor a parameter of the record, and the attribute
    otherwise. *)
Theorem get_default (m : MadElem) (key : string) (default : pyval) :
  parameter_name key ->
  (exists v, get m key default = Ok v) /\
  (assoc key (me_dict m) = None ->
   assoc key (el_cmdpar (me_elem m)) = None ->
   get m key default = Ok default) /\
  (is_Some (assoc key (me_dict m)) \/
   is_Some (assoc key (el_cmdpar (me_elem m))) ->
   get m key default = attr m key /\ attr m key <> Raise (AttributeError key)).
Proof.
  intros _. unfold get, attr, MadElem_getattr.
  destruct (assoc key (me_dict m)) as [v |] eqn:Hd.
  - repeat split; eauto; discriminate.
  - destruct (assoc key (el_cmdpar (me_elem m))) as [[v e | v e | s] |] eqn:Hp.
    + destruct (me_madeval m), e; repeat split; eauto; discriminate.
    + repeat split; eauto; discriminate.
    + repeat split; eauto; discriminate.
    + split; [eauto | split; [reflexivity |]].
      intros [[x Hx] | [x Hx]]; discriminate.
Qed.

(** The tilt of a record that has none: the default. *)
Lemma get_default_witness :
  get (sample_view "d1" "drift" [("l", ParNum 1 None)]) "tilt" (Num 0)
  = Ok (Num 0).
Proof.
  destruct (get_default (sample_view "d1" "drift" [("l", ParNum 1 None)])
              "tilt" (Num 0)) as (_ & H & _).
  - split; reflexivity.
  - apply H; reflexivity.
Defined.

(** ** Permanent misalignment *)

Lemma misaligned_init (el : cpymad_element) (name : string) (madeval : bool)
    (name_prefix : option string) :
  el_base_type el <> "translation" ->
  raw_any el misalignments = Ok true ->
  MadElem_init name el madeval name_prefix = Raise (NotImplementedError "").
Proof.
  intros Hty Hmis. unfold MadElem_init.
  apply String.eqb_neq in Hty. rewrite Hty. cbn [negb].
  fold misalignments. now rewrite Hmis.
Qed.

Lemma iter_loop_misaligned (self : MadLoader) (madeval : bool)
    (el : cpymad_element) (els : list cpymad_element) :
  In el els ->
  el_base_type el <> "translation" ->
  raw_any el misalignments = Ok true ->
  forall last, exists e, snd (iter_loop self madeval last els) = Some e.
Proof.
  intros Hin Hty Hmis.
  induction els as [| el' els IH]; [contradiction |]. intros last.
  cbn [iter_loop]. destruct (iter_step self madeval last el') as [[ys last'] | e] eqn:Hstep.
  - destruct Hin as [-> | Hin].
    + unfold iter_step in Hstep.
      rewrite (misaligned_init el _ _ _ Hty Hmis) in Hstep. discriminate.
    + destruct (IH Hin last') as (e & He).
      destruct (iter_loop self madeval last' els). simpl in *. eauto.
  - simpl. eauto.
Qed.

(** X7: a record other than a translation that carries a nonzero
    permanent misalignment ([dphi], [dtheta], [dpsi], [dx], [dy] or [ds])
    stops the iteration with [NotImplementedError] as soon as it is
    reached, before the pending element is yielded and whatever the
    skipping, merging and ignoring options say about its type; and
    [make_line] returns no line for a sequence that holds such a record. *)
Theorem misaligned_record_refused (vars : string -> float)
    (np_tan : float -> float) (self : MadLoader) (el : cpymad_element) :
  In el (expanded_elements self) ->
  el_base_type el <> "translation" ->
  raw_any el misalignments = Ok true ->
  (forall madeval last rest,
      iter_loop self madeval last (el :: rest)
      = ([], Some (NotImplementedError ""))) /\
  exists printed e, make_line vars np_tan self = (printed, Raise e).
Proof.
  intros Hin Hty Hmis. split.
  - intros madeval last rest. cbn [iter_loop]. unfold iter_step.
    now rewrite (misaligned_init el _ _ _ Hty Hmis).
  - unfold make_line. rewrite iter_elements_set_Builder.
    unfold iter_elements.
    destruct (expanded_elements self) as [| el0 els] eqn:Hels; [contradiction |].
    destruct (iter_loop_misaligned self (enable_expressions self) el
                (el0 :: els) Hin Hty Hmis None) as (e & He).
    destruct (iter_loop self (enable_expressions self) None (el0 :: els))
      as [ys err]. simpl in He. subst err.
    destruct (convert_elements _ _ _ _ _ _ _ _) as [printed [[s l] | e']]; eauto.
Qed.

(** A monitor displaced by one millimetre, its type in the ignore list. *)
Lemma misaligned_record_witness :
  exists printed e,
    make_line no_vars tan_series
      (skipping_loader
         [sample_drift_record "d1" 1;
          sample_record "bpm" "monitor" [("dx", ParNum 0.001 None)]])
    = (printed, Raise e).
Proof.
  refine (proj2 (misaligned_record_refused no_vars tan_series
    (skipping_loader
       [sample_drift_record "d1" 1;
        sample_record "bpm" "monitor" [("dx", ParNum 0.001 None)]])
    (sample_record "bpm" "monitor" [("dx", ParNum 0.001 None)]) _ _ _)).
  - right. left. reflexivity.
  - discriminate.
  - reflexivity.
Defined.

(** ** Field errors of merged multipoles *)

Lemma add_field_errors_sums (n : nat) :
  forall (ii : nat) (p1 p2 s1 s2 q1 q2 o1 o2 : list float),
    length p1 = ii -> length p2 = ii -> length q1 = ii -> length q2 = ii ->
    length s1 = n -> length s2 = n -> length o1 = n -> length o2 = n ->
    add_field_errors n ii (p1 ++ s1) (p2 ++ s2) (q1 ++ o1) (q2 ++ o2)
    = Ok (p1 ++ zip_with PrimFloat.add s1 o1, p2 ++ zip_with PrimFloat.add s2 o2).
Proof.
  induction n as [| n IH]; intros ii p1 p2 s1 s2 q1 q2 o1 o2 P1 P2 Q1 Q2 S1 S2 O1 O2.
  - destruct s1, s2; try discriminate. reflexivity.
  - destruct s1 as [| x s1], s2 as [| x' s2], o1 as [| y o1], o2 as [| y' o2];
      try discriminate.
    cbn [add_field_errors].
    rewrite !nth_error_app2 by lia.
    rewrite P1, P2, Q1, Q2, Nat.sub_diag. cbn [nth_error].
    rewrite !insert_app_r_alt by lia.
    rewrite P1, P2, Nat.sub_diag. cbn [insert list_insert].
    change (p1 ++ (x + y)%float :: s1) with (p1 ++ [(x + y)%float] ++ s1).
    change (p2 ++ (x' + y')%float :: s2) with (p2 ++ [(x' + y')%float] ++ s2).
    change (q1 ++ y :: o1) with (q1 ++ [y] ++ o1).
    change (q2 ++ y' :: o2) with (q2 ++ [y'] ++ o2).
    rewrite !app_assoc.
    rewrite IH; try (rewrite ?length_app; simpl in *; lia).
    rewrite <- !app_assoc. reflexivity.
Qed.

(** X8: when [merge_multipole] accepts and both multipoles carry field
    errors, with arrays of one common length, the field errors of the
    merged multipole are the sums entry by entry, and its name is the two
    names joined by an underscore. *)
Theorem merge_multipole_field_errors (self other m : MadElem) (s o : FieldErrors) :
  merge_multipole self other = Ok (true, m) ->
  me_field_errors self = Some s ->
  me_field_errors other = Some o ->
  length (dks s) = length (dkn s) ->
  length (dkn o) = length (dkn s) ->
  length (dks o) = length (dkn s) ->
  me_field_errors m
  = Some {| dkn := zip_with PrimFloat.add (dkn s) (dkn o);
            dks := zip_with PrimFloat.add (dks s) (dks o) |} /\
  me_name m = me_name self +:+ "_" +:+ me_name other.
Proof.
  unfold merge_multipole. intros H Hs Ho L1 L2 L3.
  destruct (and_then _ _) as [[|] | e]; cbn [rbind] in H;
    [| discriminate | discriminate].
  repeat match type of H with
         | context [rbind ?x _] => destruct x eqn:?; cbn [rbind] in H
         end; try discriminate H.
  injection H as <-. cbn [me_field_errors me_name setattr] in *. split; [| reflexivity].
  pose proof (add_field_errors_sums (length (dkn s)) 0 [] [] (dkn s) (dks s)
                [] [] (dkn o) (dks o) eq_refl eq_refl eq_refl eq_refl
                eq_refl L1 L2 L3) as Hsum.
  cbn [app] in Hsum.
  match goal with
  | E : _ = Ok ?fe |- ?fe = _ =>
      rewrite Hs, Ho, Hsum in E; cbn [rbind fst snd] in E; injection E as <-
  end.
  reflexivity.
Qed.

(** Two multipoles with field errors on the first two orders. *)
Lemma merge_multipole_field_errors_witness :
  exists m,
    merge_multipole (sample_multipole_errors "mp1" [1; 2]%float [0; 3]%float)
                    (sample_multipole_errors "mp2" [10; 20]%float [5; 0]%float)
    = Ok (true, m) /\
    me_field_errors m = Some {| dkn := [11; 22]%float; dks := [5; 3]%float |}.
Proof.
  eexists. split; [vm_compute; reflexivity |].
  refine (proj1 (merge_multipole_field_errors
                   (sample_multipole_errors "mp1" [1; 2]%float [0; 3]%float)
                   (sample_multipole_errors "mp2" [10; 20]%float [5; 0]%float)
                   _ _ _ _ eq_refl eq_refl eq_refl eq_refl eq_refl)).
  vm_compute. reflexivity.
Defined.

(** ** Aperture transforms and shapes *)

Lemma py_neg_scalar (x : pyval) : scalar x -> exists x', py_neg x = Ok x'.
Proof. intros [e He]. destruct x; simpl in *; try discriminate; eauto. Qed.

(** X9: for an aperture whose tilt and offsets are numbers or expression
    nodes, [exit()] never raises and its transforms are those of [entry()]
    inverted, in reverse order: for any maps of the rotation and the offset
    that a negated parameter inverts, the elements of [entry()] followed by
    those of [exit()] leave every point where it was. *)
Theorem aperture_entry_exit_inverse
    (point : Type) (rotate : pyval -> point -> point)
    (shift : pyval -> pyval -> point -> point) (a : Aperture) :
  scalar (ap_aper_tilt a) ->
  scalar (ap_dx a) ->
  scalar (ap_dy a) ->
  (forall x x' p, py_neg x = Ok x' -> rotate x' (rotate x p) = p) ->
  (forall x y x' y' p,
      py_neg x = Ok x' -> py_neg y = Ok y' -> shift x' y' (shift x y p) = p) ->
  exists ex,
    Aperture_exit a = Ok ex /\
    length ex = length (Aperture_entry a) /\
    map transform_of ex = rev (map inverse_of (Aperture_entry a)) /\
    Forall (fun b => is_Some (transform_of b)) (Aperture_entry a ++ ex) /\
    forall p : point, track point rotate shift (Aperture_entry a ++ ex) p = p.
Proof.
  intros Ht Hx Hy Hrot Hshift.
  destruct (py_neg_scalar _ Ht) as (nt & Hnt).
  destruct (py_neg_scalar _ Hx) as (nx & Hnx).
  destruct (py_neg_scalar _ Hy) as (ny & Hny).
  unfold Aperture_exit, Aperture_entry, inverse_of, track.
  rewrite Hnt, Hnx, Hny.
  destruct (truthy (ap_aper_tilt a)), (truthy (ap_dx a) || truthy (ap_dy a));
    cbn [rbind app]; eexists; (split; [reflexivity |]);
    (split; [reflexivity |]);
    (split; [simpl; rewrite ?Hnt, ?Hnx, ?Hny; reflexivity |]);
    (split; [repeat constructor; simpl; eauto |]);
    intros p; cbn;
    rewrite ?(Hshift _ _ _ _ _ Hnx Hny), ?(Hrot _ _ _ Hnt); reflexivity.
Qed.

Lemma plane_rotate_back (x x' : pyval) (p : R * R) :
  py_neg x = Ok x' -> plane_rotate x' (plane_rotate x p) = p.
Proof.
  destruct x as [a | e | s | l]; simpl; intros H; try discriminate;
    injection H as <-.
  - apply plane_rotate_inverse.
  - destruct p as [u v]. unfold plane_rotate. cbn [real_of fst snd].
    replace (0 * PI / 180)%R with 0%R by (unfold Rdiv; ring).
    rewrite cos_0, sin_0. f_equal; ring.
Qed.

Lemma plane_shift_back (x y x' y' : pyval) (p : R * R) :
  py_neg x = Ok x' -> py_neg y = Ok y' ->
  plane_shift x' y' (plane_shift x y p) = p.
Proof.
  destruct p as [u v].
  destruct x as [a | e | s | l]; simpl; intros H; try discriminate;
    injection H as <-;
    destruct y as [b | e' | s' | l']; simpl; intros H; try discriminate;
    injection H as <-;
    unfold plane_shift; rewrite ?real_of_opp; cbn [real_of fst snd];
    f_equal; ring.
Qed.

(** An aperture tilted by 2 degrees and displaced vertically. *)
Lemma aperture_entry_exit_witness :
  exists ex,
    Aperture_exit {| ap_mad_el := sample_octagon; ap_aper_tilt := Num 2;
                     ap_name := "mb"; ap_dx := Num 0; ap_dy := Num 0.002;
                     ap_apertype := Str "octagon"; ap_Builder := false |}
    = Ok ex /\
    length ex = 2.
Proof.
  destruct (aperture_entry_exit_inverse (R * R) plane_rotate plane_shift
              {| ap_mad_el := sample_octagon; ap_aper_tilt := Num 2;
                 ap_name := "mb"; ap_dx := Num 0; ap_dy := Num 0.002;
                 ap_apertype := Str "octagon"; ap_Builder := false |})
    as (ex & Hex & Hlen & _).
  - unfold scalar. simpl. eauto.
  - unfold scalar. simpl. eauto.
  - unfold scalar. simpl. eauto.
  - intros x x' p. apply plane_rotate_back.
  - intros x y x' y' p. apply plane_shift_back.
  - exists ex. split; [exact Hex | exact Hlen].
Defined.

Lemma every_other_nth {A : Type} (l : list A) :
  forall i, nth_error (every_other l) i = nth_error l (2 * i).
Proof.
  assert (H : forall n (l : list A), length l <= n ->
                forall i, nth_error (every_other l) i = nth_error l (2 * i)).
  { induction n as [| n IH]; intros [| x [| y l']] Hlen i; simpl in Hlen;
      try lia; try (destruct i; reflexivity).
    - destruct i as [| i]; [reflexivity |].
      replace (2 * S i) with (S (S (2 * i))) by lia.
      simpl. destruct i; reflexivity.
    - destruct i as [| i]; [reflexivity |].
      replace (2 * S i) with (S (S (2 * i))) by lia.
      cbn [every_other nth_error]. apply IH. lia. }
  exact (H (length l) l (le_n _)).
Qed.

Lemma every_other_length {A : Type} (l : list A) :
  length (every_other l) = Nat.div2 (S (length l)).
Proof.
  assert (H : forall n (l : list A), length l <= n ->
                length (every_other l) = Nat.div2 (S (length l))).
  { induction n as [| n IH]; intros [| x [| y l']] Hlen; simpl in Hlen;
      try lia; try reflexivity.
    cbn [every_other length]. rewrite IH by lia. reflexivity. }
  exact (H (length l) l (le_n _)).
Qed.

(** X10: [convert_polygon] takes the entries of even index of [aper_vx] as
    the horizontal coordinates and the entries of odd index of [aper_vy] as
    the vertical ones: for arrays of [n] entries each it gives
    [(n + 1) / 2] horizontal and [n / 2] vertical coordinates, which differ
    in number when [n] is odd. *)
Theorem convert_polygon_vertices (self : MadLoader) (ee : MadElem)
    (xs ys : list pyval) :
  attr ee "aper_vx" = Ok (PList xs) ->
  attr ee "aper_vy" = Ok (PList ys) ->
  exists vx vy,
    convert_polygon self ee
    = Ok [Builder_call (Builder self) (me_name ee +:+ "_aper") LimitPolygon
            [("x_vertices", PList vx); ("y_vertices", PList vy)]] /\
    (forall i, nth_error vx i = nth_error xs (2 * i)) /\
    (forall i, nth_error vy i = nth_error ys (2 * i + 1)) /\
    length vx = Nat.div2 (S (length xs)) /\
    length vy = Nat.div2 (length ys).
Proof.
  intros Hx Hy. unfold convert_polygon. rewrite Hx, Hy. cbn [rbind py_stride2].
  eexists. eexists. split; [reflexivity |].
  split; [apply every_other_nth | split; [| split]].
  - intros i. rewrite every_other_nth, nth_error_skipn. f_equal. lia.
  - simpl. apply every_other_length.
  - rewrite every_other_length, length_skipn.
    destruct ys as [| y ys']; [reflexivity |]. cbn [length].
    f_equal. lia.
Qed.

(** Arrays of three entries: two horizontal coordinates, one vertical. *)
Lemma convert_polygon_witness :
  exists vx vy,
    convert_polygon (default_loader []) sample_polygon
    = Ok [Builder_call false "tcp_aper" LimitPolygon
            [("x_vertices", PList vx); ("y_vertices", PList vy)]] /\
    length vx = 2 /\ length vy = 1.
Proof.
  destruct (convert_polygon_vertices (default_loader []) sample_polygon
              [Num 1; Num 10; Num 2] [Num 20; Num 3; Num 30]
              eq_refl eq_refl) as (vx & vy & H & _ & _ & Lx & Ly).
  exists vx, vy. split; [exact H | split; [exact Lx | exact Ly]].
Defined.

(** X11: the shape rules read a fixed number of leading entries of the
    [aperture] array and ignore the rest.  On an array of numbers or
    expression nodes, the rectangle and the ellipse need two entries, the
    racetrack and the rectellipse four, and fail to unpack a shorter array
    ([ValueError]); the circle needs one and raises [IndexError] on the empty
    array. *)
Theorem aperture_shape_arity (self : MadLoader) (mad_el : MadElem)
    (ap : list pyval) :
  attr mad_el "aperture" = Ok (PList ap) ->
  Forall scalar ap ->
  (ap = [] -> convert_circle self mad_el = Raise IndexError) /\
  (1 <= length ap -> exists b, convert_circle self mad_el = Ok [b]) /\
  (length ap < 2 ->
   (exists msg, convert_rectangle self mad_el = Raise (ValueError msg)) /\
   (exists msg, convert_ellipse self mad_el = Raise (ValueError msg))) /\
  (2 <= length ap ->
   (exists b, convert_rectangle self mad_el = Ok [b]) /\
   (exists b, convert_ellipse self mad_el = Ok [b])) /\
  (length ap < 4 ->
   (exists msg, convert_racetrack self mad_el = Raise (ValueError msg)) /\
   (exists msg, convert_rectellipse self mad_el = Raise (ValueError msg))) /\
  (4 <= length ap ->
   (exists b, convert_racetrack self mad_el = Ok [b]) /\
   (exists b, convert_rectellipse self mad_el = Ok [b])).
Proof.
  intros Hap Hsc.
  unfold convert_circle, convert_rectangle, convert_ellipse, convert_racetrack,
    convert_rectellipse.
  rewrite Hap. cbn [rbind py_take py_index].
  destruct ap as [| h [| v [| a [| b rest]]]]; cbn [firstn nth_error rbind length];
    repeat match goal with
           | H : Forall scalar (_ :: _) |- _ =>
               let Hh := fresh "Hh" in
               apply List.Forall_cons_iff in H as [Hh H];
               apply py_neg_scalar in Hh as [? Hh]; rewrite ?Hh
           end;
    cbn [rbind];
    repeat split; intros; try lia; try discriminate; eauto.
Qed.

(** An aperture array of one entry: a circle, but no ellipse. *)
Lemma aperture_shape_witness :
  (exists b,
      convert_circle (default_loader [])
        (sample_view "m" "marker" [("aperture", ParList [0.02]%float [None])])
      = Ok [b]) /\
  (exists msg,
      convert_ellipse (default_loader [])
        (sample_view "m" "marker" [("aperture", ParList [0.02]%float [None])])
      = Raise (ValueError msg)).
Proof.
  pose proof (aperture_shape_arity (default_loader [])
                (sample_view "m" "marker" [("aperture", ParList [0.02]%float [None])])
                [Num 0.02] eq_refl) as H.
  destruct H as (_ & Hc & He & _).
  - repeat constructor. unfold scalar. simpl. eauto.
  - split; [apply Hc; simpl; lia | apply He; simpl; lia].
Defined.

(** ** Compounds *)




(** ** Counting the elements of a line *)

Lemma line_wf_size (line : Line) :
  line_wf line -> size (element_dict line) = length (element_names line).
Proof.
  intros [Hnd Hkeys].
  rewrite <- size_dom, <- (size_list_to_set (C := gset string)) by exact Hnd.
  f_equal. apply set_eq. intros n.
  rewrite elem_of_dom, elem_of_list_to_set. symmetry. apply Hkeys.
Qed.

Lemma add_all_count (vars : string -> float) (bs : list ElementBuilder) :
  forall line,
    length (element_names (add_all vars bs line))
    = length (element_names line) + length bs.
Proof.
  induction bs as [| b bs IH]; intros line; simpl; [lia |].
  change (add_all vars (b :: bs) line)
    with (add_all vars bs (add_to_line vars b line)).
  rewrite IH. unfold add_to_line, append_element. cbn [element_names].
  rewrite length_app. simpl. lia.
Qed.

Lemma add_elements_names_count (vars : string -> float) (bs : list builder) :
  forall line,
    length (element_names (add_elements vars bs line))
    = length (element_names line) + list_sum (map n_elements bs).
Proof.
  induction bs as [| b bs IH]; intros line; simpl; [lia |].
  change (add_elements vars (b :: bs) line)
    with (add_elements vars bs (builder_add_to_line vars b line)).
  rewrite IH. destruct b as [e | c]; cbn [builder_add_to_line n_elements].
  - unfold add_to_line, append_element. cbn [element_names].
    rewrite length_app. simpl. lia.
  - unfold add_compound_to_line, define_compound. cbn [element_names].
    rewrite add_all_count. cbn [components].
    rewrite !length_app. simpl. lia.
Qed.

(** X13: [add_elements] appends exactly one name per element builder, and
    for a compound one per component and two for its markers; on a line
    with distinct names the dictionary grows by as many entries, so no
    element takes the place of another. *)
Theorem add_elements_count (vars : string -> float) (bs : list builder)
    (line : Line) :
  length (element_names (add_elements vars bs line))
  = length (element_names line) + list_sum (map n_elements bs) /\
  (line_wf line ->
   size (element_dict (add_elements vars bs line))
   = size (element_dict line) + list_sum (map n_elements bs)).
Proof.
  pose proof (add_elements_names_count vars) as Hcount.
  split; [apply Hcount |].
  intros Hwf.
  destruct (add_elements_grows vars bs line) as (Hwf' & _ & _).
  rewrite (line_wf_size _ (Hwf' Hwf)), (line_wf_size _ Hwf). apply Hcount.
Qed.

(** ** Repeated names *)

Lemma add_elements_snoc (vars : string -> float) (bs : list builder)
    (b : builder) (line : Line) :
  add_elements vars (bs ++ [b]) line
  = builder_add_to_line vars b (add_elements vars bs line).
Proof. unfold add_elements. now rewrite fold_left_app. Qed.

(** X14: element builders that all have the same name, put one after the
    other into an empty line, get the name itself and then the name with
    the suffixes [:0], [:1], [:2], ... in the order of insertion. *)
Theorem repeated_names_numbered (vars : string -> float) (name : string)
    (b : ElementBuilder) (bs : list ElementBuilder) :
  Forall (fun b' => eb_name b' = name) (b :: bs) ->
  element_names (add_elements vars (map EB (b :: bs)) Line_new)
  = name :: map (suffixed name) (seq 0 (length bs)).
Proof.
  intros Hall. apply List.Forall_cons_iff in Hall as [Hb Hbs].
  induction bs as [| b' bs IH] using rev_ind.
  - unfold add_elements. cbn [map fold_left builder_add_to_line].
    rewrite add_to_line_fresh by apply lookup_empty.
    unfold append_element. cbn [element_names Line_new length seq map app].
    now rewrite Hb.
  - apply Forall_app in Hbs as [Hbs Hb']. apply Forall_inv in Hb'.
    specialize (IH Hbs).
    change (map EB (b :: bs ++ [b'])) with (map EB ((b :: bs) ++ [b'])).
    rewrite map_app. cbn [map]. rewrite add_elements_snoc.
    set (line := add_elements vars (map EB (b :: bs)) Line_new) in *.
    destruct (add_elements_grows vars (map EB (b :: bs)) Line_new) as (Hwf & _ & _).
    fold line in Hwf. specialize (Hwf line_wf_new). destruct Hwf as [_ Hkeys].
    assert (Hin : forall i, is_Some (element_dict line !! suffixed name i)
                            <-> i < length bs).
    { intros i. rewrite <- Hkeys, IH, elem_of_cons. split.
      - intros [H | H]; [now apply suffixed_neq in H |].
        apply list_elem_of_In, in_map_iff in H as (j & Hj & Hlt).
        apply suffixed_inj in Hj. subst j. apply in_seq in Hlt. lia.
      - intros Hlt. right. apply list_elem_of_In, in_map_iff.
        exists i. split; [reflexivity | apply in_seq; lia]. }
    cbn [builder_add_to_line]. unfold add_to_line. rewrite Hb'.
    change (add_elements vars (EB b :: map EB bs) Line_new) with line.
    destruct (generate_repeated_name_present line name) as (i & Hgen & Hi & Hlt).
    { apply Hkeys. rewrite IH. left. }
    rewrite Hgen. unfold append_element. cbn [element_names]. rewrite IH.
    assert (i = length bs) as ->.
    { destruct (Nat.lt_trichotomy i (length bs)) as [H | [H | H]]; [| exact H |].
      - apply Hin in H. rewrite Hi in H. now destruct H.
      - apply Hlt, Hin in H. lia. }
    rewrite length_app. simpl. rewrite Nat.add_1_r, seq_S, map_app. reflexivity.
Qed.

(** Four drifts named [d]. *)
Lemma repeated_names_witness :
  element_names
    (add_elements no_vars
       (map EB [Builder_call false "d" Drift [("length", Num 1)];
                Builder_call false "d" Drift [("length", Num 2)];
                Builder_call false "d" Drift [("length", Num 3)];
                Builder_call false "d" Drift [("length", Num 4)]]) Line_new)
  = "d" :: map (suffixed "d") (seq 0 3).
Proof.
  apply (repeated_names_numbered no_vars "d"). repeat constructor.
Defined.

(** ** What the iteration yields *)

Lemma aligned_view (self : MadLoader) (madeval : bool) (el : cpymad_element) :
  aligned el ->
  MadElem_init (el_name el) el madeval (name_prefix self)
  = Ok (view_of self madeval el).
Proof.
  intros [Hty | Hmis]; unfold MadElem_init.
  - rewrite Hty. reflexivity.
  - fold misalignments. rewrite Hmis.
    destruct (negb _); reflexivity.
Qed.

Lemma iter_loop_plain (self : MadLoader) (madeval : bool) :
  skip_markers self = false ->
  merge_drifts self = false ->
  merge_multipoles self = false ->
  forall els last,
    Forall aligned els ->
    iter_loop self madeval last els
    = (yield_all (pending last ++
                  map (view_of self madeval) (List.filter (kept self) els)),
       None).
Proof.
  intros Hskip Hmd Hmm els.
  induction els as [| el els IH]; intros last Hall.
  - simpl. destruct last; reflexivity.
  - apply List.Forall_cons_iff in Hall as [Hel Hall].
    cbn [iter_loop]. unfold iter_step.
    rewrite (aligned_view self madeval el Hel). cbn [rbind].
    rewrite Hskip, Hmd, Hmm. cbn [rbind andb].
    change (me_type (view_of self madeval el)) with (el_base_type el).
    cbn [List.filter]. unfold kept at 1.
    destruct (in_list (el_base_type el) (ignore_madtypes self)); cbn [negb].
    + rewrite (IH last Hall). reflexivity.
    + rewrite (IH _ Hall). cbn [pending map app].
      destruct last; reflexivity.
Qed.

(** X15: with marker skipping and both merges switched off,
    [iter_elements] yields the views of the records whose type is not in
    the ignore list, one for one and in the order of the sequence, each
    under its prefixed name; it yields the sentinel only when no record is
    left. *)
Theorem iter_elements_plain (self : MadLoader) (madeval : bool) :
  skip_markers self = false ->
  merge_drifts self = false ->
  merge_multipoles self = false ->
  expanded_elements self <> [] ->
  Forall aligned (expanded_elements self) ->
  iter_elements self madeval
  = (yield_all (map (view_of self madeval)
                  (List.filter (kept self) (expanded_elements self))),
     None).
Proof.
  intros Hskip Hmd Hmm Hne Hall. unfold iter_elements.
  destruct (expanded_elements self) as [| el els] eqn:Hels; [contradiction |].
  rewrite (iter_loop_plain self madeval Hskip Hmd Hmm (el :: els) None Hall).
  reflexivity.
Qed.

(** A drift, two monitors and a marker, with the default options. *)
Lemma iter_elements_plain_witness :
  iter_elements
    (default_loader
       [sample_drift_record "d1" 1;
        sample_record "bpm" "monitor" [("l", ParNum 0 None)];
        sample_record "end" "marker" no_aperture]) false
  = ([Some (sample_view "d1" "drift" [("l", ParNum 1 None)]);
      Some (sample_view "bpm" "monitor" [("l", ParNum 0 None)]);
      Some (sample_view "end" "marker" no_aperture)], None).
Proof.
  apply (iter_elements_plain
           (default_loader
              [sample_drift_record "d1" 1;
               sample_record "bpm" "monitor" [("l", ParNum 0 None)];
               sample_record "end" "marker" no_aperture]) false);
    try reflexivity.
  - discriminate.
  - repeat constructor; right; reflexivity.
Defined.

Lemma merge_multipole_elem (self other m : MadElem) (b : bool) :
  merge_multipole self other = Ok (b, m) -> me_elem m = me_elem self.
Proof.
  unfold merge_multipole. intros H.
  destruct (and_then _ _) as [[|] | e]; cbn [rbind] in H;
    [| now injection H as _ <- | discriminate].
  repeat match type of H with
         | context [rbind ?x _] => destruct x; cbn [rbind] in H
         end; try discriminate H.
  now injection H as _ <-.
Qed.

Lemma allowed_elem (self : MadLoader) (m m' : MadElem) :
  me_elem m' = me_elem m -> allowed self (Some m) -> allowed self (Some m').
Proof.
  unfold allowed, is_empty_marker, me_type, has_aperture.
  intros ->. auto.
Qed.

Lemma iter_step_allowed (self : MadLoader) (madeval : bool)
    (last last' : option MadElem) (el : cpymad_element)
    (ys : list (option MadElem)) :
  In el (expanded_elements self) ->
  allowed self last ->
  iter_step self madeval last el = Ok (ys, last') ->
  Forall (allowed self) ys /\ allowed self last'.
Proof.
  intros Hin Hlast. unfold iter_step.
  destruct (MadElem_init _ _ _ _) as [madelem | e] eqn:Hinit; cbn [rbind];
    [| discriminate].
  apply MadElem_init_elem in Hinit.
  destruct (if skip_markers self then is_empty_marker madelem else Ok false)
    as [[|] | e] eqn:Hskip; cbn [rbind]; [| | discriminate].
  { intros H. injection H as <- <-. auto. }
  assert (Hnew : in_list (me_type madelem) (ignore_madtypes self) = false ->
                 allowed self (Some madelem)).
  { intros Hign. split; [now rewrite Hinit | split; [exact Hign |]].
    intros Hs. now rewrite Hs in Hskip. }
  destruct (merge_drifts self && _ && _).
  { destruct last as [l |]; [| discriminate]. case_rbind; try discriminate.
    intros H. injection H as <- <-. split; [constructor |].
    now apply (allowed_elem self l). }
  destruct (merge_multipoles self && String.eqb (slot_type last) "multipole"
            && String.eqb (me_type madelem) "multipole") eqn:Hmult.
  { destruct last as [l |]; [| discriminate].
    apply andb_true_iff in Hmult as [Hmult Hty].
    apply andb_true_iff in Hmult as [_ Hlty].
    apply String.eqb_eq in Hty, Hlty. cbn [slot_type] in Hlty.
    destruct (merge_multipole l madelem) as [[b m] |] eqn:Hmerge; cbn [rbind];
      [| discriminate].
    pose proof (merge_multipole_elem _ _ _ _ Hmerge) as Helem.
    cbn [fst snd]. destruct b; intros H; injection H as <- <-.
    - split; [constructor |]. now apply (allowed_elem self l).
    - split.
      + constructor; [| constructor]. now apply (allowed_elem self l).
      + apply Hnew. rewrite Hty, <- Hlty. apply Hlast. }
  destruct (in_list (me_type madelem) (ignore_madtypes self)) eqn:Hign.
  { intros H. injection H as <- <-. auto. }
  intros H. injection H as <- <-. split; [| now apply Hnew].
  destruct last; constructor; auto.
Qed.

Lemma iter_loop_allowed (self : MadLoader) (madeval : bool) :
  forall els last,
    (forall el, In el els -> In el (expanded_elements self)) ->
    allowed self last ->
    Forall (allowed self) (fst (iter_loop self madeval last els)).
Proof.
  induction els as [| el els IH]; intros last Hsub Hlast.
  - simpl. constructor; [exact Hlast | constructor].
  - cbn [iter_loop].
    destruct (iter_step self madeval last el) as [[ys last'] | e] eqn:Hstep;
      [| constructor].
    destruct (iter_step_allowed self madeval last last' el ys
                (Hsub el (or_introl eq_refl)) Hlast Hstep) as [Hys Hlast'].
    specialize (IH last' (fun x Hx => Hsub x (or_intror Hx)) Hlast').
    destruct (iter_loop self madeval last' els). cbn [fst] in *.
    apply Forall_app. auto.
Qed.

(** X16: whatever the options, every view that [iter_elements] yields
    stands for a record of the sequence; its type is never in the ignore
    list, and when empty markers are skipped it is never an empty marker. *)
Theorem iter_elements_allowed (self : MadLoader) (madeval : bool) :
  Forall (allowed self) (fst (iter_elements self madeval)).
Proof.
  unfold iter_elements.
  destruct (expanded_elements self) as [| el els] eqn:Hels; [constructor |].
  apply iter_loop_allowed; [| exact I].
  intros x Hx. now rewrite Hels.
Qed.


(** Two drifts merged into one and an ignored monitor: one view, which
    stands for the first drift. *)
Example iter_elements_allowed_example :
  iter_elements
    (set_merge_drifts
       (default_loader
          [sample_drift_record "d1" 1; sample_drift_record "d2" 2;
           sample_record "bpm" "monitor" [("l", ParNum 0 None)]])
       ["monitor"]) false
  = ([Some (setattr (sample_view "d1" "drift" [("l", ParNum 1 None)])
              "l" (Num 3))], None).
Proof. vm_compute. reflexivity. Qed.

(** ** The progress display *)

Lemma iter_step_yields (self : MadLoader) (madeval : bool)
    (last last' : option MadElem) (el : cpymad_element)
    (ys : list (option MadElem)) :
  iter_step self madeval last el = Ok (ys, last') ->
  length ys <= 1 /\ (last = None -> ys = []) /\ (last' = None -> last = None).
Proof.
  unfold iter_step.
  destruct (MadElem_init _ _ _ _) as [madelem | e]; cbn [rbind]; [| discriminate].
  destruct (if skip_markers self then is_empty_marker madelem else Ok false)
    as [[|] | e]; cbn [rbind]; [| | discriminate].
  { intros H. injection H as <- <-. simpl. auto. }
  destruct (merge_drifts self && _ && _).
  { destruct last as [l |]; [| discriminate]. case_rbind; try discriminate.
    intros H. injection H as <- <-. simpl. repeat split; auto; discriminate. }
  destruct (merge_multipoles self && _ && _).
  { destruct last as [l |]; [| discriminate].
    destruct (merge_multipole l madelem) as [[[|] m] | e]; cbn [rbind fst snd];
      [| | discriminate];
      intros H; injection H as <- <-; simpl; repeat split; auto; discriminate. }
  destruct (in_list (me_type madelem) (ignore_madtypes self)).
  { intros H. injection H as <- <-. simpl. auto. }
  intros H. injection H as <- <-.
  destruct last; simpl; repeat split; auto; discriminate.
Qed.

Lemma iter_loop_count (self : MadLoader) (madeval : bool) :
  forall els last,
    length (fst (iter_loop self madeval last els))
    <= match last with
       | None => Nat.max 1 (length els)
       | Some _ => S (length els)
       end.
Proof.
  induction els as [| el els IH]; intros last.
  - simpl. destruct last; lia.
  - cbn [iter_loop].
    destruct (iter_step self madeval last el) as [[ys last'] | e] eqn:Hstep.
    + apply iter_step_yields in Hstep as (Hlen & Hnone & Hsome).
      specialize (IH last').
      destruct (iter_loop self madeval last' els) as [out err]. cbn [fst] in *.
      rewrite length_app. cbn [length].
      destruct last as [l |].
      * destruct last'; [lia |]. now specialize (Hsome eq_refl).
      * rewrite (Hnone eq_refl). simpl. destruct last'; lia.
    + simpl. destruct last; lia.
Qed.

Lemma iter_elements_count (self : MadLoader) (madeval : bool) :
  length (fst (iter_elements self madeval)) <= length (expanded_elements self).
Proof.
  unfold iter_elements.
  destruct (expanded_elements self) as [| el els]; [reflexivity |].
  pose proof (iter_loop_count self madeval (el :: els) None) as H.
  simpl in *. lia.
Qed.

Lemma converter_notices (vars : string -> float) (np_tan : float -> float)
    (type : string) (f : MadLoader -> MadElem -> printing (list builder)) :
  converter vars np_tan type = Method f ->
  forall self m, Forall is_notice (fst (f self m)).
Proof.
  unfold converter.
  repeat match goal with
         | |- context [if ?b then _ else _] => destruct b
         end;
    intros H; try discriminate H; injection H as <-; intros self m;
    try (constructor; fail).
  unfold convert_solenoid. destruct (attr m "l"); [| constructor].
  destruct (py_eq _ _); [| constructor].
  simpl. constructor; [exact I | constructor].
Qed.

Lemma convert_element_notices (vars : string -> float) (np_tan : float -> float)
    (self : MadLoader) (madeval : bool) (line : Line) (el : option MadElem) :
  Forall is_notice (fst (convert_element vars np_tan self madeval line el)).
Proof.
  unfold convert_element.
  destruct (match expressions_for_element_types self with
            | Some _ => _ | None => _ end) as [self' el'].
  unfold adder. destruct (String.eqb (slot_type el) "elements"); [constructor |].
  destruct (converter vars np_tan (slot_type el)) as [f | |] eqn:Hconv;
    try constructor.
  destruct el' as [m |]; [| constructor].
  pose proof (converter_notices vars np_tan _ f Hconv self' m) as H.
  destruct (f self' m). exact H.
Qed.

Lemma convert_elements_in_range (vars : string -> float)
    (np_tan : float -> float) (madeval : bool) (nelem : nat) :
  forall els self line ii,
    ii + length els <= nelem ->
    Forall (in_range nelem)
      (fst (convert_elements vars np_tan self madeval nelem line ii els)).
Proof.
  induction els as [| el els IH]; intros self line ii Hlen; [constructor |].
  cbn [convert_elements length] in *.
  pose proof (convert_element_notices vars np_tan self madeval line el) as Hn.
  assert (Hn' : Forall (in_range nelem)
                  (fst (convert_element vars np_tan self madeval line el))).
  { eapply Forall_impl; [exact Hn |]. intros [t | i n |]; simpl; tauto. }
  destruct (convert_element vars np_tan self madeval line el)
    as [printed [[self' line'] | e]]; cbn [fst] in *; [| exact Hn'].
  specialize (IH self' line' (S ii)).
  destruct (convert_elements vars np_tan self' madeval nelem line' (S ii) els)
    as [printed' r]. cbn [fst] in *.
  apply Forall_app. split; [exact Hn' |]. apply Forall_app. split; [| apply IH; lia].
  destruct (Nat.eqb_spec (ii mod 100) 0) as [Hmod | _]; [| constructor].
  constructor; [| constructor]. simpl. repeat split; [lia | exact Hmod].
Qed.

(** X17: the loop over the records never yields more objects than the
    sequence has records; so every progress report of [make_line] carries
    the number of records as its total, and the index of an element that
    is a multiple of one hundred and less than that total. *)
Theorem make_line_progress (vars : string -> float) (np_tan : float -> float)
    (self : MadLoader) :
  (forall madeval,
      length (fst (iter_elements self madeval))
      <= length (expanded_elements self)) /\
  Forall (in_range (length (expanded_elements self)))
    (fst (make_line vars np_tan self)).
Proof.
  split; [intros madeval; apply iter_elements_count |].
  unfold make_line. rewrite iter_elements_set_Builder.
  pose proof (iter_elements_count self (enable_expressions self)) as Hcount.
  destruct (iter_elements self (enable_expressions self)) as [els err].
  cbn [fst] in Hcount.
  pose proof (convert_elements_in_range vars np_tan (enable_expressions self)
                (length (expanded_elements self)) els
                (set_Builder self (enable_expressions self)) Line_new 0 Hcount)
    as Hrange.
  change (expanded_elements (set_Builder self (enable_expressions self)))
    with (expanded_elements self).
  destruct (convert_elements _ _ _ _ _ _ _ _) as [printed [[s l] | e]];
    cbn [fst] in *; [| exact Hrange].
  destruct err; cbn [fst]; [exact Hrange |].
  apply Forall_app. split; [exact Hrange | constructor; [exact I | constructor]].
Qed.

(** ** Construction of the loader *)

(** X18: the constructor takes the field-error and the alignment-error
    switch from their own argument when it is given, from [enable_errors]
    otherwise, and they are off when neither is given.  It refuses thick
    elements together with field errors, also when the field errors come
    from [enable_errors]; and it asserts that expressions are enabled when
    element types are selected for them.  So in every loader it returns,
    thick elements exclude field errors, and a selection of element types
    implies that expressions are enabled. *)
Theorem MadLoader_init_switches (args : MadLoader_args) :
  let enable_errors :=
    match arg_enable_errors args with Some b => b | None => false end in
  let fe :=
    match arg_enable_field_errors args with Some b => b | None => enable_errors end in
  let ae :=
    match arg_enable_align_errors args with Some b => b | None => enable_errors end in
  (arg_allow_thick args && fe = true ->
   exists msg, MadLoader_init args = Refused (NotImplementedError msg)) /\
  (arg_allow_thick args && fe = false ->
   is_Some (arg_expressions_for_element_types args) ->
   arg_enable_expressions args = false ->
   exists msg, MadLoader_init args = AssertionFailed msg) /\
  (forall self,
      MadLoader_init args = Constructed self ->
      enable_field_errors self = fe /\
      enable_align_errors self = ae /\
      (allow_thick self = true -> enable_field_errors self = false) /\
      (is_Some (expressions_for_element_types self) ->
       enable_expressions self = true) /\
      expanded_elements self = arg_expanded_elements args).
Proof.
  intros enable_errors fe ae.
  assert (Hinit :
            MadLoader_init args
            = if arg_allow_thick args && fe then
                Refused (NotImplementedError
                           "Field errors are not yet supported for thick elements")
              else if match arg_expressions_for_element_types args with
                      | Some _ => negb (arg_enable_expressions args)
                      | None => false
                      end
              then AssertionFailed
                     "Expressions must be enabled if `expressions_for_element_types` is not None"
              else
                Constructed
                  {| sequence_name := arg_sequence_name args;
                     expanded_elements := arg_expanded_elements args;
                     enable_expressions := arg_enable_expressions args;
                     enable_field_errors := fe;
                     enable_align_errors := ae;
                     enable_apertures := arg_enable_apertures args;
                     skip_markers := arg_skip_markers args;
                     merge_drifts := arg_merge_drifts args;
                     merge_multipoles := arg_merge_multipoles args;
                     ignore_madtypes := arg_ignore_madtypes args;
                     expressions_for_element_types :=
                       arg_expressions_for_element_types args;
                     allow_thick := arg_allow_thick args;
                     use_compound_elements := arg_use_compound_elements args;
                     name_prefix := arg_name_prefix args;
                     Builder := false |}).
  { unfold MadLoader_init, fe, ae, enable_errors.
    destruct (arg_enable_errors args), (arg_enable_field_errors args),
      (arg_enable_align_errors args); reflexivity. }
  rewrite Hinit. split; [intros ->; eauto |]. split.
  - intros -> [t Ht] ->. rewrite Ht. eauto.
  - intros self. destruct (arg_allow_thick args && fe) eqn:Hthick; [discriminate |].
    destruct (arg_expressions_for_element_types args) as [t |] eqn:Hsel.
    + destruct (arg_enable_expressions args) eqn:Hexpr; [| discriminate].
      intros H. injection H as <-. cbn.
      repeat split; auto. intros Ht. rewrite Ht in Hthick. exact Hthick.
    + intros H. injection H as <-. cbn.
      repeat split; auto.
      * intros Ht. rewrite Ht in Hthick. exact Hthick.
      * intros [t Ht]. discriminate.
Qed.


(** ** Translations *)

Lemma make_compound_elem_core (np_tan : float -> float) (self : MadLoader)
    (xtrack_el : list ElementBuilder) (mad_el : MadElem)
    (custom_tilt : option pyval) (bs : list builder) :
  make_compound_elem np_tan self xtrack_el mad_el custom_tilt = Ok bs ->
  exists pre post, flat_map components bs = pre ++ xtrack_el ++ post.
Proof.
  unfold make_compound_elem. intros H.
  destruct (Alignment_init _ _ _ _) as [align | e]; cbn [rbind] in H;
    [| discriminate].
  destruct (if enable_apertures self then has_aperture mad_el else Ok false)
    as [with_aperture | e]; cbn [rbind] in H; [| discriminate].
  destruct (if with_aperture then _ else Ok []) as [aper | e];
    cbn [rbind] in H; [| discriminate].
  destruct (Alignment_exit align) as [ex | e]; cbn [rbind] in H;
    [| discriminate].
  exists (aper ++ Alignment_entry align), ex.
  assert (Hflat : forall l : list ElementBuilder, flat_map components (map EB l) = l).
  { induction l as [| b l IH]; simpl; [reflexivity | now rewrite IH]. }
  rewrite <- app_assoc.
  destruct (negb (use_compound_elements self));
    [injection H as <-; apply Hflat |].
  destruct (aper ++ Alignment_entry align ++ xtrack_el ++ ex)
    as [| e [| e' rest]] eqn:Hl;
    repeat match type of H with
           | context [if ?b then _ else _] => destruct b
           end;
    injection H as <-; try reflexivity;
    simpl; now rewrite app_nil_r.
Qed.

(** X19: a translation record is accepted by [MadElem] whatever its
    displacements are.  Its rule raises [NotImplementedError] when the
    displacement [ds] along the line is not zero; otherwise what it returns
    holds the transverse shift by the [dx] and [dy] of the record, read
    before the rule sets them to zero on the view. *)
Theorem convert_translation_shift (np_tan : float -> float) (self : MadLoader)
    (madeval : bool) (el : cpymad_element) (dx dy ds : pyval) :
  el_base_type el = "translation" ->
  let ee := view_of self madeval el in
  attr ee "dx" = Ok dx ->
  attr ee "dy" = Ok dy ->
  attr ee "ds" = Ok ds ->
  MadElem_init (el_name el) el madeval (name_prefix self) = Ok ee /\
  (truthy ds = true ->
   convert_translation np_tan self ee = Raise (NotImplementedError "")) /\
  (truthy ds = false ->
   forall bs,
     convert_translation np_tan self ee = Ok bs ->
     exists pre post,
       flat_map components bs
       = pre ++ [Builder_call (Builder self) (me_name ee) XYShift
                   [("dx", dx); ("dy", dy)]] ++ post).
Proof.
  intros Hty ee Hdx Hdy Hds.
  split; [apply aligned_view; now left |].
  unfold convert_translation. rewrite Hdx, Hdy, Hds. cbn [rbind].
  split; intros ->; [reflexivity |].
  intros bs H. now apply make_compound_elem_core in H.
Qed.

(** A translation by one millimetre, without and with a displacement along
    the line. *)
Lemma convert_translation_witness :
  MadElem_init "tr" (sample_translation 0.001 0) false None
  = Ok (view_of (default_loader []) false (sample_translation 0.001 0)) /\
  convert_translation tan_series (default_loader [])
    (view_of (default_loader []) false (sample_translation 0.001 0.5))
  = Raise (NotImplementedError "").
Proof.
  split.
  - exact (proj1 (convert_translation_shift tan_series (default_loader []) false
                    (sample_translation 0.001 0) (Num 0.001) (Num 0) (Num 0)
                    eq_refl eq_refl eq_refl eq_refl)).
  - exact (proj1 (proj2 (convert_translation_shift tan_series (default_loader [])
                           false (sample_translation 0.001 0.5)
                           (Num 0.001) (Num 0) (Num 0.5)
                           eq_refl eq_refl eq_refl eq_refl)) eq_refl).
Defined.

(** The translation by one millimetre becomes a compound around the shift. *)
Example convert_translation_example :
  convert_translation tan_series (default_loader [])
    (view_of (default_loader []) false (sample_translation 0.001 0))
  = Ok [CEB {| ceb_name := "tr";
               ceb_core := [Builder_call false "tr" XYShift
                              [("dx", Num 0.001); ("dy", Num 0)]];
               ceb_entry_transform := []; ceb_exit_transform := [];
               ceb_aperture := [] |}].
Proof. vm_compute. reflexivity. Qed.


(** ** Runs of multipoles *)

Lemma string_app_assoc (a b c : string) : (a +:+ b) +:+ c = a +:+ (b +:+ c).
Proof.
  induction a as [| x a IH]; [reflexivity |].
  change (String x ((a +:+ b) +:+ c) = String x (a +:+ (b +:+ c))).
  now rewrite IH.
Qed.

Lemma merge_multipole_name (self other m : MadElem) :
  merge_multipole self other = Ok (true, m) ->
  me_name m = me_name self +:+ "_" +:+ me_name other.
Proof.
  unfold merge_multipole. intros H.
  destruct (and_then _ _) as [[|] | e]; cbn [rbind] in H;
    [| discriminate | discriminate].
  repeat match type of H with
         | context [rbind ?x _] => destruct x; cbn [rbind] in H
         end; try discriminate H.
  now injection H as <-.
Qed.

Lemma merged_spec (others : list MadElem) :
  forall (p m : MadElem),
    merged p others = Some m ->
    me_elem m = me_elem p /\
    me_name m = String.concat "_" (me_name p :: map me_name others) /\
    forall (k : list pyval) (ks : list (list pyval)),
      attr p "knl" = Ok (PList k) ->
      Forall2 (fun o k' => attr o "knl" = Ok (PList k')) others ks ->
      attr m "knl" = Ok (PList (k ++ concat ks)).
Proof.
  induction others as [| o others IH]; intros p m H.
  - injection H as <-. repeat split; auto.
    intros k ks Hk Hks. inversion Hks. simpl. now rewrite app_nil_r.
  - cbn [merged] in H.
    destruct (merge_multipole p o) as [[[|] p'] | e] eqn:Hmerge; try discriminate.
    destruct (IH p' m H) as (Helem & Hname & Hknl).
    split; [| split].
    + rewrite Helem. exact (merge_multipole_elem _ _ _ _ Hmerge).
    + rewrite Hname, (merge_multipole_name _ _ _ Hmerge).
      cbn [map String.concat]. destruct (map me_name others) as [| n ns].
      * reflexivity.
      * now rewrite !string_app_assoc.
    + intros k ks Hk Hks.
      inversion Hks as [| o' k' others' ks' Ho Hrest]; subst.
      cbn [concat]. rewrite app_assoc. apply Hknl; [| exact Hrest].
      exact (merge_multipole_knl _ _ _ _ _ Hmerge Hk Ho).
Qed.

Lemma iter_loop_merged (self : MadLoader) (madeval : bool)
    (rest : list cpymad_element) :
  merge_multipoles self = true ->
  forall (run : list cpymad_element) (p m : MadElem),
    me_type p = "multipole" ->
    Forall multipole_record run ->
    merged p (map (view_of self madeval) run) = Some m ->
    iter_loop self madeval (Some p) (run ++ rest)
    = iter_loop self madeval (Some m) rest.
Proof.
  intros Hmm. induction run as [| el run IH]; intros p m Hp Hrun H.
  - now injection H as <-.
  - apply List.Forall_cons_iff in Hrun as [[Hty Hal] Hrun].
    cbn [map merged] in H.
    destruct (merge_multipole p (view_of self madeval el)) as [[[|] p'] | e]
      eqn:Hmerge; try discriminate.
    cbn [app iter_loop]. unfold iter_step.
    rewrite (aligned_view self madeval el Hal). cbn [rbind].
    unfold is_empty_marker.
    change (me_type (view_of self madeval el)) with (el_base_type el).
    rewrite Hty, Hmm. cbn [slot_type]. rewrite Hp.
    replace (String.eqb "multipole" "marker") with false by reflexivity.
    replace (String.eqb "multipole" "drift") with false by reflexivity.
    replace (String.eqb "multipole" "multipole") with true by reflexivity.
    rewrite !andb_false_r.
    destruct (skip_markers self); cbn [rbind andb]; rewrite Hmerge;
      cbn [rbind fst snd app];
      rewrite (IH p' m); auto;
      try (unfold me_type; rewrite (merge_multipole_elem _ _ _ _ Hmerge); exact Hp);
      now destruct (iter_loop self madeval (Some m) rest).
Qed.

(** X20: with multipole merging enabled and the multipole type not
    ignored, a multipole record met while no multipole is pending,
    followed by further multipole records that [merge_multipole] accepts
    one after the other, leaves one pending view; the loop yields only what
    was pending before.  The view stands for the first record, its name is
    the names of the run joined by underscores, and, the kick strengths
    being lists, its [knl] is the lists of the run one after the other, not
    their sum. *)
Theorem merged_multipoles_joined (self : MadLoader) (madeval : bool)
    (el : cpymad_element) (run rest : list cpymad_element)
    (last : option MadElem) (m : MadElem) :
  merge_multipoles self = true ->
  in_list "multipole" (ignore_madtypes self) = false ->
  slot_type last <> "multipole" ->
  Forall multipole_record (el :: run) ->
  merged (view_of self madeval el) (map (view_of self madeval) run) = Some m ->
  iter_loop self madeval last (el :: run ++ rest)
  = (let (out, err) := iter_loop self madeval (Some m) rest in
     (flush last ++ out, err)) /\
  me_elem m = el /\
  me_name m
  = String.concat "_"
      (map (fun r => prefixed (name_prefix self) (el_name r)) (el :: run)) /\
  forall ks : list (list pyval),
    Forall2 (fun r k => attr (view_of self madeval r) "knl" = Ok (PList k))
      (el :: run) ks ->
    attr m "knl" = Ok (PList (concat ks)).
Proof.
  intros Hmm Hign Hlast Hrun Hmerged.
  apply List.Forall_cons_iff in Hrun as [[Hty Hal] Hrun].
  destruct (merged_spec _ _ _ Hmerged) as (Helem & Hname & Hknl).
  split; [| split; [exact Helem | split]].
  - cbn [iter_loop]. unfold iter_step.
    rewrite (aligned_view self madeval el Hal). cbn [rbind].
    unfold is_empty_marker.
    change (me_type (view_of self madeval el)) with (el_base_type el).
    rewrite Hty, Hign. apply String.eqb_neq in Hlast. rewrite Hlast.
    replace (String.eqb "multipole" "marker") with false by reflexivity.
    replace (String.eqb "multipole" "drift") with false by reflexivity.
    rewrite !andb_false_r.
    destruct (skip_markers self); cbn [rbind andb];
      rewrite (iter_loop_merged self madeval rest Hmm run
                 (view_of self madeval el) m Hty Hrun Hmerged);
      reflexivity.
  - rewrite Hname, map_map. reflexivity.
  - intros ks Hks.
    inversion Hks as [| r k run' ks' Hk Hrest]; subst. cbn [concat].
    apply Hknl; [exact Hk |].
    clear - Hrest. induction Hrest; constructor; auto.
Qed.

Lemma three_multipoles_merged :
  exists m,
    merged (view_of (set_merge_multipoles (default_loader three_multipoles)) false
              (me_elem (sample_multipole "mp1" [1; 2]%float [0; 0]%float)))
      (map (view_of (set_merge_multipoles (default_loader three_multipoles)) false)
         [me_elem (sample_multipole "mp2" [3; 4]%float [5]%float);
          me_elem (sample_multipole "mp3" [6]%float [7]%float)])
    = Some m.
Proof. eexists. vm_compute. reflexivity. Qed.

(** Three multipoles with [knl] of [[1, 2]], [[3, 4]] and [[6]]. *)
Lemma merged_multipoles_witness :
  exists m,
    iter_elements (set_merge_multipoles (default_loader three_multipoles)) false
    = ([Some m], None) /\
    me_name m = "mp1_mp2_mp3" /\
    attr m "knl" = Ok (PList [Num 1; Num 2; Num 3; Num 4; Num 6]).
Proof.
  destruct three_multipoles_merged as (m & Hm). exists m.
  destruct (merged_multipoles_joined
              (set_merge_multipoles (default_loader three_multipoles)) false
              (me_elem (sample_multipole "mp1" [1; 2]%float [0; 0]%float))
              [me_elem (sample_multipole "mp2" [3; 4]%float [5]%float);
               me_elem (sample_multipole "mp3" [6]%float [7]%float)]
              [] None m eq_refl eq_refl)
    as (Hloop & _ & Hname & Hknl).
  - discriminate.
  - repeat constructor; right; reflexivity.
  - exact Hm.
  - split; [exact Hloop | split; [exact Hname |]].
    apply (Hknl [[Num 1; Num 2]; [Num 3; Num 4]; [Num 6]]).
    repeat constructor.
Defined.


(** ** Lines that [make_line] returns *)

Lemma iter_loop_yields_one (self : MadLoader) (madeval : bool) :
  forall els last,
    snd (iter_loop self madeval last els) = None ->
    fst (iter_loop self madeval last els) <> [].
Proof.
  induction els as [| el els IH]; intros last; [discriminate |].
  cbn [iter_loop].
  destruct (iter_step self madeval last el) as [[ys last'] | e]; [| discriminate].
  specialize (IH last').
  destruct (iter_loop self madeval last' els) as [out err]. cbn [fst snd] in *.
  intros Herr Happ. apply app_eq_nil in Happ as [_ ->]. now apply IH.
Qed.

Lemma convert_element_ok (vars : string -> float) (np_tan : float -> float)
    (self self' : MadLoader) (madeval : bool) (line line' : Line)
    (el : option MadElem) (printed : list output) :
  convert_element vars np_tan self madeval line el = (printed, Ok (self', line')) ->
  convertible vars np_tan el /\ grows line line'.
Proof.
  unfold convert_element, convertible.
  destruct (match expressions_for_element_types self with
            | Some _ => _ | None => _ end) as [self0 el0] eqn:Hsel.
  assert (Hel : me_type <$> el0 = me_type <$> el).
  { destruct (expressions_for_element_types self) as [types |];
      [destruct (in_list _ _) |]; injection Hsel as <- <-;
      destruct el; reflexivity. }
  unfold adder. destruct (String.eqb (slot_type el) "elements"); [discriminate |].
  destruct (converter vars np_tan (slot_type el)) as [f | |] eqn:Hconv;
    try discriminate.
  destruct el0 as [m0 |]; [| discriminate].
  destruct el as [m |]; [| discriminate].
  destruct (f self0 m0) as [printed0 [bs |]]; cbn [rbind]; [| discriminate].
  intros H. injection H as _ _ <-.
  split; [exists m, f; auto | apply add_elements_grows].
Qed.

Lemma convert_elements_ok (vars : string -> float) (np_tan : float -> float)
    (madeval : bool) (nelem : nat) :
  forall els self line ii printed self' line',
    convert_elements vars np_tan self madeval nelem line ii els
    = (printed, Ok (self', line')) ->
    Forall (convertible vars np_tan) els /\ grows line line'.
Proof.
  induction els as [| el els IH]; intros self line ii printed self' line' H.
  - injection H as _ _ <-. split; [constructor | apply grows_refl].
  - cbn [convert_elements] in H.
    destruct (convert_element vars np_tan self madeval line el)
      as [printed0 [[self0 line0] | e]] eqn:Hel; [| discriminate].
    apply convert_element_ok in Hel as [Hconv Hgrows].
    destruct (convert_elements vars np_tan self0 madeval nelem line0 (S ii) els)
      as [printed1 r] eqn:Hrest.
    injection H as _ ->.
    destruct (IH _ _ _ _ _ _ Hrest) as [Hall Hgrows'].
    split; [constructor; assumption | eapply grows_trans; eassumption].
Qed.

(** X21: [make_line] converts every object the iteration yields or returns
    no line.  When it returns a line, the iteration ended without
    exception and yielded at least one object, each yielded object is a
    view (not the sentinel) of a type that has a conversion rule, the
    empty line that ends the progress display was printed last, and the
    names of the line are pairwise distinct and are the keys of its
    dictionary. *)
Theorem make_line_all_converted (vars : string -> float)
    (np_tan : float -> float) (self : MadLoader) (printed : list output)
    (line : Line) :
  make_line vars np_tan self = (printed, Ok line) ->
  snd (iter_elements self (enable_expressions self)) = None /\
  fst (iter_elements self (enable_expressions self)) <> [] /\
  Forall (convertible vars np_tan)
    (fst (iter_elements self (enable_expressions self))) /\
  last printed = Some EndOfProgress /\
  line_wf line.
Proof.
  unfold make_line. rewrite iter_elements_set_Builder.
  destruct (iter_elements self (enable_expressions self)) as [els err] eqn:Hiter.
  destruct (convert_elements _ _ _ _ _ _ _ _) as [printed0 [[self' line'] | e]]
    eqn:Hconv; [| discriminate].
  destruct err as [e |]; [discriminate |].
  intros H. injection H as <- <-.
  apply convert_elements_ok in Hconv as [Hall (Hwf & _ & _)].
  cbn [fst snd].
  split; [reflexivity |]. split.
  - unfold iter_elements in Hiter.
    destruct (expanded_elements self) as [| el0 els0]; [discriminate |].
    pose proof (iter_loop_yields_one self (enable_expressions self)
                  (el0 :: els0) None) as Hone.
    rewrite Hiter in Hone. now apply Hone.
  - split; [exact Hall |]. split; [apply last_snoc | exact (Hwf line_wf_new)].
Qed.

(** Three drifts, merged into one element. *)
Lemma make_line_all_converted_witness :
  Forall (convertible no_vars tan_series)
    (fst (iter_elements (set_merge_drifts (default_loader three_drifts) []) false)).
Proof.
  destruct (make_line no_vars tan_series
              (set_merge_drifts (default_loader three_drifts) []))
    as [printed [line | e]] eqn:H; [| discriminate H].
  exact (proj1 (proj2 (proj2
    (make_line_all_converted no_vars tan_series
       (set_merge_drifts (default_loader three_drifts) []) printed line H)))).
Defined.


(** ** Drifts and plain markers, one to one *)

Lemma make_compound_elem_plain_marker (np_tan : float -> float)
    (self : MadLoader) (m : MadElem) (t : pyval) :
  enable_apertures self = false ->
  enable_align_errors self = false ->
  get m "tilt" (Num 0) = Ok t ->
  truthy t = false ->
  make_compound_elem np_tan self [Builder_call (Builder self) (me_name m) Marker []]
    m None
  = Ok [EB (Builder_call (Builder self) (me_name m) Marker [])].
Proof.
  intros Hap Hal Ht Hfalse. unfold make_compound_elem, Alignment_init.
  rewrite Hap, Hal, Ht. cbn [rbind]. rewrite Hfalse. cbn [rbind].
  unfold Alignment_entry, Alignment_exit. cbn [al_tilt al_dx al_dy].
  rewrite Hfalse. cbn. destruct (use_compound_elements self); reflexivity.
Qed.

Lemma convert_element_plain (vars : string -> float) (np_tan : float -> float)
    (self : MadLoader) (madeval : bool) (line : Line) (m : MadElem) :
  expressions_for_element_types self = None ->
  enable_apertures self = false ->
  enable_align_errors self = false ->
  plain_view m ->
  convert_element vars np_tan self madeval line (Some m)
  = ([], Ok (self, add_elements vars [EB (direct_builder (Builder self) m)] line)).
Proof.
  intros Hsel Hap Hal Hm. unfold convert_element, direct_builder.
  rewrite Hsel. cbn [slot_type].
  destruct Hm as [(Hty & lv & Hl) | (Hty & t & Ht & Hfalse)]; rewrite Hty.
  - change (adder "drift") with
      (@NoMethod (MadLoader -> MadElem -> Line -> printing Line)).
    change (converter vars np_tan "drift") with
      (Method (fun (self : MadLoader) (el : MadElem) =>
                 quiet (let! bs := convert_drift self el in Ok (map EB bs)))).
    unfold convert_drift. rewrite Hl. reflexivity.
  - change (adder "marker") with
      (@NoMethod (MadLoader -> MadElem -> Line -> printing Line)).
    change (converter vars np_tan "marker") with (Method (convert_marker np_tan)).
    unfold convert_marker.
    rewrite (make_compound_elem_plain_marker np_tan self m t Hap Hal Ht Hfalse).
    reflexivity.
Qed.

Lemma convert_elements_plain (vars : string -> float) (np_tan : float -> float)
    (self : MadLoader) (madeval : bool) (nelem : nat) :
  expressions_for_element_types self = None ->
  enable_apertures self = false ->
  enable_align_errors self = false ->
  forall views line ii,
    Forall plain_view views ->
    snd (convert_elements vars np_tan self madeval nelem line ii (map Some views))
    = Ok (self,
          add_elements vars (map (fun m => EB (direct_builder (Builder self) m)) views)
            line).
Proof.
  intros Hsel Hap Hal. induction views as [| m views IH]; intros line ii Hall.
  - reflexivity.
  - apply List.Forall_cons_iff in Hall as [Hm Hall].
    cbn [map convert_elements].
    rewrite (convert_element_plain vars np_tan self madeval line m Hsel Hap Hal Hm).
    specialize (IH (add_elements vars [EB (direct_builder (Builder self) m)] line)
                  (S ii) Hall).
    destruct (convert_elements _ _ _ _ _ _ _ _) as [printed r].
    cbn [snd] in *. exact IH.
Qed.


(** X22: with marker skipping, both merges, aperture import, alignment
    errors and the selection of element types switched off, a sequence of
    drifts and of markers without tilt loads one to one: [make_line]
    returns the line obtained by adding, in the order of the sequence, one
    drift or marker builder per record whose type is not ignored, so the
    line has as many elements as there are such records. *)
Theorem make_line_one_to_one (vars : string -> float) (np_tan : float -> float)
    (self : MadLoader) :
  skip_markers self = false ->
  merge_drifts self = false ->
  merge_multipoles self = false ->
  expressions_for_element_types self = None ->
  enable_apertures self = false ->
  enable_align_errors self = false ->
  List.filter (kept self) (expanded_elements self) <> [] ->
  Forall (fun el => aligned el /\
                    plain_view (view_of self (enable_expressions self) el))
    (expanded_elements self) ->
  let views :=
    map (view_of self (enable_expressions self))
      (List.filter (kept self) (expanded_elements self)) in
  let line :=
    add_elements vars
      (map (fun m => EB (direct_builder (enable_expressions self) m)) views)
      Line_new in
  snd (make_line vars np_tan self) = Ok line /\
  length (element_names line)
  = length (List.filter (kept self) (expanded_elements self)).
Proof.
  intros Hskip Hmd Hmm Hsel Hap Hal Hne Hall views line. split.
  - unfold make_line. rewrite iter_elements_set_Builder. unfold iter_elements.
    destruct (expanded_elements self) as [| el els] eqn:Hels; [contradiction |].
    rewrite (iter_loop_plain self _ Hskip Hmd Hmm (el :: els) None)
      by (eapply Forall_impl; [exact Hall | intros x [H _]; exact H]).
    cbn [pending app]. fold views.
    assert (Hviews : Forall plain_view views).
    { unfold views. clear - Hall.
      induction Hall as [| x l [_ Hx] _ IH]; [constructor |].
      cbn [List.filter]. destruct (kept self x); [constructor |]; assumption. }
    assert (Hsome : yield_all views = map Some views).
    { unfold views in *. destruct (map _ _) eqn:E; [| reflexivity].
      apply map_eq_nil in E. contradiction. }
    rewrite Hsome.
    pose proof (convert_elements_plain vars np_tan
                  (set_Builder self (enable_expressions self))
                  (enable_expressions self)
                  (length (expanded_elements
                             (set_Builder self (enable_expressions self))))
                  Hsel Hap Hal views Line_new 0 Hviews) as Hconv.
    destruct (convert_elements _ _ _ _ _ _ _ _) as [printed r].
    cbn [snd] in Hconv. subst r. reflexivity.
  - unfold line. rewrite add_elements_names_count. cbn [Line_new element_names length].
    unfold views. rewrite !map_map.
    generalize (List.filter (kept self) (expanded_elements self)).
    induction l as [| x l IH]; simpl in *; [reflexivity | now f_equal].
Qed.

(** Two drifts named [d] around a marker. *)
Lemma make_line_one_to_one_witness :
  element_names
    (add_elements no_vars
       (map (fun m => EB (direct_builder false m))
          (map (view_of (default_loader drifts_and_marker) false)
             drifts_and_marker)) Line_new)
  = ["d"; "ip"; "d:0"] /\
  snd (make_line no_vars tan_series (default_loader drifts_and_marker))
  = Ok (add_elements no_vars
          (map (fun m => EB (direct_builder false m))
             (map (view_of (default_loader drifts_and_marker) false)
                drifts_and_marker)) Line_new).
Proof.
  split; [vm_compute; reflexivity |].
  refine (proj1 (make_line_one_to_one no_vars tan_series
                   (default_loader drifts_and_marker)
                   eq_refl eq_refl eq_refl eq_refl eq_refl eq_refl _ _)).
  - discriminate.
  - constructor; [| constructor; [| constructor; [| constructor]]];
      (split; [right; reflexivity |]).
    + left. split; [reflexivity | eexists; reflexivity].
    + right. split; [reflexivity |]. exists (Num 0). split; reflexivity.
    + left. split; [reflexivity | eexists; reflexivity].
Defined.


(** ** Elements that always become compounds *)

Lemma make_compound_elem_compound (np_tan : float -> float) (self : MadLoader)
    (c : ElementBuilder) (mad_el : MadElem) (custom_tilt : option pyval)
    (bs : list builder) :
  use_compound_elements self = true ->
  xt_class_eqb (eb_type c) Drift = false ->
  xt_class_eqb (eb_type c) Marker = false ->
  make_compound_elem np_tan self [c] mad_el custom_tilt = Ok bs ->
  exists compound,
    bs = [CEB compound] /\
    ceb_name compound = me_name mad_el /\
    ceb_core compound = [c].
Proof.
  intros Huse Hd Hm. unfold make_compound_elem. intros H.
  destruct (Alignment_init _ _ _ _) as [align | e]; cbn [rbind] in H;
    [| discriminate].
  destruct (if enable_apertures self then has_aperture mad_el else Ok false)
    as [with_aperture | e]; cbn [rbind] in H; [| discriminate].
  destruct (if with_aperture then _ else Ok []) as [aper | e];
    cbn [rbind] in H; [| discriminate].
  destruct (Alignment_exit align) as [ex | e]; cbn [rbind] in H;
    [| discriminate].
  rewrite Huse in H. cbn [negb] in H.
  destruct (aper ++ Alignment_entry align ++ [c] ++ ex) as [| e [| e' rest]] eqn:Hl;
    try (injection H as <-; eexists; repeat split; reflexivity).
  assert (e = c) as ->.
  { destruct aper as [| a aper]; simpl in Hl.
    - destruct (Alignment_entry align) as [| b en]; simpl in Hl.
      + now injection Hl as ->.
      + injection Hl as _ Hl. now destruct en.
    - injection Hl as _ Hl. apply app_eq_nil in Hl as [_ Hl].
      apply app_eq_nil in Hl as [_ Hl]. discriminate. }
  rewrite Hd, Hm in H. cbn [andb] in H.
  injection H as <-. eexists. repeat split; reflexivity.
Qed.

(** X23: a solenoid whose length does not evaluate to zero is converted
    without any notice: what the rule returns holds the solenoid builder
    with the length and the two strengths of the record, and with compounds
    it is always the compound named after the element, around this one
    builder. *)
Theorem thick_solenoid_kept (vars : string -> float) (np_tan : float -> float)
    (self : MadLoader) (m : MadElem) (l ks ksi : pyval) :
  attr m "l" = Ok l ->
  py_eq (get_value vars l) (Num 0) = false ->
  attr m "ks" = Ok ks ->
  attr m "ksi" = Ok ksi ->
  let el := Builder_call (Builder self) (me_name m) Solenoid
              [("length", l); ("ks", ks); ("ksi", ksi)] in
  fst (convert_solenoid vars np_tan self m) = [] /\
  forall bs,
    snd (convert_solenoid vars np_tan self m) = Ok bs ->
    (exists pre post, flat_map components bs = pre ++ [el] ++ post) /\
    (use_compound_elements self = true ->
     exists compound,
       bs = [CEB compound] /\
       ceb_name compound = me_name m /\
       ceb_core compound = [el]).
Proof.
  intros Hl Hthick Hks Hksi el. unfold convert_solenoid.
  rewrite Hl, Hthick. cbn [rbind quiet fst snd]. rewrite Hks, Hksi. cbn [rbind].
  split; [reflexivity |]. intros bs H. split.
  - now apply make_compound_elem_core in H.
  - intros Huse. now apply (make_compound_elem_compound np_tan self el m None).
Qed.

(** A solenoid of length 0.5. *)
Lemma thick_solenoid_witness :
  fst (convert_solenoid no_vars tan_series (default_loader []) thick_solenoid) = [] /\
  exists compound,
    snd (convert_solenoid no_vars tan_series (default_loader []) thick_solenoid)
    = Ok [CEB compound] /\
    ceb_core compound
    = [Builder_call false "sol" Solenoid
         [("length", Num 0.5); ("ks", Num 0.2); ("ksi", Num 0)]].
Proof.
  destruct (thick_solenoid_kept no_vars tan_series (default_loader [])
              thick_solenoid (Num 0.5) (Num 0.2) (Num 0)
              eq_refl eq_refl eq_refl eq_refl) as [Hnone Hbs].
  split; [exact Hnone |].
  destruct (snd (convert_solenoid no_vars tan_series (default_loader [])
                   thick_solenoid)) as [bs | e] eqn:H; [| discriminate H].
  destruct (Hbs bs eq_refl) as [_ Hc].
  destruct (Hc eq_refl) as (compound & -> & _ & Hcore).
  exists compound. split; [reflexivity | exact Hcore].
Defined.

(** X24: [convert_srotation] turns the angle of the record, in radians,
    into degrees: what it returns holds a rotation builder whose angle is
    the angle times 180 divided by pi, and with compounds it is always the
    compound named after the element, around this one builder. *)
Theorem convert_srotation_degrees (np_tan : float -> float) (self : MadLoader)
    (ee : MadElem) (a : float) (bs : list builder) :
  attr ee "angle" = Ok (Num a) ->
  convert_srotation np_tan self ee = Ok bs ->
  let el := Builder_call (Builder self) (me_name ee) SRotation
              [("angle", Num (a * 180 / np_pi))] in
  (exists pre post, flat_map components bs = pre ++ [el] ++ post) /\
  rad2deg (Num a) = Ok (Num (a * 180 / np_pi)) /\
  (use_compound_elements self = true ->
   exists compound,
     bs = [CEB compound] /\
     ceb_name compound = me_name ee /\
     ceb_core compound = [el]).
Proof.
  intros Ha. unfold convert_srotation. rewrite Ha. cbn [rbind py_mul py_div].
  intros H. cbn zeta. split; [| split; [reflexivity |]].
  - now apply make_compound_elem_core in H.
  - intros Huse.
    now apply (make_compound_elem_compound np_tan self _ ee None bs Huse).
Qed.

(** A rotation by 0.1 radian. *)
Lemma convert_srotation_witness :
  exists pre post,
    flat_map components
      [CEB {| ceb_name := "rot";
              ceb_core := [Builder_call false "rot" SRotation
                             [("angle", Num (0.1 * 180 / np_pi))]];
              ceb_entry_transform := []; ceb_exit_transform := [];
              ceb_aperture := [] |}]
    = pre ++ [Builder_call false "rot" SRotation
                [("angle", Num (0.1 * 180 / np_pi))]] ++ post.
Proof.
  exact (proj1 (convert_srotation_degrees tan_series (default_loader [])
                  sample_srotation 0.1 _ eq_refl eq_refl)).
Defined.


(** ** The type hierarchy *)

Lemma type_hierarchy_chain (parents : list string) :
  forall name,
    let h := type_hierarchy name parents in
    h `prefix_of` name :: parents /\
    hd_error h = Some name /\
    (forall i a b,
        nth_error h i = Some a -> nth_error h (S i) = Some b -> a <> b) /\
    (forall p, nth_error (name :: parents) (length h) = Some p -> last h = Some p).
Proof.
  induction parents as [| p ps IH]; intros name; cbn zeta.
  - simpl. repeat split; auto.
    + intros [| [| i]] a b Ha Hb; discriminate.
    + intros q Hq. discriminate.
  - cbn [type_hierarchy]. destruct (String.eqb_spec name p) as [<- | Hne].
    + repeat split.
      * now exists (name :: ps).
      * intros [| [| i]] a b Ha Hb; discriminate.
      * intros q Hq. simpl in Hq. now injection Hq as <-.
    + destruct (IH p) as (Hpre & Hhd & Hadj & Hlast).
      set (h := type_hierarchy p ps) in *.
      repeat split.
      * now apply prefix_cons.
      * intros [| i] a b Ha Hb.
        -- simpl in Ha, Hb. injection Ha as <-.
           destruct h as [| x h']; [discriminate |]. simpl in Hhd, Hb.
           congruence.
        -- exact (Hadj i a b Ha Hb).
      * intros q Hq. cbn [length nth_error] in Hq.
        destruct h as [| x h'] eqn:Hh; [discriminate |].
        rewrite <- Hh in *. apply Hlast in Hq.
        rewrite Hh in *. exact Hq.
Qed.

(** X25: [get_type_hierarchy] returns the names from the element up its
    chain of parents, the element's own name first, up to and including the
    first type that is its own parent: two consecutive names of the result
    differ, and the name that follows the result in the chain, if there is
    one, repeats its last name. *)
Theorem get_type_hierarchy_chain (m : MadElem) :
  let chain := el_name (me_elem m) :: el_parents (me_elem m) in
  let h := get_type_hierarchy m in
  h `prefix_of` chain /\
  hd_error h = Some (el_name (me_elem m)) /\
  (forall i a b,
      nth_error h i = Some a -> nth_error h (S i) = Some b -> a <> b) /\
  (forall p, nth_error chain (length h) = Some p -> last h = Some p).
Proof. apply type_hierarchy_chain. Qed.

(** An element [mq.1] of class [mq], a quadrupole. *)
Example get_type_hierarchy_example :
  get_type_hierarchy
    {| me_name := "mq.1";
       me_elem := {| el_name := "mq.1"; el_parents := ["mq"; "quadrupole"; "quadrupole"];
                     el_base_type := "quadrupole"; el_cmdpar := [];
                     el_field_errors := None; el_align_errors := None |};
       me_madeval := false; me_field_errors := None; me_dict := [] |}
  = ["mq.1"; "mq"; "quadrupole"].
Proof. reflexivity. Qed.

(** ** The shape of an aperture *)

Lemma Aperture_init_view (m : MadElem) (enable_errors B : bool) (a : Aperture) :
  Aperture_init m enable_errors B = Ok a ->
  ap_mad_el a = m /\ ap_name a = me_name m /\ ap_Builder a = B.
Proof.
  unfold Aperture_init. intros H.
  repeat match type of H with
         | context [rbind ?x _] => destruct x; cbn [rbind] in H
         end; try discriminate H.
  now injection H as <-.
Qed.

(** X26: the shape of an aperture is always a single builder.  It carries
    the name of the element followed by [_aper] and one of the aperture
    classes, for a polygon of more than two vertices as for the shapes
    chosen by [apertype]; only an [apertype] that reads [drift] is
    dispatched to the rule for drifts and gives a drift with the name of
    the element. *)
Theorem aperture_single_builder (np_tan : float -> float) (self : MadLoader)
    (m : MadElem) (enable_errors : bool) (a : Aperture)
    (bs : list ElementBuilder) :
  Aperture_init m enable_errors (Builder self) = Ok a ->
  Aperture_aperture np_tan self a = Ok bs ->
  exists b,
    bs = [b] /\
    eb_with_expr b = Builder self /\
    ((eb_name b = me_name m +:+ "_aper" /\ is_limit (eb_type b) = true) \/
     (ap_apertype a = Str "drift" /\ eb_name b = me_name m /\ eb_type b = Drift)).
Proof.
  intros Hinit. apply Aperture_init_view in Hinit as (Hel & Hname & HB).
  unfold Aperture_aperture. rewrite Hel, Hname, HB.
  destruct (attr m "aper_vx") as [vx |]; cbn [rbind]; [| discriminate].
  destruct (py_len vx) as [n |]; cbn [rbind]; [| discriminate].
  destruct (Nat.ltb 2 n).
  { destruct (attr m "aper_vy"); cbn [rbind]; [| discriminate].
    intros H. injection H as <-. eexists. repeat split. left. auto. }
  destruct (ap_apertype a) as [| | apertype |]; try discriminate.
  unfold aperture_converter.
  repeat match goal with
         | |- context [if String.eqb apertype ?s then _ else _] =>
             destruct (String.eqb_spec apertype s) as [-> | _]
         end;
    try (destruct (in_list _ _); discriminate);
    unfold convert_rectangle, convert_racetrack, convert_ellipse, convert_circle,
      convert_rectellipse, convert_octagon, convert_polygon, convert_drift;
    intros H;
    repeat match type of H with
           | context [rbind ?x _] => destruct x; cbn [rbind] in H
           | context [match ?l with [] => _ | _ :: _ => _ end] => destruct l
           end; try discriminate H;
    injection H as <-; eexists; repeat split; auto.
Qed.

(** The octagon of the sample record. *)
Lemma aperture_single_builder_witness :
  exists a b,
    Aperture_init sample_aperture_view false false = Ok a /\
    Aperture_aperture tan_series (default_loader []) a = Ok [b] /\
    eb_name b = "mb_aper".
Proof.
  destruct (Aperture_init sample_aperture_view false false) as [a |] eqn:Ha;
    [| discriminate Ha].
  destruct (Aperture_aperture tan_series (default_loader []) a) as [bs |] eqn:Hbs;
    [| vm_compute in Ha; injection Ha as <-; discriminate Hbs].
  destruct (aperture_single_builder tan_series (default_loader [])
              sample_aperture_view false a bs Ha Hbs)
    as (b & -> & _ & [[Hn _] | (Hd & _)]).
  - exists a, b. split; [reflexivity | split; [exact Hbs | exact Hn]].
  - vm_compute in Ha. injection Ha as <-. discriminate Hd.
Defined.


(** ** Expressions for selected element types *)

(** X27: when element types are selected for expressions, [make_line]
    sets the builder class for each element by its type: after an element
    is converted, the loader builds with expressions exactly if the type of
    the element is selected.  A drift of a selected type is built from what
    its view reads with the evaluator; a drift of another type is built by
    the plain builder from what the view reads without evaluator. *)
Theorem selected_types_get_expressions (vars : string -> float)
    (np_tan : float -> float) (self self' : MadLoader) (madeval : bool)
    (line line' : Line) (m : MadElem) (types : list string)
    (printed : list output) :
  expressions_for_element_types self = Some types ->
  convert_element vars np_tan self madeval line (Some m)
  = (printed, Ok (self', line')) ->
  Builder self' = in_list (me_type m) types /\
  (me_type m = "drift" ->
   exists lv,
     attr (set_madeval m (madeval && in_list "drift" types)) "l" = Ok lv /\
     line' = add_elements vars
               [EB (Builder_call (in_list "drift" types) (me_name m) Drift
                      [("length", lv)])] line).
Proof.
  intros Hsel. unfold convert_element. rewrite Hsel. cbn [slot_type option_map].
  unfold adder.
  destruct (in_list (me_type m) types) eqn:Hin;
    (destruct (String.eqb (me_type m) "elements"); [discriminate |]);
    (destruct (converter vars np_tan (me_type m)) as [f | |] eqn:Hconv;
     [| discriminate | discriminate]).
  - destruct (f (set_Builder self true) (set_madeval m madeval))
      as [printed0 [bs | e]] eqn:Hf; cbn [rbind]; [| discriminate].
    intros H. injection H as _ <- <-. split; [reflexivity |].
    intros Hty. rewrite Hty in Hconv, Hin. rewrite Hin, andb_true_r.
    change (converter vars np_tan "drift") with
      (Method (fun (self : MadLoader) (el : MadElem) =>
                 quiet (let! bs := convert_drift self el in Ok (map EB bs))))
      in Hconv.
    injection Hconv as <-. unfold quiet, convert_drift in Hf.
    destruct (attr (set_madeval m madeval) "l") as [lv |]; cbn [rbind] in Hf;
      [| discriminate].
    injection Hf as _ <-. exists lv. split; reflexivity.
  - destruct (f (set_Builder self false) (set_madeval m false))
      as [printed0 [bs | e]] eqn:Hf; cbn [rbind]; [| discriminate].
    intros H. injection H as _ <- <-. split; [reflexivity |].
    intros Hty. rewrite Hty in Hconv, Hin. rewrite Hin, andb_false_r.
    change (converter vars np_tan "drift") with
      (Method (fun (self : MadLoader) (el : MadElem) =>
                 quiet (let! bs := convert_drift self el in Ok (map EB bs))))
      in Hconv.
    injection Hconv as <-. unfold quiet, convert_drift in Hf.
    destruct (attr (set_madeval m false) "l") as [lv |]; cbn [rbind] in Hf;
      [| discriminate].
    injection Hf as _ <-. exists lv. split; reflexivity.
Qed.

(** A drift with a formula for its length, expressions being selected for
    quadrupoles only: the plain builder with the number. *)
Lemma selected_types_witness :
  exists self' line',
    convert_element sample_vars tan_series (selecting_loader ["quadrupole"] [])
      true Line_new (Some formula_drift)
    = ([], Ok (self', line')) /\
    Builder self' = false /\
    line' = add_elements sample_vars
              [EB (Builder_call false "d1" Drift [("length", Num 1)])] Line_new.
Proof.
  destruct (convert_element sample_vars tan_series
              (selecting_loader ["quadrupole"] []) true Line_new
              (Some formula_drift)) as [printed [[self' line'] | e]] eqn:H;
    [| discriminate H].
  destruct (selected_types_get_expressions sample_vars tan_series
              (selecting_loader ["quadrupole"] []) self' true Line_new line'
              formula_drift ["quadrupole"] printed eq_refl H) as [HB Hline].
  destruct (Hline eq_refl) as (lv & Hlv & ->).
  injection Hlv as <-.
  exists self', (add_elements sample_vars
                   [EB (Builder_call false "d1" Drift [("length", Num 1)])]
                   Line_new).
  split; [| split; [exact HB | reflexivity]].
  assert (printed = []) as -> by (vm_compute in H; congruence).
  reflexivity.
Defined.

(** ** Allocation from current values *)

Lemma get_value_free (vars : string -> float) (x : pyval) :
  expr_free (get_value vars x) = true.
Proof.
  induction x as [v | e | s | l IH] using pyval_nested_ind; try reflexivity.
  simpl. induction IH as [| v l H _ IHl]; simpl; [reflexivity |].
  now rewrite H.
Qed.

(** X28: a builder with expressions allocates its element from the
    current values of its attributes: under the same keywords, in the same
    order, no expression node reaches the element class, and the
    attributes themselves are kept for re-attachment.  A plain builder
    passes its attributes as they are. *)
Theorem allocate_from_values (vars : string -> float) (b : ElementBuilder) :
  xt_type (allocate vars b) = eb_type b /\
  map fst (xt_attrs (allocate vars b)) = map fst (eb_attrs b) /\
  (eb_with_expr b = true ->
   Forall (fun kv => expr_free (snd kv) = true) (xt_attrs (allocate vars b)) /\
   (forall k v, assoc k (eb_attrs b) = Some v ->
                assoc k (xt_attrs (allocate vars b)) = Some (get_value vars v)) /\
   xt_exprs (allocate vars b) = eb_attrs b) /\
  (eb_with_expr b = false ->
   xt_attrs (allocate vars b) = eb_attrs b /\ xt_exprs (allocate vars b) = []).
Proof.
  unfold allocate. destruct (eb_with_expr b); cbn [xt_type xt_attrs xt_exprs].
  - split; [reflexivity |]. split; [| split; [| discriminate]].
    + rewrite map_map. reflexivity.
    + intros _. split; [| split; [| reflexivity]].
      * induction (eb_attrs b) as [| [k v] l IH]; constructor; [| exact IH].
        apply get_value_free.
      * intros k v. induction (eb_attrs b) as [| [k' v'] l IH]; [discriminate |].
        simpl. destruct (String.eqb k k'); [| exact IH].
        intros H. now injection H as <-.
  - repeat split; auto; discriminate.
Qed.


(** ** Alignment in numbers *)

(** X29: for an element whose tilt is a number (zero when it has none),
    the constructor of [Alignment] never raises.  The tilt it keeps is in
    degrees: the tilt of the element when that is not zero, then the
    custom tilt when one is given, then the roll error [dpsi] when
    alignment errors are enabled and the element has an error record, added
    in this order.  The offsets are those of the error record, and zero
    without it or with alignment errors disabled: then [entry()] holds no
    shift. *)
Theorem Alignment_init_numbers (m : MadElem) (enable_errors B : bool)
    (t : float) (custom : option float) :
  get m "tilt" (Num 0) = Ok (Num t) ->
  let tilt1 := if (t =? 0)%float then t else degrees t in
  let tilt2 :=
    match custom with
    | Some c => (tilt1 + degrees c)%float
    | None => tilt1
    end in
  exists a,
    Alignment_init m enable_errors B (option_map Num custom) = Ok a /\
    al_name a = me_name m /\
    al_Builder a = B /\
    match (if enable_errors then align_errors m else None) with
    | Some ae =>
        al_tilt a = Num (tilt2 + degrees (ae_dpsi ae)) /\
        al_dx a = Num (ae_dx ae) /\ al_dy a = Num (ae_dy ae)
    | None =>
        al_tilt a = Num tilt2 /\ al_dx a = Num 0 /\ al_dy a = Num 0 /\
        Forall (fun b => eb_type b = SRotation) (Alignment_entry a)
    end.
Proof.
  intros Ht tilt1 tilt2. unfold Alignment_init. rewrite Ht. cbn [rbind].
  change (truthy (Num t)) with (negb (t =? 0)%float).
  assert (Htilt1 : (if negb (t =? 0)%float then rad2deg (Num t) else Ok (Num t))
                   = Ok (Num tilt1)).
  { unfold tilt1. destruct (t =? 0)%float; reflexivity. }
  rewrite Htilt1. cbn [rbind].
  assert (Htilt2 : match option_map Num custom with
                   | Some c => let! d := rad2deg c in py_add (Num tilt1) d
                   | None => Ok (Num tilt1)
                   end = Ok (Num tilt2)).
  { unfold tilt2. destruct custom; reflexivity. }
  rewrite Htilt2. cbn [rbind].
  destruct (if enable_errors then align_errors m else None) as [ae |].
  - eexists. split; [reflexivity |]. repeat split.
  - eexists. split; [reflexivity |]. repeat split.
    unfold Alignment_entry. cbn [al_tilt al_dx al_dy truthy].
    replace (0 =? 0)%float with true by reflexivity. cbn [negb orb].
    destruct (negb (tilt2 =? 0)%float); repeat constructor.
Qed.

(** A quadrupole tilted by 0.01 radian with a roll error of 0.002 radian
    and an offset of one millimetre. *)
Lemma Alignment_init_witness :
  exists a,
    Alignment_init misaligned_view true false None = Ok a /\
    al_tilt a = Num (degrees 0.01 + degrees 0.002) /\
    al_dx a = Num 0.001.
Proof.
  destruct (Alignment_init_numbers misaligned_view true false 0.01 None eq_refl)
    as (a & Ha & _ & _ & Htilt & Hdx & _).
  exists a. split; [exact Ha | split; [exact Htilt | exact Hdx]].
Defined.


(** X30: the constructor of [Aperture] reads the horizontal offset from
    the first entry of [aper_offset] and raises [IndexError] when the array
    is empty; the vertical offset is the second entry, and zero when there
    is none.  The aperture errors [arex] and [arey] of the error record are
    added to them when alignment errors are enabled and the element has a
    record, and not otherwise.  The tilt of the aperture is kept in
    degrees. *)
Theorem Aperture_init_numbers (m : MadElem) (enable_errors B : bool)
    (t : float) (offset : list float) (apertype : pyval) :
  attr m "aper_tilt" = Ok (Num t) ->
  attr m "aper_offset" = Ok (PList (map Num offset)) ->
  attr m "apertype" = Ok apertype ->
  match offset with
  | [] => Aperture_init m enable_errors B = Raise IndexError
  | x :: rest =>
      let y := match rest with y :: _ => y | [] => 0%float end in
      exists a,
        Aperture_init m enable_errors B = Ok a /\
        ap_aper_tilt a = Num (degrees t) /\
        ap_apertype a = apertype /\
        match (if enable_errors then align_errors m else None) with
        | Some ae =>
            ap_dx a = Num (x + ae_arex ae) /\ ap_dy a = Num (y + ae_arey ae)
        | None => ap_dx a = Num x /\ ap_dy a = Num y
        end
  end.
Proof.
  intros Ht Hoff Htype. unfold Aperture_init. rewrite Ht, Hoff, Htype.
  destruct offset as [| x [| y rest]]; [reflexivity | |];
    cbn [rbind rad2deg py_mul py_div py_index py_len map nth_error length Nat.ltb
         Nat.leb];
    destruct (if enable_errors then align_errors m else None) as [ae |];
    cbn [rbind py_add fst snd]; eexists; repeat split; reflexivity.
Qed.

(** An aperture displaced horizontally by two millimetres. *)
Lemma Aperture_init_witness :
  exists a,
    Aperture_init
      (sample_view "mb" "sbend"
         [("aper_tilt", ParNum 0 None);
          ("aper_offset", ParList [0.002]%float [None]);
          ("apertype", ParStr "circle")]) false false
    = Ok a /\
    ap_dx a = Num 0.002 /\ ap_dy a = Num 0.
Proof.
  destruct (Aperture_init_numbers
              (sample_view "mb" "sbend"
                 [("aper_tilt", ParNum 0 None);
                  ("aper_offset", ParList [0.002]%float [None]);
                  ("apertype", ParStr "circle")]) false false
              0 [0.002]%float (Str "circle") eq_refl eq_refl eq_refl)
    as (a & Ha & _ & _ & Hdx & Hdy).
  exists a. split; [exact Ha | split; [exact Hdx | exact Hdy]].
Defined.

